(** * Merci SDK: stream event parser, request assembler and agent loop

    A shallow embedding of [lib/merci.2.11.0.mjs] and [lib/merci.2.14.0.mjs]
    (the two SDK versions shipped side by side in the repository), and the
    properties of the specification settled against it.

    Conventions of the embedding.
    - A JavaScript string is a [string]: a sequence of code units below 256.
    - A JavaScript number that the code only compares, sorts or passes on is
      an integer [Z].
    - [JSON.parse], the transport ([fetch]) and the clock are the platform's:
      the development is parametric in them (Section variables).
    - Exceptions are explicit ([Throws]); event emission, the requests sent
      and the arrays the code allocates or mutates are threaded through a
      state monad ([M]) over a [World]. *)

From Stdlib Require Import ZArith Ascii String.
From stdpp Require Import base option strings list gmap sorting pretty.

Local Open Scope string_scope.
Local Open Scope Z_scope.
Local Open Scope list_scope.

(* ================================================================== *)
(** * JavaScript prelude                                               *)
(* ================================================================== *)

(** Values of type [any]: tool arguments and results, parameter values,
    quota payloads. *)
#[warnings="-register-all"]
Inductive JSValue :=
| JUndefined
| JNull
| JBool (b : bool)
| JNumber (n : Z)
| JString (s : string)
| JArray (items : list JSValue)
| JObject (props : list (string * JSValue)).

(** A property of a decoded record that may be absent or [null]. *)
Inductive Field (A : Type) :=
| undefined
| null
| given (a : A).
Arguments undefined {A}.
Arguments null {A}.
Arguments given {A} a.

(** [if (x)] on a string-valued property: absent, [null] and [''] are falsy. *)
Definition truthy (f : Field string) : bool :=
  match f with
  | given s => negb (String.eqb s "")
  | _ => false
  end.

(** [x ?? d] *)
Definition nullish_or {A} (f : Field A) (d : A) : A :=
  match f with
  | given a => a
  | _ => d
  end.

(** [String(x)], as string concatenation applies it to its right operand. *)
Definition ToString (f : Field string) : string :=
  match f with
  | undefined => "undefined"
  | null => "null"
  | given s => s
  end.

(** [String(x)] on a string-or-null slot ([ToolCall.id], [ToolCall.name]). *)
Definition ToString_nullable (o : option string) : string :=
  match o with
  | None => "null"
  | Some s => s
  end.

(** ** Exceptions *)

Inductive JSError :=
| SSEError (message : string)
| TypeError (message : string)
| SyntaxError (message : string)
| APIStatusError (message : string) (status : Z)
| APIError (message : string)
| Error (message : string).

Definition message (e : JSError) : string :=
  match e with
  | SSEError m | TypeError m | SyntaxError m | APIStatusError m _
  | APIError m | Error m => m
  end.

Inductive Throws (A : Type) :=
| Return (a : A)
| Throw (e : JSError).
Arguments Return {A} a.
Arguments Throw {A} e.

(** ** Strings *)

(** White space and line terminators of [String.prototype.trim], among the
    code units below 256: TAB, LF, VT, FF, CR, SP and NBSP. *)
Definition is_white_space (c : ascii) : bool :=
  let n := nat_of_ascii c in
  (Nat.eqb n 9 || Nat.eqb n 10 || Nat.eqb n 11 || Nat.eqb n 12
   || Nat.eqb n 13 || Nat.eqb n 32 || Nat.eqb n 160)%bool.

Fixpoint trimStart (s : string) : string :=
  match s with
  | String c r => if is_white_space c then trimStart r else s
  | EmptyString => EmptyString
  end.

Fixpoint trimEnd (s : string) : string :=
  match s with
  | EmptyString => EmptyString
  | String c r =>
      let r' := trimEnd r in
      if (is_white_space c && String.eqb r' "")%bool then EmptyString
      else String c r'
  end.

Definition trim (s : string) : string := trimEnd (trimStart s).

(** [s.startsWith(p)] *)
Definition startsWith (s p : string) : bool := String.prefix p s.

(** [s.substring(n)] *)
Fixpoint substring_from (n : nat) (s : string) : string :=
  match n, s with
  | O, _ => s
  | S n', String _ r => substring_from n' r
  | S _, EmptyString => EmptyString
  end.

Definition LF : ascii := ascii_of_nat 10.

(** [s.split('\n')]: never empty; the last item is what follows the last
    line feed. Returned as (complete lines, remainder), that is the array
    after [lines.pop()] and the popped item. *)
Fixpoint split_lines (s : string) : list string * string :=
  match s with
  | EmptyString => ([], EmptyString)
  | String c r =>
      let '(ls, last) := split_lines r in
      if Ascii.eqb c LF then (EmptyString :: ls, last)
      else match ls with
           | [] => ([], String c last)
           | l :: ls' => (String c l :: ls', last)
           end
  end.

(** ** Property reads on object literals

    [obj[key]] on an object literal consults the object's own properties
    and then [Object.prototype]. *)

Definition Object_prototype_names : list string :=
  [ "constructor"; "__defineGetter__"; "__defineSetter__"; "hasOwnProperty";
    "__lookupGetter__"; "__lookupSetter__"; "isPrototypeOf";
    "propertyIsEnumerable"; "toString"; "valueOf"; "__proto__";
    "toLocaleString" ].

(** The outcome of [obj[key]]: an own property, a member inherited from
    [Object.prototype] (a function, or the prototype object itself: truthy,
    and none of them has a [params] property), or [undefined]. *)
Inductive Lookup (A : Type) :=
| own (a : A)
| inherited
| missing.
Arguments own {A} a.
Arguments inherited {A}.
Arguments missing {A}.

Definition property_read {A} (obj : gmap string A) (key : string) : Lookup A :=
  match obj !! key with
  | Some a => own a
  | None =>
      if bool_decide (key ∈ Object_prototype_names) then inherited
      else missing
  end.

(** ** [Map]: entries in insertion order, keys unique *)

Section JSMap.
Context {V : Type}.

Definition JSMap := list (Z * V).

Fixpoint Map_get (k : Z) (m : JSMap) : option V :=
  match m with
  | [] => None
  | (k', v) :: m' => if Z.eqb k k' then Some v else Map_get k m'
  end.

Definition Map_has (k : Z) (m : JSMap) : bool :=
  match Map_get k m with Some _ => true | None => false end.

(** [m.set(k, v)]: an existing key keeps its position. Also the model of
    a write through the object [m.get(k)] returned (the entry is shared). *)
Fixpoint Map_set (k : Z) (v : V) (m : JSMap) : JSMap :=
  match m with
  | [] => [(k, v)]
  | (k', v') :: m' =>
      if Z.eqb k k' then (k, v) :: m' else (k', v') :: Map_set k v m'
  end.
End JSMap.
Arguments JSMap V : clear implicits.

(** [entries.sort(([a], [b]) => a - b)]: a stable sort under the comparator
    [a - b], which puts [x] before [y] when [x.key - y.key <= 0]. *)
Definition index_le {V} (x y : Z * V) : Prop := x.1 - y.1 <= 0.

Global Instance index_le_dec {V} (x y : Z * V) : Decision (index_le x y).
Proof. unfold index_le. apply _. Defined.

Definition sort_by_index {V} (entries : list (Z * V)) : list (Z * V) :=
  merge_sort index_le entries.

(* ================================================================== *)
(** * Data model                                                       *)
(* ================================================================== *)

(** [ToolCall]: what the parser accumulates and finalizes. [id] and [name]
    start as [null] ([None]). *)
Record ToolCall := mkToolCall {
  tc_id : option string;
  tc_name : option string;
  tc_arguments : string
}.

(** The value [JSON.stringify] is applied to, kept symbolic. *)
Inductive Stringified :=
| JSON_stringify (v : JSValue).

Inductive ChatMessage :=
| user_message (content : string)
| system_message (content : string)
| assistant_message_text (content : string)
| assistant_message_tool (id : option string) (toolName : option string)
    (content : string)
| tool_message (id : option string) (toolName : option string)
    (result : Stringified)
| media_message (mediaType : string) (data : string).

Definition createUserMessage (content : string) : ChatMessage :=
  user_message content.
Definition createSystemMessage (content : string) : ChatMessage :=
  system_message content.
Definition createAssistantTextMessage (content : string) : ChatMessage :=
  assistant_message_text content.
Definition createAssistantToolCallMessage
    (id toolName : option string) (content : string) : ChatMessage :=
  assistant_message_tool id toolName content.
Definition createToolResultMessage
    (id toolName : option string) (result : Stringified) : ChatMessage :=
  tool_message id toolName result.

(** [m.type === 'system_message'] *)
Definition is_system_message (m : ChatMessage) : bool :=
  match m with
  | system_message _ => true
  | _ => false
  end.

Inductive StreamEvent :=
| Ev_text (content : Field string)
| Ev_tool_calls (calls : list ToolCall)
| Ev_quota (data : JSValue).

(** [ToolExecutionResult]: [{ name, success, result?, error? }]. *)
Record ToolExecutionResult := mkResult {
  res_name : option string;
  res_success : bool;
  res_result : JSValue;
  res_error : Field string
}.

Record ToolDefinition := mkTool {
  tool_name : string;
  tool_description : string;
  tool_parameters : JSValue;
  tool_execute : JSValue -> Throws JSValue
}.

(** A tool with [execute] stripped: what crosses the wire. *)
Record ToolSchema := mkToolSchema {
  schema_name : string;
  schema_description : string;
  schema_parameters : JSValue
}.

(** ** The wire records

    The result of [JSON.parse] on the payload of a data line, read at the
    types the protocol gives the properties [parseLine] looks at: the
    discriminator [type], a text [content], [id], [name] and [reason], and
    an integer [parallelToolIndex]; each of them may be absent or [null].
    Records that break this schema are outside the embedding. *)
Inductive WireRecord :=
| Content (content : Field string)
| ToolCallFragment (parallelToolIndex : Field Z)
    (id name content : Field string)
| FinishMetadata (reason : Field string)
| QuotaMetadata (parsed : JSValue)
| OtherRecord.

(** [JSON.parse(text)]: a record (or any other non-null value, whose [type]
    is then [undefined]: [OtherRecord]), the value [null], or a
    [SyntaxError]. *)
Inductive Decoded :=
| Parsed (parsed : WireRecord)
| ParsedNull
| NotJSON (syntax_error_message : string).

(* ================================================================== *)
(** * Section 1 of the SDK: constants and profiles                     *)
(* ================================================================== *)

Inductive ParamKey :=
| TEMPERATURE | TOP_P | TOP_K | LENGTH | STOP_TOKEN | SEED
| RESPONSE_FORMAT | TOOLS | TOOL_CHOICE_AUTO | TOOL_CHOICE_REQUIRED
| TOOL_CHOICE_NONE | TOOL_CHOICE_NAMED | PARALLEL_TOOL_CALLS
| REASONING_EFFORT | PREDICTED_OUTPUT | CACHE_POINTS | THINKING_BUDGET
| NUMBER_OF_CHOICES | VERBOSITY.

Global Instance ParamKey_eq_dec : EqDecision ParamKey.
Proof. solve_decision. Defined.

(** The property name of a key, as [Object.entries] yields it. *)
Definition key_name (k : ParamKey) : string :=
  match k with
  | TEMPERATURE => "TEMPERATURE" | TOP_P => "TOP_P" | TOP_K => "TOP_K"
  | LENGTH => "LENGTH" | STOP_TOKEN => "STOP_TOKEN" | SEED => "SEED"
  | RESPONSE_FORMAT => "RESPONSE_FORMAT" | TOOLS => "TOOLS"
  | TOOL_CHOICE_AUTO => "TOOL_CHOICE_AUTO"
  | TOOL_CHOICE_REQUIRED => "TOOL_CHOICE_REQUIRED"
  | TOOL_CHOICE_NONE => "TOOL_CHOICE_NONE"
  | TOOL_CHOICE_NAMED => "TOOL_CHOICE_NAMED"
  | PARALLEL_TOOL_CALLS => "PARALLEL_TOOL_CALLS"
  | REASONING_EFFORT => "REASONING_EFFORT"
  | PREDICTED_OUTPUT => "PREDICTED_OUTPUT"
  | CACHE_POINTS => "CACHE_POINTS"
  | THINKING_BUDGET => "THINKING_BUDGET"
  | NUMBER_OF_CHOICES => "NUMBER_OF_CHOICES"
  | VERBOSITY => "VERBOSITY"
  end.

Record ParamDef := mkParamDef { fqdn : string; type : string }.

Definition LLMParameters (k : ParamKey) : ParamDef :=
  match k with
  | TEMPERATURE => mkParamDef "llm.parameters.temperature" "double"
  | TOP_P => mkParamDef "llm.parameters.top-p" "double"
  | TOP_K => mkParamDef "llm.parameters.top-k" "int"
  | LENGTH => mkParamDef "llm.parameters.length" "int"
  | STOP_TOKEN => mkParamDef "llm.parameters.stop-token" "text"
  | SEED => mkParamDef "llm.parameters.seed" "int"
  | RESPONSE_FORMAT => mkParamDef "llm.parameters.response-format" "json"
  | TOOLS => mkParamDef "llm.parameters.tools" "json"
  | TOOL_CHOICE_AUTO => mkParamDef "llm.parameters.tool-choice-auto" "bool"
  | TOOL_CHOICE_REQUIRED =>
      mkParamDef "llm.parameters.tool-choice-required" "bool"
  | TOOL_CHOICE_NONE => mkParamDef "llm.parameters.tool-choice-none" "bool"
  | TOOL_CHOICE_NAMED => mkParamDef "llm.parameters.tool-choice-named" "json"
  | PARALLEL_TOOL_CALLS =>
      mkParamDef "llm.parameters.parallel-tool-calls" "bool"
  | REASONING_EFFORT => mkParamDef "llm.parameters.reasoning-effort" "text"
  | PREDICTED_OUTPUT => mkParamDef "llm.parameters.predicted-output" "json"
  | CACHE_POINTS => mkParamDef "llm.parameters.cache-points" "json"
  | THINKING_BUDGET => mkParamDef "llm.parameters.thinking-budget" "int"
  | NUMBER_OF_CHOICES => mkParamDef "llm.parameters.number-of-choices" "int"
  | VERBOSITY => mkParamDef "llm.parameters.verbosity" "text"
  end.

(** [keys.map(k => LLMParameters[k].fqdn)] *)
Definition fqdns (keys : list ParamKey) : list string :=
  (fun k => fqdn (LLMParameters k)) <$> keys.

Module paramGroups.
Definition COMMON_TOOLS := fqdns
  [TOOLS; TOOL_CHOICE_NAMED; TOOL_CHOICE_AUTO; TOOL_CHOICE_REQUIRED;
   TOOL_CHOICE_NONE].
Definition OPENAI_GPT3_4 := fqdns
  [TEMPERATURE; TOP_P; SEED; LENGTH; NUMBER_OF_CHOICES; PARALLEL_TOOL_CALLS].
Definition OPENAI_O_SERIES := fqdns
  [LENGTH; SEED; RESPONSE_FORMAT; REASONING_EFFORT; NUMBER_OF_CHOICES].
Definition OPENAI_GPT4_1 := fqdns
  [TOP_P; LENGTH; SEED; TEMPERATURE; RESPONSE_FORMAT; NUMBER_OF_CHOICES;
   PREDICTED_OUTPUT; PARALLEL_TOOL_CALLS].
Definition OPENAI_GPT5 := fqdns
  [LENGTH; RESPONSE_FORMAT; PARALLEL_TOOL_CALLS; REASONING_EFFORT; VERBOSITY].
Definition ANTHROPIC_CLAUDE3 := fqdns
  [TEMPERATURE; TOP_K; TOP_P; STOP_TOKEN; LENGTH; TOOLS].
Definition ANTHROPIC_CLAUDE_PLUS := fqdns
  [TEMPERATURE; TOP_P; STOP_TOKEN; LENGTH; CACHE_POINTS; PARALLEL_TOOL_CALLS].
Definition GOOGLE_GEMINI_1_5_PRO := fqdns
  [TEMPERATURE; TOP_P; TOP_K; RESPONSE_FORMAT; LENGTH].
Definition GOOGLE_GEMINI_1_5_FLASH := fqdns
  [TEMPERATURE; TOP_P; TOP_K; LENGTH].
Definition GOOGLE_GEMINI_2_5_PRO := fqdns
  [TEMPERATURE; TOP_P; TOP_K; RESPONSE_FORMAT; LENGTH; THINKING_BUDGET; TOOLS].
Definition GOOGLE_GEMINI_2_5_FLASH := fqdns
  [RESPONSE_FORMAT; TEMPERATURE; LENGTH; TOP_P; THINKING_BUDGET].
End paramGroups.

Record ModelProfile := mkProfile {
  provider : string;
  params : gset string
}.

(** [new Set(items)] *)
Definition new_Set (items : list string) : gset string := list_to_set items.

Definition modelProfiles : gmap string ModelProfile :=
  let fq k := fqdn (LLMParameters k) in
  let p prov items := mkProfile prov (new_Set items) in
  list_to_map (M := gmap string ModelProfile) (
  let g := paramGroups.COMMON_TOOLS in
  [ ("openai-chat-gpt", p "OpenAI" (paramGroups.OPENAI_GPT3_4 ++ g));
    ("openai-gpt-4", p "OpenAI" (paramGroups.OPENAI_GPT3_4 ++ g));
    ("openai-gpt-4-turbo",
      p "OpenAI" (paramGroups.OPENAI_GPT3_4 ++ g ++ [fq RESPONSE_FORMAT]));
    ("openai-gpt-4o",
      p "OpenAI" (paramGroups.OPENAI_GPT3_4 ++ g
                  ++ [fq RESPONSE_FORMAT; fq PREDICTED_OUTPUT]));
    ("openai-gpt-4o-mini",
      p "OpenAI" (paramGroups.OPENAI_GPT3_4 ++ g
                  ++ [fq RESPONSE_FORMAT; fq PREDICTED_OUTPUT]));
    ("openai-o1", p "OpenAI" (paramGroups.OPENAI_O_SERIES ++ g));
    ("openai-o1-mini", p "OpenAI" (fqdns [LENGTH; SEED; NUMBER_OF_CHOICES]));
    ("openai-o3", p "OpenAI" (paramGroups.OPENAI_O_SERIES ++ g));
    ("openai-o3-mini", p "OpenAI" (paramGroups.OPENAI_O_SERIES ++ g));
    ("openai-o4-mini", p "OpenAI" (paramGroups.OPENAI_O_SERIES ++ g));
    ("openai-gpt4.1", p "OpenAI" (paramGroups.OPENAI_GPT4_1 ++ g));
    ("openai-gpt4.1-mini", p "OpenAI" (paramGroups.OPENAI_GPT4_1 ++ g));
    ("openai-gpt4.1-nano", p "OpenAI" (paramGroups.OPENAI_GPT4_1 ++ g));
    ("openai-gpt-5", p "OpenAI" (paramGroups.OPENAI_GPT5 ++ g));
    ("openai-gpt-5-mini", p "OpenAI" (paramGroups.OPENAI_GPT5 ++ g));
    ("openai-gpt-5-nano", p "OpenAI" (paramGroups.OPENAI_GPT5 ++ g));
    ("Grazie_model_1", p "OpenAI" (paramGroups.OPENAI_GPT5 ++ g));
    ("Grazie_model_2", p "OpenAI" (paramGroups.OPENAI_GPT5 ++ g));
    ("openai-instruct-gpt", p "OpenAI" [fq TEMPERATURE]);
    ("openai-embedding-ada", p "OpenAI" []);
    ("openai-embedding-small", p "OpenAI" []);
    ("openai-embedding-large", p "OpenAI" []);
    ("anthropic-claude-3-haiku", p "Anthropic" paramGroups.ANTHROPIC_CLAUDE3);
    ("anthropic-claude-3-opus", p "Anthropic" paramGroups.ANTHROPIC_CLAUDE3);
    ("anthropic-claude-3.5-haiku",
      p "Anthropic" (paramGroups.ANTHROPIC_CLAUDE_PLUS ++ g));
    ("anthropic-claude-3.5-sonnet",
      p "Anthropic"
        (fqdns [TEMPERATURE; TOP_P; STOP_TOKEN; LENGTH; PARALLEL_TOOL_CALLS]
         ++ g));
    ("anthropic-claude-3.7-sonnet",
      p "Anthropic" (paramGroups.ANTHROPIC_CLAUDE_PLUS ++ g));
    ("anthropic-claude-4-sonnet",
      p "Anthropic" (paramGroups.ANTHROPIC_CLAUDE_PLUS ++ g));
    ("anthropic-claude-4-opus",
      p "Anthropic" (paramGroups.ANTHROPIC_CLAUDE_PLUS ++ g));
    ("anthropic-claude-4.1-opus",
      p "Anthropic" (paramGroups.ANTHROPIC_CLAUDE_PLUS ++ g));
    ("google-chat-gemini-pro-1.5",
      p "Google" (paramGroups.GOOGLE_GEMINI_1_5_PRO ++ g));
    ("google-chat-gemini-flash-1.5",
      p "Google" (paramGroups.GOOGLE_GEMINI_1_5_FLASH ++ g));
    ("google-chat-gemini-flash-2.0",
      p "Google" (paramGroups.GOOGLE_GEMINI_1_5_PRO ++ g));
    ("google-chat-gemini-flash-lite-2.0",
      p "Google" (paramGroups.GOOGLE_GEMINI_1_5_PRO ++ g));
    ("google-chat-gemini-pro-2.5", p "Google" paramGroups.GOOGLE_GEMINI_2_5_PRO);
    ("google-chat-gemini-flash-2.5",
      p "Google" (paramGroups.GOOGLE_GEMINI_2_5_FLASH ++ g));
    ("google-chat-gemini-flash-lite-2.5",
      p "Google" (paramGroups.GOOGLE_GEMINI_2_5_FLASH ++ g)) ]).

(** [set.has(x)] *)
Definition Set_has (s : gset string) (x : string) : bool := bool_decide (x ∈ s).

(* ================================================================== *)
(** * The stream event parser ([class SSEParser])                      *)
(* ================================================================== *)

Record SSEParser := mkParser {
  finalizedToolCalls : list ToolCall;
  toolCallsInProgress : JSMap ToolCall
}.

(** [constructor()] *)
Definition new_SSEParser : SSEParser := mkParser [] [].

(** [{ id: null, name: null, arguments: '' }] *)
Definition empty_call : ToolCall := mkToolCall None None "".

(** [if (parsed.x) currentCall.x = parsed.x] *)
Definition assign_if_truthy (f : Field string) (current : option string)
  : option string :=
  if truthy f then Some (ToString f) else current.

(** [if (parsed.content) currentCall.arguments += parsed.content] *)
Definition append_if_truthy (f : Field string) (current : string) : string :=
  if truthy f then current +:+ ToString f else current.

(** [['tool_call', 'tool_calls', 'stop'].includes(parsed.reason)] *)
Definition flush_reasons : list string := ["tool_call"; "tool_calls"; "stop"].

Definition includes (l : list string) (f : Field string) : bool :=
  match f with
  | given s => bool_decide (s ∈ l)
  | _ => false
  end.

(** The [switch (parsed.type)] of [parseLine]; the same text in v2.11.0 and
    v2.14.0. Returns the parser after the line and the event returned
    ([None] for [null]). *)
Definition parseLine_switch (this : SSEParser) (parsed : WireRecord)
  : SSEParser * option StreamEvent :=
  match parsed with
  | Content content => (this, Some (Ev_text content))
  | ToolCallFragment parallelToolIndex id name content =>
      let idx := nullish_or parallelToolIndex 0 in
      let inProgress :=
        if negb (Map_has idx (toolCallsInProgress this))
        then Map_set idx empty_call (toolCallsInProgress this)
        else toolCallsInProgress this in
      let currentCall := default empty_call (Map_get idx inProgress) in
      let currentCall :=
        mkToolCall (assign_if_truthy id (tc_id currentCall))
                   (assign_if_truthy name (tc_name currentCall))
                   (append_if_truthy content (tc_arguments currentCall)) in
      (mkParser (finalizedToolCalls this) (Map_set idx currentCall inProgress),
       None)
  | FinishMetadata reason =>
      if includes flush_reasons reason then
        let sortedCalls := (sort_by_index (toolCallsInProgress this)).*2 in
        (mkParser (finalizedToolCalls this ++ sortedCalls) [], None)
      else (this, None)
  | QuotaMetadata parsed => (this, Some (Ev_quota parsed))
  | OtherRecord => (this, None)
  end.

(** The body of the [try]: [JSON.parse] throws a [SyntaxError] on malformed
    text; reading [parsed.type] throws a [TypeError] when [parsed] is
    [null]. Both happen before the parser is touched. *)
Definition parseLine_try (this : SSEParser) (d : Decoded)
  : Throws (SSEParser * option StreamEvent) :=
  match d with
  | NotJSON m => Throw (SyntaxError m)
  | ParsedNull =>
      Throw (TypeError "Cannot read properties of null (reading 'type')")
  | Parsed parsed => Return (parseLine_switch this parsed)
  end.

(** [getFinalResult().toolCalls] *)
Definition getFinalResult (this : SSEParser) : list ToolCall :=
  finalizedToolCalls this.

(** ** The read loop of [ChatSession.stream]

    The same text in both versions, over the version's [parseLine]. The
    result is the list of events yielded and how the generator completed. *)
Section ReadLoop.
Variable parseLine :
  SSEParser -> string -> Throws (SSEParser * option StreamEvent).

(** [for (const line of lines) { if (line.trim()) { ... } }] *)
Fixpoint parse_lines (parser : SSEParser) (lines : list string)
  : list StreamEvent * Throws SSEParser :=
  match lines with
  | [] => ([], Return parser)
  | line :: rest =>
      if String.eqb (trim line) "" then parse_lines parser rest
      else
        match parseLine parser line with
        | Throw e => ([], Throw e)
        | Return (parser', event) =>
            let '(events, r) := parse_lines parser' rest in
            (option_list event ++ events, r)
        end
  end.

(** [for await (const chunk of stream) { buffer += chunk; ... }] *)
Fixpoint read_chunks (parser : SSEParser) (buffer : string)
    (chunks : list string)
  : list StreamEvent * Throws (SSEParser * string) :=
  match chunks with
  | [] => ([], Return (parser, buffer))
  | chunk :: rest =>
      let buffer := buffer +:+ chunk in
      let '(lines, buffer) := split_lines buffer in
      match parse_lines parser lines with
      | (events, Throw e) => (events, Throw e)
      | (events, Return parser') =>
          let '(events', r) := read_chunks parser' buffer rest in
          (events ++ events', r)
      end
  end.

(** From [const parser = new SSEParser()] to the end of [stream]. *)
Definition read_stream (chunks : list string)
  : list StreamEvent * Throws unit :=
  match read_chunks new_SSEParser "" chunks with
  | (events, Throw e) => (events, Throw e)
  | (events, Return (parser, buffer)) =>
      match parse_lines parser [buffer] with
      | (events', Throw e) => (events ++ events', Throw e)
      | (events', Return parser') =>
          let toolCalls := getFinalResult parser' in
          (events ++ events'
             ++ (if (0 <? length toolCalls)%nat
                 then [Ev_tool_calls toolCalls] else []),
           Return ())
      end
  end.
End ReadLoop.

(* ================================================================== *)
(** * Requests, events and the world                                   *)
(* ================================================================== *)

(** A value of the [parameters.data] array after its conversion; the
    conversions ([Number], [Boolean], [JSON.stringify], [String]) are kept
    symbolic. *)
Inductive WireValue :=
| Number (v : JSValue)
| Boolean (v : JSValue)
| Stringify (v : JSValue)
| String_of (v : JSValue)
| Stringify_tools (serializableTools : list ToolSchema).

(** The two shapes pushed on [data]: [{ type, fqdn }] and [{ type, value }]. *)
Inductive DataEntry :=
| data_def (type fqdn : string)
| data_value (type : string) (value : WireValue).

(** Arrays of messages are mutable objects: the code holds references. *)
Definition Ref := nat.

(** [requestData], as [#buildRequestBody] returns it. *)
Record RequestData := mkRequestData {
  rd_profile : string;
  rd_prompt : string;
  rd_messages : Ref;
  rd_parameters : option (list DataEntry)
}.

(** [JSON.stringify(requestBody)]: the request as sent, a snapshot. *)
Record RequestBody := mkRequestBody {
  body_profile : string;
  body_prompt : string;
  body_messages : list ChatMessage;
  body_parameters : option (list DataEntry)
}.

(** What the SDK emits on the client's event emitter. *)
Inductive Emitted :=
| parameter_warning (parameter profile message : string)
| tool_warning (message : string)
| tool_start (calls : list ToolCall)
| tool_finish (results : list ToolExecutionResult).

Record World := mkWorld {
  heap : list (list ChatMessage);
  emitted : list Emitted;
  requests : list RequestBody
}.

Definition new_World : World := mkWorld [] [] [].

(** Computations: state over [World], with exceptions. *)
Definition M (A : Type) : Type := World -> World * Throws A.

Definition ret {A} (a : A) : M A := fun w => (w, Return a).

Definition throw {A} (e : JSError) : M A := fun w => (w, Throw e).

Definition bind {A B} (m : M A) (k : A -> M B) : M B :=
  fun w =>
    match m w with
    | (w', Return a) => k a w'
    | (w', Throw e) => (w', Throw e)
    end.

Notation "x <- c1 ;; c2" := (bind c1 (fun x => c2))
  (at level 100, c1 at next level, right associativity).
Notation "c1 ;;; c2" := (bind c1 (fun _ => c2))
  (at level 100, right associativity).

(** [emitter.emit(...)] *)
Definition emit (e : Emitted) : M unit :=
  fun w => (mkWorld (heap w) (emitted w ++ [e]) (requests w), Return ()).

(** An array literal or a spread copy: a new object. *)
Definition new_Array (items : list ChatMessage) : M Ref :=
  fun w =>
    (mkWorld (heap w ++ [items]) (emitted w) (requests w),
     Return (length (heap w))).

(** Reading an array; every reference the code holds is live, the default
    only makes the function total. *)
Definition Array_read (r : Ref) : M (list ChatMessage) :=
  fun w => (w, Return (default [] (heap w !! r))).

Definition Array_write (r : Ref) (items : list ChatMessage) : M unit :=
  fun w => (mkWorld (<[r := items]> (heap w)) (emitted w) (requests w),
            Return ()).

(** [a.push(...items)] *)
Definition Array_push (r : Ref) (items : list ChatMessage) : M unit :=
  old <- Array_read r ;; Array_write r (old ++ items).

(** [a.unshift(item)] *)
Definition Array_unshift (r : Ref) (item : ChatMessage) : M unit :=
  old <- Array_read r ;; Array_write r (item :: old).

Definition EventEmitter := unit.

(* ================================================================== *)
(** * [buildParametersArray]                                           *)
(* ================================================================== *)

(** The parameters object: own enumerable properties in insertion order,
    under the keys of [LLMParameters]. *)
Abbreviation Params := (list (ParamKey * JSValue)).

(** The [switch (paramDef.type)] choosing the conversion. *)
Definition encode (type : string) (value : JSValue) : WireValue :=
  if bool_decide (type = "double" \/ type = "int") then Number value
  else if bool_decide (type = "bool") then Boolean value
  else if bool_decide (type = "json") then Stringify value
  else String_of value.

(** [!modelProfile || modelProfile.params.has(f)], whose negation is
    [modelProfile && !modelProfile.params.has(f)]. A truthy [modelProfile]
    without [params] (a member of [Object.prototype]) makes [.has] a read
    on [undefined]. *)
Definition permits (modelProfile : Lookup ModelProfile) (f : string) : M bool :=
  match modelProfile with
  | missing => ret true
  | own p => ret (Set_has (params p) f)
  | inherited =>
      throw (TypeError "Cannot read properties of undefined (reading 'has')")
  end.

(** [tools.map(({ execute, ...rest }) => rest)] *)
Definition serializable (t : ToolDefinition) : ToolSchema :=
  mkToolSchema (tool_name t) (tool_description t) (tool_parameters t).

Definition warning_for (key : ParamKey) (profile : string) : Emitted :=
  parameter_warning (key_name key) profile
    ("Parameter '" +:+ key_name key
     +:+ "' is not supported by model profile '" +:+ profile
     +:+ "' and will be ignored.").

(** [for (const [key, value] of Object.entries(params)) { ... }]. The
    parameters object only has keys of [LLMParameters] (the builder records
    nothing else), so [paramDef] is always defined and
    [if (!paramDef) continue] never fires. *)
Fixpoint buildParametersArray_loop (entries : Params)
    (modelProfile : Lookup ModelProfile) (profile : string)
    (eventEmitter : option EventEmitter) (data : list DataEntry)
  : M (list DataEntry) :=
  match entries with
  | [] => ret data
  | (key, value) :: rest =>
      let paramDef := LLMParameters key in
      supported <- permits modelProfile (fqdn paramDef) ;;
      if negb supported then
        match eventEmitter with
        | Some _ => emit (warning_for key profile)
        | None => ret ()
        end ;;;
        buildParametersArray_loop rest modelProfile profile eventEmitter data
      else
        buildParametersArray_loop rest modelProfile profile eventEmitter
          (data ++ [ data_def (type paramDef) (fqdn paramDef);
                     data_value (type paramDef)
                       (encode (type paramDef) value) ])
  end.

(** The same text in v2.11.0 (fourth parameter [client]) and v2.14.0
    (fourth parameter [eventEmitter]). [None] is [null]. *)
Definition buildParametersArray (params : Params) (tools : list ToolDefinition)
    (profile : string) (eventEmitter : option EventEmitter)
  : M (option (list DataEntry)) :=
  let data := [] in
  let modelProfile := property_read modelProfiles profile in
  data <-
    (if (0 <? length tools)%nat then
       supported <- permits modelProfile (fqdn (LLMParameters TOOLS)) ;;
       if supported then
         ret (data ++ [ data_def (type (LLMParameters TOOLS))
                                 (fqdn (LLMParameters TOOLS));
                        data_value "json"
                          (Stringify_tools (serializable <$> tools)) ])
       else ret data
     else ret data) ;;
  data <- buildParametersArray_loop params modelProfile profile eventEmitter
            data ;;
  ret (if (0 <? length data)%nat then Some data else None).

(* ================================================================== *)
(** * [ParameterBuilder] (v2.14.0)                                     *)
(* ================================================================== *)

(** [this.#params.KEY = v]: an existing property keeps its position. *)
Fixpoint assign (k : ParamKey) (v : JSValue) (o : Params) : Params :=
  match o with
  | [] => [(k, v)]
  | (k', v') :: o' =>
      if bool_decide (k = k') then (k, v) :: o' else (k', v') :: assign k v o'
  end.

(** A default parameter value ([isEnabled = true]) replaces [undefined]. *)
Definition default_arg (v d : JSValue) : JSValue :=
  match v with
  | JUndefined => d
  | _ => v
  end.

Module ParameterBuilder.
Definition temperature := assign TEMPERATURE.
Definition topP := assign TOP_P.
Definition topK := assign TOP_K.
(* [length] in the source *)
Definition length_ := assign LENGTH.
Definition stopToken := assign STOP_TOKEN.
Definition seed := assign SEED.
Definition asJson (_ : JSValue) :=
  assign RESPONSE_FORMAT (JObject [("type", JString "json")]).
Definition toolChoiceAuto (isEnabled : JSValue) :=
  assign TOOL_CHOICE_AUTO (default_arg isEnabled (JBool true)).
Definition toolChoiceRequired (isEnabled : JSValue) :=
  assign TOOL_CHOICE_REQUIRED (default_arg isEnabled (JBool true)).
Definition toolChoiceNone (isEnabled : JSValue) :=
  assign TOOL_CHOICE_NONE (default_arg isEnabled (JBool true)).
Definition toolChoiceNamed (toolName : JSValue) :=
  assign TOOL_CHOICE_NAMED
    (JObject [("type", JString "function");
              ("function", JObject [("name", toolName)])]).
Definition parallelToolCalls (isEnabled : JSValue) :=
  assign PARALLEL_TOOL_CALLS (default_arg isEnabled (JBool true)).
Definition reasoningEffort := assign REASONING_EFFORT.
Definition predictedOutput := assign PREDICTED_OUTPUT.
Definition cachePoints := assign CACHE_POINTS.
Definition thinkingBudget := assign THINKING_BUDGET.
Definition numberOfChoices := assign NUMBER_OF_CHOICES.
Definition verbosity := assign VERBOSITY.
Definition _build (this : Params) : Params := this.

(** [builder[methodName]] when it is a function: the setters above, by
    name (each returns the builder). *)
Definition methods : list (string * (JSValue -> Params -> Params)) :=
  [ ("temperature", temperature); ("topP", topP); ("topK", topK);
    ("length", length_); ("stopToken", stopToken); ("seed", seed);
    ("asJson", asJson); ("toolChoiceAuto", toolChoiceAuto);
    ("toolChoiceRequired", toolChoiceRequired);
    ("toolChoiceNone", toolChoiceNone);
    ("toolChoiceNamed", toolChoiceNamed);
    ("parallelToolCalls", parallelToolCalls);
    ("reasoningEffort", reasoningEffort);
    ("predictedOutput", predictedOutput); ("cachePoints", cachePoints);
    ("thinkingBudget", thinkingBudget);
    ("numberOfChoices", numberOfChoices); ("verbosity", verbosity) ].

Definition method (name : string) : option (JSValue -> Params -> Params) :=
  (fun m => m.2.2) <$> list_find (fun m => bool_decide (m.1 = name)) methods.
End ParameterBuilder.

(* ================================================================== *)
(** * [executeTools]                                                   *)
(* ================================================================== *)

Section ExecuteTools.
(** [JSON.parse] on the argument text of a call. *)
Variable JSON_parse_value : string -> Throws JSValue.

(** [new Map(toolLibrary.map(t => [t.name, t])).get(name)]: of two tools
    with one name the later one is kept. A [null] name finds nothing. *)
Definition toolMap_get (toolLibrary : list ToolDefinition)
    (name : option string) : option ToolDefinition :=
  match name with
  | None => None
  | Some n =>
      last (filter (fun t => tool_name t = n) toolLibrary)
  end.

Definition failure (name : option string) (error : string)
  : ToolExecutionResult :=
  mkResult name false JUndefined (given error).

(** One call: tools run to completion inside [Promise.all]; a tool is a
    function of its arguments that returns or throws. *)
Definition execute_call (toolLibrary : list ToolDefinition) (call : ToolCall)
  : ToolExecutionResult :=
  match toolMap_get toolLibrary (tc_name call) with
  | None =>
      failure (tc_name call)
        ("Tool '" +:+ ToString_nullable (tc_name call) +:+ "' not found.")
  | Some tool =>
      let text :=
        if String.eqb (tc_arguments call) "" then "{}"
        else tc_arguments call in
      match JSON_parse_value text with
      | Throw e => failure (tc_name call) (message e)
      | Return args =>
          match tool_execute tool args with
          | Return result => mkResult (tc_name call) true result undefined
          | Throw e => failure (tc_name call) (message e)
          end
      end
  end.

Definition executeTools (toolCalls : list ToolCall)
    (toolLibrary : list ToolDefinition) : list ToolExecutionResult :=
  execute_call toolLibrary <$> toolCalls.
End ExecuteTools.

(* ================================================================== *)
(** * [ChatSession]                                                    *)
(* ================================================================== *)

(** The private fields of a session; [#systemMessage] starts as [null]. *)
Record ChatSession := mkSession {
  s_profile : string;
  s_tools : list ToolDefinition;
  s_parameters : Params;
  s_systemMessage : option string
}.

(** [constructor(httpClient, profile)] *)
Definition new_ChatSession (profile : string) : ChatSession :=
  mkSession profile [] [] None.

(** [string | ChatMessage[]] *)
Inductive Input :=
| Input_text (content : string)
| Input_array (messages : Ref).

(** [if (this.#systemMessage)] *)
Definition configured (systemMessage : option string) : option string :=
  match systemMessage with
  | Some s => if String.eqb s "" then None else Some s
  | None => None
  end.

(** [resultValue] of a per-call result, stringified into the tool message:
    [result.success ? result.result
     : { error: result.error || 'Unknown execution error' }] *)
Definition resultValue (result : ToolExecutionResult) : JSValue :=
  if res_success result then res_result result
  else JObject [("error",
         JString (if truthy (res_error result) then ToString (res_error result)
                  else "Unknown execution error"))].

(** The two messages a call and its result add to the history. *)
Definition round_trip_entries (call : ToolCall) (result : ToolExecutionResult)
  : list ChatMessage :=
  [ createAssistantToolCallMessage (tc_id call) (tc_name call)
      (tc_arguments call);
    createToolResultMessage (tc_id call) (tc_name call)
      (JSON_stringify (resultValue result)) ].

(** The consumer loop of [step] and of v2.11.0 [run]:
    [for await (const event of stream) { ... }], on the events yielded. *)
Definition collect (events : list StreamEvent) : string * list ToolCall :=
  fold_left
    (fun '(assistantResponse, toolCalls) event =>
       match event with
       | Ev_text content => (assistantResponse +:+ ToString content, toolCalls)
       | Ev_tool_calls calls => (assistantResponse, calls)
       | Ev_quota _ => (assistantResponse, toolCalls)
       end)
    events ("", []).

(** [JSON.stringify(requestBody)]: reads the message array as it is now. *)
Definition stringify_request (requestData : RequestData) : M RequestBody :=
  messages <- Array_read (rd_messages requestData) ;;
  ret (mkRequestBody (rd_profile requestData) (rd_prompt requestData)
         messages (rd_parameters requestData)).

(** The fixed string [run] (v2.14.0) returns when the loop ends. *)
Definition fallback_message : string :=
  "The model reached the maximum tool iteration limit and could not provide a final text response.".

(** ** Method names derived from parameter keys ([step], v2.14.0)

    [key.toLowerCase().replace(/_(\w)/g, (_, p1) => p1.toUpperCase())] *)

Definition toLowerCase_char (c : ascii) : ascii :=
  let n := nat_of_ascii c in
  if ((65 <=? n) && (n <=? 90) || (192 <=? n) && (n <=? 214)
      || (216 <=? n) && (n <=? 222))%nat%bool
  then ascii_of_nat (n + 32) else c.

Fixpoint toLowerCase (s : string) : string :=
  match s with
  | EmptyString => EmptyString
  | String c r => String (toLowerCase_char c) (toLowerCase r)
  end.

(** [\w] *)
Definition is_word_char (c : ascii) : bool :=
  let n := nat_of_ascii c in
  ((48 <=? n) && (n <=? 57) || (65 <=? n) && (n <=? 90)
   || (97 <=? n) && (n <=? 122) || (n =? 95))%nat%bool.

(** [p1.toUpperCase()] on a word character *)
Definition toUpperCase_word_char (c : ascii) : ascii :=
  let n := nat_of_ascii c in
  if ((97 <=? n) && (n <=? 122))%nat%bool then ascii_of_nat (n - 32) else c.

Fixpoint replace_underscore_word (s : string) : string :=
  match s with
  | EmptyString => EmptyString
  | String c r =>
      match r with
      | String p1 r' =>
          if (Ascii.eqb c "_" && is_word_char p1)%bool
          then String (toUpperCase_word_char p1) (replace_underscore_word r')
          else String c (replace_underscore_word r)
      | EmptyString => String c EmptyString
      end
  end.

Definition methodName (key : ParamKey) : string :=
  replace_underscore_word (toLowerCase (key_name key)).

(** ** v2.14.0: [SSEParser.parseLine] and [class ChatSession] *)

Module V2_14.
Section Session.
(** [JSON.parse] on the payload of a data line. *)
Variable JSON_parse : string -> Decoded.
Variable JSON_parse_value : string -> Throws JSValue.
(** [_fetchWithRetry(path, { method: 'POST', body })], given the requests
  already sent: the chunks of the decoded response body, or an error. *)
Variable fetchWithRetry :
list RequestBody -> string -> RequestBody -> Throws (list string).
(** [Date.now()] *)
Variable Date_now : World -> Z.

(** [SSEParser.parseLine]: a failure inside the [try] is rethrown as an
  [SSEError]. *)
Definition parseLine (this : SSEParser) (line : string)
: Throws (SSEParser * option StreamEvent) :=
if negb (startsWith line "data: ") then Return (this, None)
else
  let dataContent := substring_from 6 line in
  if String.eqb (trim dataContent) "end" then Return (this, None)
  else
    match parseLine_try this (JSON_parse dataContent) with
    | Return r => Return r
    | Throw e =>
        Throw (SSEError ("Failed to parse SSE data chunk: " +:+ message e))
    end.

Definition send (path : string) (body : RequestBody) : M (list string) :=
fun w =>
  (mkWorld (heap w) (emitted w) (requests w ++ [body]),
   fetchWithRetry (requests w) path body).

Definition withTools (this : ChatSession) (tools : list ToolDefinition) :=
mkSession (s_profile this) tools (s_parameters this) (s_systemMessage this).

Definition withSystemMessage (this : ChatSession) (content : option string) :=
mkSession (s_profile this) (s_tools this) (s_parameters this) content.

(** [builderFn(new ParameterBuilder())._build()] *)
Definition withParameters (this : ChatSession)
  (builderFn : Params -> Params) :=
mkSession (s_profile this) (s_tools this)
  (ParameterBuilder._build (builderFn [])) (s_systemMessage this).

Definition buildRequestBody (this : ChatSession) (messages : Ref)
: M RequestData :=
original <- Array_read messages ;;
allMessages <- new_Array original ;;
match configured (s_systemMessage this) with
| Some systemMessage =>
    if negb (existsb is_system_message original)
    then Array_unshift allMessages (createSystemMessage systemMessage)
    else ret ()
| None => ret ()
end ;;;
now <- (fun w => (w, Return (Date_now w))) ;;
let requestData :=
  mkRequestData (s_profile this) ("js-sdk-prompt-" +:+ pretty now)
    allMessages None in
parametersData <-
  buildParametersArray (s_parameters this) (s_tools this)
    (s_profile this) (Some ()) ;;
ret (mkRequestData (rd_profile requestData) (rd_prompt requestData)
       (rd_messages requestData) parametersData).

(** The generator run to its end: the events it yields and its completion.
  An exception before the first event leaves no events. *)
Definition stream (this : ChatSession) (initialInput : Input)
: M (list StreamEvent * Throws unit) :=
messages <-
  match initialInput with
  | Input_array messages => ret messages
  | Input_text content => new_Array [createUserMessage content]
  end ;;
requestBody <- buildRequestBody this messages ;;
body <- stringify_request requestBody ;;
chunks <- send "/llm/chat/stream/v8" body ;;
ret (read_stream parseLine chunks).

(** The session [step] streams with under [forceTextResponse]. *)
Definition forced_session (this : ChatSession) : ChatSession :=
withParameters
  (withSystemMessage (withTools (new_ChatSession (s_profile this))
                        (s_tools this))
     (s_systemMessage this))
  (fun builder =>
     let builder :=
       fold_left
         (fun builder '(key, value) =>
            match ParameterBuilder.method (methodName key) with
            | Some method => method value builder
            | None => builder
            end)
         (s_parameters this) builder in
     ParameterBuilder.toolChoiceNone (JBool true) builder).

(** [{ type: 'text_response', content, messages }] *)
Record AgentTextResponse := mkTextResponse {
response_content : string;
response_messages : Ref
}.

(** The generator suspended at its [yield]: the locals it resumes with. *)
Record Suspended := mkSuspended {
sus_toolCalls : list ToolCall;
sus_assistantResponse : string;
sus_finalMessages : Ref
}.

(** The result of the first [next()]: [{ done: false, value: { type:
  'tool_request', calls } }] or [{ done: true, value }]. *)
Inductive StepResult :=
| tool_request (calls : list ToolCall) (suspended : Suspended)
| done (value : AgentTextResponse).

(** [step(messages, options)] up to its [yield] or its [return]. *)
Definition step (this : ChatSession) (messages : Ref)
  (forceTextResponse : bool) : M StepResult :=
let sessionForStream :=
  if forceTextResponse then forced_session this else this in
original <- Array_read messages ;;
finalMessages <- new_Array original ;;
yielded <- stream sessionForStream (Input_array messages) ;;
let '(events, completion) := yielded in
let '(assistantResponse, toolCalls) := collect events in
match completion with
| Throw e => throw e
| Return _ =>
    if (0 <? length toolCalls)%nat then
      emit (tool_start toolCalls) ;;;
      ret (tool_request toolCalls
             (mkSuspended toolCalls assistantResponse finalMessages))
    else
      Array_push finalMessages
        [createAssistantTextMessage assistantResponse] ;;;
      ret (done (mkTextResponse assistantResponse finalMessages))
end.

(** [toolExecutionResults.forEach((result, index) => { ... })] *)
Fixpoint forEach_result (finalMessages : Ref) (toolCalls : list ToolCall)
  (results : list ToolExecutionResult) (index : nat) : M unit :=
match results with
| [] => ret ()
| result :: rest =>
    match toolCalls !! index with
    | None =>
        throw (TypeError
                 "Cannot read properties of undefined (reading 'id')")
    | Some call =>
        Array_push finalMessages
          [createAssistantToolCallMessage (tc_id call) (tc_name call)
             (tc_arguments call)] ;;;
        Array_push finalMessages
          [createToolResultMessage (tc_id call) (tc_name call)
             (JSON_stringify (resultValue result))] ;;;
        forEach_result finalMessages toolCalls rest (S index)
    end
end.

(** [next(toolExecutionResults)] on the suspended generator. *)
Definition step_resume (suspended : Suspended)
  (toolExecutionResults : list ToolExecutionResult)
: M AgentTextResponse :=
emit (tool_finish toolExecutionResults) ;;;
forEach_result (sus_finalMessages suspended) (sus_toolCalls suspended)
  toolExecutionResults 0 ;;;
ret (mkTextResponse (sus_assistantResponse suspended)
       (sus_finalMessages suspended)).

Definition iteration_warning (maxIterations : nat) : Emitted :=
tool_warning
  ("Maximum tool iteration limit (" +:+ pretty maxIterations
   +:+ ") reached. Forcing model to generate final text response.").

(** [for (let i = 0; i < maxIterations; i++) { ... }] followed by the final
  [return]; [remaining] is [maxIterations - i]. *)
Fixpoint run_loop (this : ChatSession) (maxIterations : nat)
  (remaining : nat) (i : nat) (messages : Ref) : M string :=
match remaining with
| O => ret fallback_message
| S remaining' =>
    let isLastIteration := Z.eqb (Z.of_nat i) (Z.of_nat maxIterations - 1) in
    (if isLastIteration then emit (iteration_warning maxIterations)
     else ret ()) ;;;
    currentStep <- step this messages isLastIteration ;;
    match currentStep with
    | done value => ret (response_content value)
    | tool_request calls suspended =>
        let toolResults :=
          executeTools JSON_parse_value calls (s_tools this) in
        value <- step_resume suspended toolResults ;;
        let messages := response_messages value in
        if negb (String.eqb (response_content value) "")
        then ret (response_content value)
        else run_loop this maxIterations remaining' (S i) messages
    end
end.

(** [run(initialInput, options)]; [maxIterations] defaults to 5. *)
Definition run (this : ChatSession) (initialInput : Input)
  (options : option nat) : M string :=
let maxIterations := default 5%nat options in
messages <-
  match initialInput with
  | Input_array initialInput =>
      items <- Array_read initialInput ;; new_Array items
  | Input_text content => new_Array [createUserMessage content]
  end ;;
run_loop this maxIterations maxIterations 0 messages.
End Session.
End V2_14.

(** ** v2.11.0: [SSEParser.parseLine] and [class ChatSession] *)

Module V2_11.
Section Session.
Variable JSON_parse : string -> Decoded.
Variable JSON_parse_value : string -> Throws JSValue.
Variable fetchWithRetry :
list RequestBody -> string -> RequestBody -> Throws (list string).
Variable Date_now : World -> Z.

(** [SSEParser.parseLine]: a failure inside the [try] is swallowed,
  [catch (e) { return null; }]. *)
Definition parseLine (this : SSEParser) (line : string)
: Throws (SSEParser * option StreamEvent) :=
if negb (startsWith line "data: ") then Return (this, None)
else
  let dataContent := substring_from 6 line in
  if String.eqb (trim dataContent) "end" then Return (this, None)
  else
    match parseLine_try this (JSON_parse dataContent) with
    | Return r => Return r
    | Throw e => Return (this, None)
    end.

Definition send (path : string) (body : RequestBody) : M (list string) :=
fun w =>
  (mkWorld (heap w) (emitted w) (requests w ++ [body]),
   fetchWithRetry (requests w) path body).

(** [#maxToolIterations = 5] *)
Definition maxToolIterations : nat := 5.

(** [#buildRequestBody(messages, { isFirstTurn = true } = {})] *)
Definition buildRequestBody (this : ChatSession) (messages : Ref)
  (isFirstTurn : bool) : M RequestData :=
original <- Array_read messages ;;
allMessages <- new_Array original ;;
match configured (s_systemMessage this) with
| Some systemMessage =>
    if negb (existsb is_system_message original)
    then Array_unshift allMessages (createSystemMessage systemMessage)
    else ret ()
| None => ret ()
end ;;;
now <- (fun w => (w, Return (Date_now w))) ;;
let requestData :=
  mkRequestData (s_profile this) ("js-sdk-prompt-" +:+ pretty now)
    allMessages None in
let paramsForThisTurn := if isFirstTurn then s_parameters this else [] in
parametersData <-
  buildParametersArray paramsForThisTurn (s_tools this)
    (s_profile this) (Some ()) ;;
ret (mkRequestData (rd_profile requestData) (rd_prompt requestData)
       (rd_messages requestData) parametersData).

(** [stream(initialInput, _internalOptions = {})] *)
Definition stream (this : ChatSession) (initialInput : Input)
  (isFirstTurn : bool) : M (list StreamEvent * Throws unit) :=
messages <-
  match initialInput with
  | Input_array messages => ret messages
  | Input_text content => new_Array [createUserMessage content]
  end ;;
requestBody <- buildRequestBody this messages isFirstTurn ;;
body <- stringify_request requestBody ;;
chunks <- send "/llm/chat/stream/v8" body ;;
ret (read_stream parseLine chunks).

(** [toolResults.forEach((result, index) => { ... push, push })] on the
  local [toolMessagesPayload]. *)
Fixpoint toolMessagesPayload (toolCalls : list ToolCall)
  (results : list ToolExecutionResult) (index : nat)
: Throws (list ChatMessage) :=
match results with
| [] => Return []
| result :: rest =>
    match toolCalls !! index with
    | None =>
        Throw (TypeError
                 "Cannot read properties of undefined (reading 'id')")
    | Some call =>
        match toolMessagesPayload toolCalls rest (S index) with
        | Return payload => Return (round_trip_entries call result ++ payload)
        | Throw e => Throw e
        end
    end
end.

(** [for (let i = 0; i < this.#maxToolIterations; i++) { ... }] followed by
  the final [throw]; [remaining] is [maxToolIterations - i]. *)
Fixpoint run_loop (this : ChatSession) (remaining : nat) (i : nat)
  (messages : Ref) : M string :=
match remaining with
| O =>
    throw (Error ("Exceeded maximum tool iteration limit of "
                  +:+ pretty maxToolIterations +:+ "."))
| S remaining' =>
    let isFirstTurn := Nat.eqb i 0 in
    yielded <- stream this (Input_array messages) isFirstTurn ;;
    let '(events, completion) := yielded in
    let '(assistantResponse, toolCalls) := collect events in
    match completion with
    | Throw e => throw e
    | Return _ =>
        if (0 <? length toolCalls)%nat then
          emit (tool_start toolCalls) ;;;
          let toolResults :=
            executeTools JSON_parse_value toolCalls (s_tools this) in
          emit (tool_finish toolResults) ;;;
          match toolMessagesPayload toolCalls toolResults 0 with
          | Throw e => throw e
          | Return payload =>
              Array_push messages payload ;;;
              run_loop this remaining' (S i) messages
          end
        else ret assistantResponse
    end
end.

(** [run(initialInput)]: an array given as input is used as it is. *)
Definition run (this : ChatSession) (initialInput : Input) : M string :=
messages <-
  match initialInput with
  | Input_array initialInput => ret initialInput
  | Input_text content => new_Array [createUserMessage content]
  end ;;
run_loop this maxToolIterations 0 messages.
End Session.
End V2_11.

(* ================================================================== *)
(** * Notions used to state the properties                             *)
(* ================================================================== *)

(** ** Streams of records *)

(** The parser after a sequence of decoded records. *)
Definition feed (p : SSEParser) (rs : list WireRecord) : SSEParser :=
  fold_left (fun p r => (parseLine_switch p r).1) rs p.

(** A finish signal whose reason flushes the accumulator. *)
Definition is_flush (r : WireRecord) : bool :=
  match r with
  | FinishMetadata reason => includes flush_reasons reason
  | _ => false
  end.

(** The parallel index a fragment is filed under. *)
Definition fragment_index (r : WireRecord) : option Z :=
  match r with
  | ToolCallFragment i _ _ _ => Some (nullish_or i 0)
  | _ => None
  end.

(** The fragments of a stream for one index, in arrival order. *)
Definition fragments_of (idx : Z) (rs : list WireRecord) : list WireRecord :=
  filter (fun r => fragment_index r = Some idx) rs.

Definition fragment_id (r : WireRecord) : Field string :=
  match r with ToolCallFragment _ id _ _ => id | _ => undefined end.
Definition fragment_name (r : WireRecord) : Field string :=
  match r with ToolCallFragment _ _ name _ => name | _ => undefined end.
Definition fragment_content (r : WireRecord) : Field string :=
  match r with ToolCallFragment _ _ _ content => content | _ => undefined end.

(** The text a property carries: nothing when absent, [null] or empty. *)
Definition carried (f : Field string) : option string :=
  match f with
  | given s => if String.eqb s "" then None else Some s
  | _ => None
  end.

Definition first_carried (fs : list (Field string)) : option string :=
  head (omap carried fs).

Definition last_carried (fs : list (Field string)) : option string :=
  last (omap carried fs).

(** The argument text of a fragment ([''] when it has none). *)
Definition argument_text (r : WireRecord) : string :=
  default "" (carried (fragment_content r)).

(** Concatenation in list order. *)
Definition concatenation (texts : list string) : string :=
  foldr String.append "" texts.

(** The call a run of fragments for one index reassembles to. *)
Definition merged_call (frs : list WireRecord) : ToolCall :=
  mkToolCall (last_carried (fragment_id <$> frs))
             (last_carried (fragment_name <$> frs))
             (concatenation (argument_text <$> frs)).

(** The batches of a stream: the records between two flushing finish
    signals. [batches rs current] returns the batches closed by a flush
    in [rs] and the records after the last one, [current] being those
    already read since the preceding flush. *)
Fixpoint batches (rs : list WireRecord) (current : list WireRecord)
  : list (list WireRecord) * list WireRecord :=
  match rs with
  | [] => ([], current)
  | r :: rest =>
      if is_flush r then
        let '(bs, pending) := batches rest [] in (current :: bs, pending)
      else batches rest (current ++ [r])
  end.

Definition flushed_batches (rs : list WireRecord) : list (list WireRecord) :=
  (batches rs []).1.

(** The indices a batch has fragments for. *)
Definition batch_indices (batch : list WireRecord) : list Z :=
  omap fragment_index batch.

(** What one fragment does to the call it is merged into. *)
Definition merge_fragment (c : ToolCall) (r : WireRecord) : ToolCall :=
  mkToolCall (assign_if_truthy (fragment_id r) (tc_id c))
             (assign_if_truthy (fragment_name r) (tc_name c))
             (append_if_truthy (fragment_content r) (tc_arguments c)).

(** The entry of an index after a run of fragments for it. *)
Definition accumulate (o : option ToolCall) (frs : list WireRecord)
  : option ToolCall :=
  fold_left (fun o r => Some (merge_fragment (default empty_call o) r)) frs o.

(** The indices of a batch in ascending order, each once. *)
Definition ascending_indices (batch : list WireRecord) : list Z :=
  merge_sort Z.le (remove_dups (batch_indices batch)).

(** The calls a batch finalizes to: one per index, by ascending index,
    each the merge of the fragments of its index. *)
Definition batch_entries (batch : list WireRecord) : list (Z * ToolCall) :=
  (fun idx => (idx, merged_call (fragments_of idx batch)))
    <$> ascending_indices batch.

Definition batch_calls (batch : list WireRecord) : list ToolCall :=
  (batch_entries batch).*2.

(** Events [parseLine] can return: all but the aggregate one. *)
Definition not_tool_calls (e : StreamEvent) : Prop :=
  match e with
  | Ev_tool_calls _ => False
  | _ => True
  end.

(** ** Lines of a stream *)

Section Lines.
Variable JSON_parse : string -> Decoded.

(** The record a line hands to the [switch], if it gets there. *)
Definition line_record (line : string) : option WireRecord :=
  if String.eqb (trim line) "" then None
  else if negb (startsWith line "data: ") then None
  else if String.eqb (trim (substring_from 6 line)) "end" then None
  else match JSON_parse (substring_from 6 line) with
       | Parsed parsed => Some parsed
       | _ => None
       end.

(** The lines [stream] passes its buffer through, chunk by chunk, and
    the buffer left at the end. *)
Fixpoint stream_lines (buffer : string) (chunks : list string)
  : list string * string :=
  match chunks with
  | [] => ([], buffer)
  | chunk :: rest =>
      let '(lines, buffer') := split_lines (buffer +:+ chunk) in
      let '(lines', last) := stream_lines buffer' rest in
      (lines ++ lines', last)
  end.

(** The records of a whole response body. *)
Definition stream_records (chunks : list string) : list WireRecord :=
  let '(lines, last) := stream_lines "" chunks in
  omap line_record (lines ++ [last]).
End Lines.

(** ** Request parameters *)

(** The profile accepts the wire key of a parameter. *)
Definition supported (mp : ModelProfile) (key : ParamKey) : bool :=
  Set_has (params mp) (fqdn (LLMParameters key)).

(** The two wire entries of a requested parameter. *)
Definition wire_entries (entry : ParamKey * JSValue) : list DataEntry :=
  let paramDef := LLMParameters entry.1 in
  [ data_def (type paramDef) (fqdn paramDef);
    data_value (type paramDef) (encode (type paramDef) entry.2) ].

(** The two wire entries of the tools parameter. *)
Definition tools_entries (tools : list ToolDefinition) : list DataEntry :=
  [ data_def "json" "llm.parameters.tools";
    data_value "json" (Stringify_tools (serializable <$> tools)) ].

(** A capability warning that names a parameter and a profile. *)
Definition names_parameter (key : ParamKey) (profile : string) (e : Emitted)
  : bool :=
  match e with
  | parameter_warning parameter profile' _ =>
      bool_decide (parameter = key_name key /\ profile' = profile)
  | _ => false
  end.

(** A world that differs from [w] by the events emitted since. *)
Definition emitting (w : World) (events : list Emitted) : World :=
  mkWorld (heap w) (emitted w ++ events) (requests w).

(** ** Histories *)

(** The message list of a request for a history. *)
Definition request_messages (systemMessage : option string)
    (history : list ChatMessage) : list ChatMessage :=
  match configured systemMessage with
  | Some s =>
      if existsb is_system_message history then history
      else system_message s :: history
  | None => history
  end.

(** The world once the assembler has allocated and filled its copy of
    the history, before the parameters are looked at. *)
Definition assembled (this : ChatSession) (messages : Ref) (w : World)
  : World :=
  mkWorld
    (heap w ++ [request_messages (s_systemMessage this)
                  (default [] (heap w !! messages))])
    (emitted w) (requests w).

(** The payload of a failed per-call result. *)
Definition failure_payload (result : ToolExecutionResult) : JSValue :=
  JObject [("error",
    JString (default "Unknown execution error" (carried (res_error result))))].

(** The two history entries of a tool call and its result: the assistant's
    tool call, then the tool result. *)
Definition call_and_result (cr : ToolCall * ToolExecutionResult)
  : list ChatMessage :=
  let '(call, result) := cr in
  [ assistant_message_tool (tc_id call) (tc_name call) (tc_arguments call);
    tool_message (tc_id call) (tc_name call)
      (JSON_stringify (if res_success result then res_result result
                       else failure_payload result)) ].

(** ** A sample platform, for the examples

    [JSON.parse] at the payloads the examples use; at any other text the
    sample reports a syntax error, which is what [JSON.parse] does on the
    two malformed payloads used ([{] and [end]). *)

Definition quoted (s : string) : string :=
  String (ascii_of_nat 34) (s +:+ String (ascii_of_nat 34) "").

(** [{"type":"ToolCall","content":"{"}] *)
Definition payload_open_brace : string :=
  "{" +:+ quoted "type" +:+ ":" +:+ quoted "ToolCall" +:+ ","
  +:+ quoted "content" +:+ ":" +:+ quoted "{" +:+ "}".

(** [{"type":"ToolCall","id":"c1","name":"get_weather","content":"{}"}] *)
Definition payload_get_weather : string :=
  "{" +:+ quoted "type" +:+ ":" +:+ quoted "ToolCall" +:+ ","
  +:+ quoted "id" +:+ ":" +:+ quoted "c1" +:+ ","
  +:+ quoted "name" +:+ ":" +:+ quoted "get_weather" +:+ ","
  +:+ quoted "content" +:+ ":" +:+ quoted "{}" +:+ "}".

(** [{"type":"FinishMetadata","reason":"tool_calls"}] *)
Definition payload_finish_tool_calls : string :=
  "{" +:+ quoted "type" +:+ ":" +:+ quoted "FinishMetadata" +:+ ","
  +:+ quoted "reason" +:+ ":" +:+ quoted "tool_calls" +:+ "}".

(** [{"type":"FinishMetadata","reason":"stop"}] *)
Definition payload_finish_stop : string :=
  "{" +:+ quoted "type" +:+ ":" +:+ quoted "FinishMetadata" +:+ ","
  +:+ quoted "reason" +:+ ":" +:+ quoted "stop" +:+ "}".

(** [{"type":"Content","content":"4"}] *)
Definition payload_content_4 : string :=
  "{" +:+ quoted "type" +:+ ":" +:+ quoted "Content" +:+ ","
  +:+ quoted "content" +:+ ":" +:+ quoted "4" +:+ "}".

Definition sample_JSON_parse (text : string) : Decoded :=
  if bool_decide (text = payload_open_brace) then
    Parsed (ToolCallFragment undefined undefined undefined (given "{"))
  else if bool_decide (text = payload_get_weather) then
    Parsed (ToolCallFragment undefined (given "c1") (given "get_weather")
              (given "{}"))
  else if bool_decide (text = payload_finish_tool_calls) then
    Parsed (FinishMetadata (given "tool_calls"))
  else if bool_decide (text = payload_finish_stop) then
    Parsed (FinishMetadata (given "stop"))
  else if bool_decide (text = payload_content_4) then
    Parsed (Content (given "4"))
  else if bool_decide (text = "null") then ParsedNull
  else NotJSON "Unexpected token".

(** A data line: the marker, the payload, a line feed. *)
Definition data_line (payload : string) : string :=
  "data: " +:+ payload +:+ String LF "".

(** The sample transport: every request is answered by a stream that
    asks for one tool call and says nothing. *)
Definition sample_fetch (sent : list RequestBody) (path : string)
    (body : RequestBody) : Throws (list string) :=
  Return [ data_line payload_get_weather
           +:+ data_line payload_finish_tool_calls ].

(** A transport whose model answers [4] and stops. *)
Definition sample_fetch_4 (sent : list RequestBody) (path : string)
    (body : RequestBody) : Throws (list string) :=
  Return [ data_line payload_content_4; data_line payload_finish_stop ].

(** [JSON.parse] on argument texts, for the examples: the text [{}]. *)
Definition sample_JSON_parse_value (text : string) : Throws JSValue :=
  if bool_decide (text = "{}") then Return (JObject [])
  else Throw (SyntaxError "Unexpected token").

Definition sample_Date_now (w : World) : Z := 0.

(** ** Turns *)

(** A transport under which the model never finalizes: whatever is sent,
    the response streams to its end with at least one tool call (and, when
    [without_text], with no text). *)
Definition always_asks_for_tools
    (parseLine : SSEParser -> string -> Throws (SSEParser * option StreamEvent))
    (fetchWithRetry :
       list RequestBody -> string -> RequestBody -> Throws (list string))
    (without_text : bool) : Prop :=
  forall sent path body,
    exists chunks events text calls,
      fetchWithRetry sent path body = Return chunks
      /\ read_stream parseLine chunks = (events, Return ())
      /\ collect events = (text, calls)
      /\ calls ≠ []
      /\ (without_text = true -> text = "").

(* ================================================================== *)
(** * More of the library                                              *)
(* ================================================================== *)

(** ** The lines of a response *)

(** [text.split(LF)]: the lines the read loop sees, the last one being
    what stays in the buffer. *)
Definition lines_of (text : string) : list string :=
  let '(lines, last) := split_lines text in lines ++ [last].

(** ** Records and the events they give *)

(** The event [parseLine] returns for a record ([None] for [null]). *)
Definition record_event (r : WireRecord) : option StreamEvent :=
  match r with
  | Content content => Some (Ev_text content)
  | QuotaMetadata parsed => Some (Ev_quota parsed)
  | _ => None
  end.

(** What a [Content] record adds to the response text of a turn. *)
Definition record_text (r : WireRecord) : option string :=
  match r with
  | Content content => Some (ToString content)
  | _ => None
  end.

Section LineErrors.
Variable JSON_parse : string -> Decoded.

(** The message of the failure inside the [try] of [parseLine], for a line
    that gets there and fails. *)
Definition line_error (line : string) : option string :=
  if String.eqb (trim line) "" then None
  else if negb (startsWith line "data: ") then None
  else if String.eqb (trim (substring_from 6 line)) "end" then None
  else match JSON_parse (substring_from 6 line) with
       | Parsed _ => None
       | ParsedNull => Some "Cannot read properties of null (reading 'type')"
       | NotJSON m => Some m
       end.

(** The lines before the first failing one, and its failure. *)
Fixpoint until_error (lines : list string) : list string * option string :=
  match lines with
  | [] => ([], None)
  | line :: rest =>
      match line_error line with
      | Some m => ([], Some m)
      | None => let '(before, failure) := until_error rest in
                (line :: before, failure)
      end
  end.
End LineErrors.

(** The aggregate event closing a stream. *)
Definition closing_event (calls : list ToolCall) : list StreamEvent :=
  if (0 <? length calls)%nat then [Ev_tool_calls calls] else [].

(** ** The parameters a profile supports *)

(** [Object.entries(LLMParameters)]: the keys in declaration order. *)
Definition LLMParameters_keys : list ParamKey :=
  [ TEMPERATURE; TOP_P; TOP_K; LENGTH; STOP_TOKEN; SEED; RESPONSE_FORMAT;
    TOOLS; TOOL_CHOICE_AUTO; TOOL_CHOICE_REQUIRED; TOOL_CHOICE_NONE;
    TOOL_CHOICE_NAMED; PARALLEL_TOOL_CALLS; REASONING_EFFORT;
    PREDICTED_OUTPUT; CACHE_POINTS; THINKING_BUDGET; NUMBER_OF_CHOICES;
    VERBOSITY ].

(** [{ name, type: def.type, fqdn: def.fqdn }] *)
Record SupportedParameter := mkSupported {
  sp_name : string;
  sp_type : string;
  sp_fqdn : string
}.

(** [ChatSession.getSupportedParameters()] (v2.11.0). [modelProfile?.params]
    is [undefined] when the profile is unknown, and also when its name is
    that of a member of [Object.prototype]. *)
Definition getSupportedParameters (this : ChatSession)
  : list SupportedParameter :=
  match property_read modelProfiles (s_profile this) with
  | own modelProfile =>
      (fun name =>
         mkSupported (key_name name) (type (LLMParameters name))
           (fqdn (LLMParameters name)))
        <$> filter (fun name =>
                      Set_has (params modelProfile)
                        (fqdn (LLMParameters name)) = true)
              LLMParameters_keys
  | inherited => []
  | missing => []
  end.

(** An entry of the payload other than the tools parameter and its value. *)
Definition names_tools_only (e : DataEntry) : Prop :=
  match e with
  | data_def _ f => f = "llm.parameters.tools"
  | data_value _ (Stringify_tools _) => True
  | data_value _ _ => False
  end.

(** ** What a run leaves of the world *)

(** No array of [w] is changed in [w']. *)
Definition arrays_kept (w w' : World) : Prop :=
  forall ref items, heap w !! ref = Some items -> heap w' !! ref = Some items.

(** The requests sent between [w] and [w']. *)
Definition sends (w w' : World) (sent : list RequestBody) : Prop :=
  requests w' = requests w ++ sent.

(** ** The forced-text session *)

(** What the forced-text session makes of an entry of the original
    parameters: the value the setter named after the key records, when
    the builder has a method of that name. *)
Definition forced_entry (entry : ParamKey * JSValue)
  : option (ParamKey * JSValue) :=
  let '(key, value) := entry in
  match key with
  | RESPONSE_FORMAT | TOOLS => None
  | TOOL_CHOICE_NAMED =>
      Some (key, JObject [("type", JString "function");
                          ("function", JObject [("name", value)])])
  | TOOL_CHOICE_AUTO | TOOL_CHOICE_REQUIRED | TOOL_CHOICE_NONE
  | PARALLEL_TOOL_CALLS => Some (key, default_arg value (JBool true))
  | _ => Some (key, value)
  end.

(* ================================================================== *)
(** * The Task API (v2.14.0)                                           *)
(* ================================================================== *)

Module Task.

(** The [type] of the records [TaskSSEParser] passes on with their data. *)
Inductive MetadataType :=
| QuotaMetadata
| ExecutionMetadata
| FinishMetadata
| UnknownMetadata
| FunctionCallMetadata.

(** The result of [JSON.parse] on the payload of a data line of a task
    stream, read at its discriminator: a [Content] record with its text,
    one of the five metadata records (kept whole), or anything else (a
    [type] that is absent, falsy or none of the six). *)
Inductive Parsed :=
| Content (content : Field string)
| Metadata (type : MetadataType) (parsed : JSValue)
| Other.

Inductive Decoded :=
| Value (parsed : Parsed)
| Null
| NotJSON (syntax_error_message : string).

(** [TaskStreamEvent]: [{ type, content }] or [{ type, data }]. *)
Inductive StreamEvent :=
| Ev_content (content : Field string)
| Ev_metadata (type : MetadataType) (data : JSValue).

(** [{ content, quotaMetadata, executionMetadata, finishMetadata,
    unknownMetadata, functionCallMetadata }]; [None] is [null]. *)
Record TaskResult := mkTaskResult {
  content : string;
  quotaMetadata : option JSValue;
  executionMetadata : list JSValue;
  finishMetadata : option JSValue;
  unknownMetadata : option JSValue;
  functionCallMetadata : option JSValue
}.

(** The request [TaskAPI.stream] hands to [_fetchWithRetry]: the path, the
    headers object and the [parameters] of the body. *)
Record Request := mkRequest {
  path : string;
  headers : list (string * string);
  parameters : JSValue
}.

(** [s.split(':')] *)
Fixpoint split_colon (s : string) : list string :=
  match s with
  | EmptyString => [EmptyString]
  | String c r =>
      if Ascii.eqb c ":" then EmptyString :: split_colon r
      else match split_colon r with
           | part :: parts => String c part :: parts
           | [] => [String c EmptyString]
           end
  end.

(** [#splitId(id)]: [id.split(':', 2)], then
    [{ taskId: parts[0], tag: parts[1] || null }]. *)
Definition splitId (id : string) : option string * option string :=
  let parts := take 2 (split_colon id) in
  (parts !! 0%nat,
   match parts !! 1%nat with
   | Some tag => if String.eqb tag "" then None else Some tag
   | None => None
   end).

(** [`${taskId}`] *)
Definition template (taskId : option string) : string :=
  match taskId with
  | Some s => s
  | None => "undefined"
  end.

Section API.
Variable JSON_parse : string -> Decoded.
(** [_fetchWithRetry(path, { method: 'POST', body, headers })]: the chunks
    of the decoded response body, or an error. *)
Variable fetchWithRetry : Request -> Throws (list string).

(** The body of the [try] of [TaskSSEParser.parseLine]. *)
Definition parseLine_try (d : Decoded) : Throws (option StreamEvent) :=
  match d with
  | NotJSON m => Throw (SyntaxError m)
  | Null => Throw (TypeError "Cannot read properties of null (reading 'type')")
  | Value (Content content) => Return (Some (Ev_content content))
  | Value (Metadata type parsed) => Return (Some (Ev_metadata type parsed))
  | Value Other => Return None
  end.

(** [TaskSSEParser.parseLine] *)
Definition parseLine (line : string) : Throws (option StreamEvent) :=
  if negb (startsWith line "data: ") then Return None
  else
    let dataContent := substring_from 6 line in
    if String.eqb (trim dataContent) "end" then Return None
    else
      match parseLine_try (JSON_parse dataContent) with
      | Return event => Return event
      | Throw e =>
          Throw (SSEError ("Failed to parse Task SSE data chunk: "
                           +:+ message e))
      end.

(** [for (const line of lines) { if (line.trim()) { ... } }] *)
Fixpoint parse_lines (lines : list string)
  : list StreamEvent * Throws unit :=
  match lines with
  | [] => ([], Return ())
  | line :: rest =>
      if String.eqb (trim line) "" then parse_lines rest
      else
        match parseLine line with
        | Throw e => ([], Throw e)
        | Return event =>
            let '(events, r) := parse_lines rest in
            (option_list event ++ events, r)
        end
  end.

(** [for await (const chunk of stream) { buffer += chunk; ... }] *)
Fixpoint read_chunks (buffer : string) (chunks : list string)
  : list StreamEvent * Throws string :=
  match chunks with
  | [] => ([], Return buffer)
  | chunk :: rest =>
      let buffer := buffer +:+ chunk in
      let '(lines, buffer) := split_lines buffer in
      match parse_lines lines with
      | (events, Throw e) => (events, Throw e)
      | (events, Return _) =>
          let '(events', r) := read_chunks buffer rest in
          (events ++ events', r)
      end
  end.

(** [TaskAPI.stream(id, parameters)], run to its end: the events yielded
    and the completion. *)
Definition stream (id : string) (parameters : JSValue)
  : list StreamEvent * Throws unit :=
  let '(taskId, tag) := splitId id in
  let headers :=
    match tag with
    | Some tag => [("Grazie-Task-Tag", tag)]
    | None => []
    end in
  match fetchWithRetry
          (mkRequest ("/task/stream/v4/" +:+ template taskId) headers
             parameters) with
  | Throw e => ([], Throw e)
  | Return chunks =>
      match read_chunks "" chunks with
      | (events, Throw e) => (events, Throw e)
      | (events, Return buffer) =>
          let '(events', r) := parse_lines [buffer] in
          (events ++ events', r)
      end
  end.

(** The [switch (event.type)] of [TaskAPI.execute]. *)
Definition execute_event (result : TaskResult) (event : StreamEvent)
  : TaskResult :=
  match event with
  | Ev_content c =>
      mkTaskResult (content result +:+ ToString c) (quotaMetadata result)
        (executionMetadata result) (finishMetadata result)
        (unknownMetadata result) (functionCallMetadata result)
  | Ev_metadata QuotaMetadata data =>
      mkTaskResult (content result) (Some data)
        (executionMetadata result) (finishMetadata result)
        (unknownMetadata result) (functionCallMetadata result)
  | Ev_metadata ExecutionMetadata data =>
      mkTaskResult (content result) (quotaMetadata result)
        (executionMetadata result ++ [data]) (finishMetadata result)
        (unknownMetadata result) (functionCallMetadata result)
  | Ev_metadata FinishMetadata data =>
      mkTaskResult (content result) (quotaMetadata result)
        (executionMetadata result) (Some data)
        (unknownMetadata result) (functionCallMetadata result)
  | Ev_metadata UnknownMetadata data =>
      mkTaskResult (content result) (quotaMetadata result)
        (executionMetadata result) (finishMetadata result)
        (Some data) (functionCallMetadata result)
  | Ev_metadata FunctionCallMetadata data =>
      mkTaskResult (content result) (quotaMetadata result)
        (executionMetadata result) (finishMetadata result)
        (unknownMetadata result) (Some data)
  end.

(** [TaskAPI.execute(id, parameters)] *)
Definition execute (id : string) (parameters : JSValue) : Throws TaskResult :=
  let '(events, completion) := stream id parameters in
  match completion with
  | Throw e => Throw e
  | Return _ =>
      Return (fold_left execute_event events
                (mkTaskResult "" None [] None None None))
  end.
End API.

(** The text of a content event; the data of a metadata event of a type. *)
Definition event_text (event : StreamEvent) : option string :=
  match event with
  | Ev_content c => Some (ToString c)
  | Ev_metadata _ _ => None
  end.

Definition same_type (a b : MetadataType) : bool :=
  match a, b with
  | QuotaMetadata, QuotaMetadata | ExecutionMetadata, ExecutionMetadata
  | FinishMetadata, FinishMetadata | UnknownMetadata, UnknownMetadata
  | FunctionCallMetadata, FunctionCallMetadata => true
  | _, _ => false
  end.

Definition event_data (type : MetadataType) (event : StreamEvent)
  : option JSValue :=
  match event with
  | Ev_metadata type' data => if same_type type type' then Some data else None
  | Ev_content _ => None
  end.

(** A text without a colon. *)
Fixpoint colon_free (s : string) : bool :=
  match s with
  | EmptyString => true
  | String c r => negb (Ascii.eqb c ":") && colon_free r
  end.
End Task.

(* ================================================================== *)
(** * The HTTP client                                                  *)
(* ================================================================== *)

(** [if (x)] on a value. *)
Definition ToBoolean (v : JSValue) : bool :=
  match v with
  | JUndefined | JNull => false
  | JBool b => b
  | JNumber n => negb (Z.eqb n 0)
  | JString s => negb (String.eqb s "")
  | JArray _ | JObject _ => true
  end.

(** The own property [key] of an object literal or of a parsed object. *)
Fixpoint own_property (key : string) (props : list (string * JSValue))
  : option JSValue :=
  match props with
  | [] => None
  | (k, v) :: rest => if String.eqb k key then Some v else own_property key rest
  end.

(** [data.token]: a [TypeError] on [null] and [undefined]; [undefined] on
    a value that has no such property. *)
Definition data_token (data : JSValue) : Throws JSValue :=
  match data with
  | JNull =>
      Throw (TypeError "Cannot read properties of null (reading 'token')")
  | JUndefined =>
      Throw (TypeError "Cannot read properties of undefined (reading 'token')")
  | JObject props => Return (default JUndefined (own_property "token" props))
  | _ => Return JUndefined
  end.

Module Http.
Section Body.
(** What a caller passes as [options.body]. *)
Context {Body : Type}.

(** [options.body]: a caller's body, or [JSON.stringify({})]. *)
Inductive Payload :=
| payload (body : Body)
| empty_object
| no_body.

(** The second argument of [_fetchWithRetry]. *)
Record Options := mkOptions {
  method : string;
  body : Payload;
  headers : list (string * string)
}.

(** A call of [fetch]: the URL, the method and the body, the token put in
    the [Grazie-Authenticate-JWT] header, whether the [Grazie-Agent] header
    is set, and the caller's headers spread over them. *)
Record Request := mkRequest {
  url : string;
  req_method : string;
  jwt : JSValue;
  agent : bool;
  req_headers : list (string * string);
  req_body : Payload
}.

(** What the code reads of a [Response]: [ok], [status], whether [body] is
    there (and the chunks it streams), and what [json()] resolves to. *)
Record Response := mkResponse {
  ok : bool;
  status : Z;
  response_body : option (list string);
  json : Throws JSValue
}.

Inductive Event :=
| api_request (url method : string) (body : Payload)
| api_response (url : string) (status : Z) (ok : bool)
| token_refresh_start
| token_refresh_success (newToken : JSValue)
| error (e : JSError).

(** The client: [#token], [#apiBaseUrl], and, for the statements, the
    calls of [fetch] made and the events emitted so far. *)
Record Client := mkClient {
  token : JSValue;
  apiBaseUrl : string;
  fetched : list Request;
  emitted : list Event
}.

Definition emit (c : Client) (e : Event) : Client :=
  mkClient (token c) (apiBaseUrl c) (fetched c) (emitted c ++ [e]).

Definition sent (c : Client) (r : Request) : Client :=
  mkClient (token c) (apiBaseUrl c) (fetched c ++ [r]) (emitted c).

Definition set_token (c : Client) (newToken : JSValue) : Client :=
  mkClient newToken (apiBaseUrl c) (fetched c) (emitted c).
End Body.
Arguments Payload Body : clear implicits.
Arguments Options Body : clear implicits.
Arguments Request Body : clear implicits.
Arguments Event Body : clear implicits.
Arguments Client Body : clear implicits.
End Http.

(** ** [InternalHttpClient] (v2.14.0) *)

Module InternalHttpClient.
Import Http.

(** [options.token ?? process.env.GRAZIE_JWT_TOKEN
     ?? process.env.GRAZIE_USER_JWT_TOKEN], [options.authType],
    [options.endpoint]. *)
Record ClientOptions := mkClientOptions {
  opt_token : Field string;
  opt_authType : Field string;
  opt_endpoint : Field string
}.

Record Env := mkEnv {
  GRAZIE_JWT_TOKEN : Field string;
  GRAZIE_USER_JWT_TOKEN : Field string
}.

(** [a ?? b] *)
Definition nullish {A} (a b : Field A) : Field A :=
  match a with
  | given _ => a
  | _ => b
  end.

(** [constructor(options, eventEmitter)] *)
Definition new_ {Body} (options : ClientOptions) (env : Env)
  : Throws (Client Body) :=
  let token :=
    nullish (nullish (opt_token options) (GRAZIE_JWT_TOKEN env))
      (GRAZIE_USER_JWT_TOKEN env) in
  if negb (truthy token) then
    Throw (Error "An authentication token is required. Provide it via the `token` option or the GRAZIE_JWT_TOKEN environment variable.")
  else
    let authType := nullish_or (opt_authType options) "user" in
    let endpoint := nullish_or (opt_endpoint options) "https://api.jetbrains.ai" in
    Return (mkClient (JString (ToString token))
              (endpoint +:+ "/" +:+ authType +:+ "/v5") [] []).

Section Fetch.
Context {Body : Type}.
(** [fetch(url, init)], given the calls made before: a response, or a
    rejection. *)
Variable fetch : list (Request Body) -> Request Body -> Throws Response.

(** [_refreshToken()]: a direct call of [fetch]. *)
Definition _refreshToken (c : Client Body) : Client Body * Throws JSValue :=
  let refreshUrl := apiBaseUrl c +:+ "/auth/jwt/refresh/v3" in
  let request := mkRequest refreshUrl "POST" (token c) false [] empty_object in
  match fetch (fetched c) request with
  | Throw e => (sent c request, Throw e)
  | Return response =>
      let c := sent c request in
      if negb (ok response) then
        (c, Throw (APIStatusError "Token refresh failed" (status response)))
      else
        match json response with
        | Throw e => (c, Throw e)
        | Return data =>
            match data_token data with
            | Throw e => (c, Throw e)
            | Return newToken =>
                if negb (ToBoolean newToken) then
                  (c, Throw (APIError "Token refresh response did not contain a new token."))
                else (c, Return newToken)
            end
        end
  end.

(** The body of [_fetchWithRetry(path, options, isRetry)]; [retry] is the
    call [this._fetchWithRetry(path, options, true)], there when
    [isRetry] is false. Its rejection is not caught by the [catch] around
    the refresh: the promise is returned, not awaited. *)
Definition fetchWithRetry_body
    (retry : option (Client Body -> Client Body * Throws Response))
    (path : string) (options : Options Body) (c : Client Body)
  : Client Body * Throws Response :=
  let url := apiBaseUrl c +:+ path in
  let request :=
    mkRequest url (method options) (token c) true (headers options)
      (body options) in
  let c := emit c (api_request url (method options) (body options)) in
  match fetch (fetched c) request with
  | Throw e => (sent c request, Throw e)
  | Return response =>
      let c := sent c request in
      let c := emit c (api_response url (status response) (ok response)) in
      if negb (ok response) then
        match (if Z.eqb (status response) 401 then retry else None) with
        | Some retry =>
            let c := emit c token_refresh_start in
            match _refreshToken c with
            | (c, Return newToken) =>
                let c := set_token c newToken in
                let c := emit c (token_refresh_success newToken) in
                retry c
            | (c, Throw refreshError) =>
                (emit c (error refreshError), Throw refreshError)
            end
        | None =>
            let e :=
              APIStatusError
                ("API request failed with status " +:+ pretty (status response))
                (status response) in
            (emit c (error e), Throw e)
        end
      else
        match response_body response with
        | None =>
            let e := APIError "API returned a successful status but with an empty response body." in
            (emit c (error e), Throw e)
        | Some _ => (c, Return response)
        end
  end.

(** [_fetchWithRetry(path, options, isRetry = false)] *)
Definition _fetchWithRetry (path : string) (options : Options Body)
    (isRetry : bool) : Client Body -> Client Body * Throws Response :=
  if isRetry then fetchWithRetry_body None path options
  else fetchWithRetry_body (Some (fetchWithRetry_body None path options))
         path options.
End Fetch.
End InternalHttpClient.

(** ** [MerciClient] (v2.11.0) *)

Module MerciClient_v2_11.
Import Http.

(** [constructor({ token })] *)
Definition new_ {Body} (token : Field string) : Throws (Client Body) :=
  if negb (truthy token) then
    Throw (Error "A Grazie authentication token is required.")
  else
    Return (mkClient (JString (ToString token))
              "https://api.jetbrains.ai/user/v5" [] []).

Section Fetch.
Context {Body : Type}.
Variable fetch : list (Request Body) -> Request Body -> Throws Response.

(** [_refreshToken()], over the [_fetchWithRetry] it calls. [None] is a
    computation that has not come to an end. *)
Definition _refreshToken
    (_fetchWithRetry :
       string -> Options Body -> bool -> Client Body ->
       Client Body * option (Throws Response))
    (c : Client Body) : Client Body * option (Throws JSValue) :=
  match _fetchWithRetry "/auth/jwt/refresh/v3"
          (mkOptions "POST" empty_object []) false c with
  | (c, None) => (c, None)
  | (c, Some (Throw e)) => (c, Some (Throw e))
  | (c, Some (Return response)) =>
      match json response with
      | Throw e => (c, Some (Throw e))
      | Return data =>
          match data_token data with
          | Throw e => (c, Some (Throw e))
          | Return newToken =>
              if negb (ToBoolean newToken) then
                (c, Some (Throw (APIError "Token refresh response did not contain a new token.")))
              else (c, Some (Return newToken))
          end
      end
  end.

(** [_fetchWithRetry(path, options, isRetry = false)]. The function calls
    itself through [_refreshToken] without bound; [calls] bounds the
    number of its activations, and [None] is returned when they are used
    up. *)
Fixpoint _fetchWithRetry (calls : nat) (path : string)
    (options : Options Body) (isRetry : bool) (c : Client Body)
  : Client Body * option (Throws Response) :=
  match calls with
  | O => (c, None)
  | S calls =>
      let url := apiBaseUrl c +:+ path in
      let request :=
        mkRequest url (method options) (token c) true (headers options)
          (body options) in
      let c := emit c (api_request url (method options) (body options)) in
      match fetch (fetched c) request with
      | Throw e => (sent c request, Some (Throw e))
      | Return response =>
          let c := sent c request in
          let c := emit c (api_response url (status response) (ok response)) in
          if negb (ok response) then
            if (Z.eqb (status response) 401 && negb isRetry)%bool then
              let c := emit c token_refresh_start in
              match _refreshToken (_fetchWithRetry calls) c with
              | (c, None) => (c, None)
              | (c, Some (Return newToken)) =>
                  let c := set_token c newToken in
                  let c := emit c (token_refresh_success newToken) in
                  _fetchWithRetry calls path options true c
              | (c, Some (Throw refreshError)) =>
                  (emit c (error refreshError), Some (Throw refreshError))
              end
            else
              let e :=
                APIError
                  ("API request failed with status "
                   +:+ pretty (status response)) in
              (emit c (error e), Some (Throw e))
          else
            match response_body response with
            | None =>
                let e := APIError "API returned a successful status but with an empty response body." in
                (emit c (error e), Some (Throw e))
            | Some _ => (c, Some (Return response))
            end
      end
  end.
End Fetch.
End MerciClient_v2_11.

(** ** How a call of [_fetchWithRetry] that throws ends *)

(** An error announced on the emitter, or a rejection of [fetch] itself. *)
Definition announced_or_rejected {Body}
    (fetch : list (Http.Request Body) -> Http.Request Body
             -> Throws Http.Response)
    (c c' : Http.Client Body) (e : JSError) : Prop :=
  last (Http.emitted c') = Some (Http.error e)
  \/ exists before request,
       Http.fetched c' = Http.fetched c ++ before ++ [request]
       /\ fetch (Http.fetched c ++ before) request = Throw e.

(** ** A sample server, for the examples *)

(** Every call is answered [401 Unauthorized]. *)
Definition always_unauthorized {Body}
    (log : list (Http.Request Body)) (request : Http.Request Body)
  : Throws Http.Response :=
  Return (Http.mkResponse false 401 None (Throw (SyntaxError "Unexpected end of JSON input"))).

(** The first call is answered [401], the refresh with the token [t2],
    and every call after with a body. *)
Definition expired_once {Body}
    (log : list (Http.Request Body)) (request : Http.Request Body)
  : Throws Http.Response :=
  match log with
  | [] => Return (Http.mkResponse false 401 None (Return JNull))
  | [_] =>
      Return (Http.mkResponse true 200 (Some [])
                (Return (JObject [("token", JString "t2")])))
  | _ => Return (Http.mkResponse true 200 (Some ["data: end"]) (Return JNull))
  end.

(* ================================================================== *)
(** * Tool argument validation (v2.11.0)                               *)
(* ================================================================== *)

(** A JSON schema as [validateSchema] reads it: [type], [required] (an
    array of keys), [properties] (an object of schemas) and [items], each
    of which may be absent. *)
#[warnings="-register-all"]
Inductive Schema :=
| mkSchema (type : Field string) (required : option (list string))
    (properties : option (list (string * Schema))) (items : option Schema).

Definition sch_type (s : Schema) : Field string :=
  match s with mkSchema t _ _ _ => t end.
Definition sch_required (s : Schema) : option (list string) :=
  match s with mkSchema _ r _ _ => r end.
Definition sch_properties (s : Schema) : option (list (string * Schema)) :=
  match s with mkSchema _ _ p _ => p end.
Definition sch_items (s : Schema) : option Schema :=
  match s with mkSchema _ _ _ i => i end.

(** [typeof v] *)
Definition typeof (v : JSValue) : string :=
  match v with
  | JUndefined => "undefined"
  | JNull => "object"
  | JBool _ => "boolean"
  | JNumber _ => "number"
  | JString _ => "string"
  | JArray _ | JObject _ => "object"
  end.

(** [Array.isArray(value) ? 'array' : typeof value] *)
Definition valueType (value : JSValue) : string :=
  match value with
  | JArray _ => "array"
  | _ => typeof value
  end.

(** [x !== y], [y === s]: a string against a property that may be absent. *)
Definition differs (x : string) (y : Field string) : bool :=
  match y with
  | given s => negb (String.eqb x s)
  | _ => true
  end.

Definition is_ (y : Field string) (s : string) : bool :=
  match y with
  | given t => String.eqb t s
  | _ => false
  end.

(** [path.join('.')] *)
Fixpoint join (path : list string) : string :=
  match path with
  | [] => ""
  | [key] => key
  | key :: rest => key +:+ "." +:+ join rest
  end.

(** [{ path, message }] *)
Record ValidationError := mkError {
  err_path : string;
  err_message : string
}.

(** [schema.properties?.[key]]: a schema of the object, a member of
    [Object.prototype] (truthy; its [type], [properties] and [items] are
    [undefined]), or [undefined]. *)
Fixpoint own_schema (key : string) (properties : list (string * Schema))
  : option Schema :=
  match properties with
  | [] => None
  | (k, s) :: rest => if String.eqb k key then Some s else own_schema key rest
  end.

Definition property_schema (properties : option (list (string * Schema)))
    (key : string) : Lookup Schema :=
  match properties with
  | None => missing
  | Some properties =>
      match own_schema key properties with
      | Some s => own s
      | None =>
          if bool_decide (key ∈ Object_prototype_names) then inherited
          else missing
      end
  end.

Section Validation.
(** [key in data] for an array [data]: its indices, [length], and what
    the platform's [Array.prototype] and [Object.prototype] hold. *)
Variable in_array : string -> list JSValue -> bool.

(** [key in data] *)
Definition has_property (key : string) (data : JSValue) : bool :=
  match data with
  | JObject props =>
      (bool_decide (key ∈ props.*1)
       || bool_decide (key ∈ Object_prototype_names))%bool
  | JArray items => in_array key items
  | _ => false
  end.

(** [for (const key of (schema.required || [])) { ... }] *)
Definition required_errors (data : JSValue) (required : list string)
    (path : list string) : list ValidationError :=
  (fun key =>
     mkError (join (path ++ [key]))
       ("Required key '" +:+ key +:+ "' is missing."))
    <$> filter (fun key => has_property key data = false) required.

(** [value.forEach((item, index) => { ... })] *)
Definition item_errors (items : Schema) (currentPath : string)
    (value : list JSValue) : list ValidationError :=
  concat
    (imap (fun index item =>
             if differs (typeof item) (sch_type items) then
               [mkError (currentPath +:+ "[" +:+ pretty index +:+ "]")
                  ("Invalid item type. Expected '"
                   +:+ ToString (sch_type items) +:+ "' but got '"
                   +:+ typeof item +:+ "'.")]
             else [])
       value).

(** The body of [for (const [key, value] of Object.entries(data))];
    [validateSchema] is the function itself, for the nested call. *)
Definition check_entry
    (validateSchema :
       JSValue -> Schema -> list string -> list ValidationError ->
       list ValidationError)
    (schema : Schema) (path : list string) (key : string) (value : JSValue)
    (errors : list ValidationError) : list ValidationError :=
  let currentPath := join (path ++ [key]) in
  match property_schema (sch_properties schema) key with
  | missing => errors
  | inherited =>
      errors ++ [mkError currentPath
                   ("Invalid type. Expected 'undefined' but got '"
                    +:+ valueType value +:+ "'.")]
  | own propertySchema =>
      if differs (valueType value) (sch_type propertySchema) then
        errors ++ [mkError currentPath
                     ("Invalid type. Expected '"
                      +:+ ToString (sch_type propertySchema)
                      +:+ "' but got '" +:+ valueType value +:+ "'.")]
      else
        let errors :=
          if (is_ (sch_type propertySchema) "object"
              && bool_decide (is_Some (sch_properties propertySchema)))%bool
          then validateSchema value propertySchema (path ++ [key]) errors
          else errors in
        match sch_items propertySchema, value with
        | Some items, JArray elements =>
            if is_ (sch_type propertySchema) "array"
            then errors ++ item_errors items currentPath elements
            else errors
        | _, _ => errors
        end
  end.

(** [validateSchema(data, schema, path = [], errors = [])]: returns the
    [errors] array as the call leaves it. The guard
    [schema.type !== 'object' || data === null || typeof data !== 'object']
    is read by cases on [data]: an object or an array is not [null] and
    has [typeof] ['object']; for any other value the guard holds. The
    entries of an array are its elements under their indices. *)
Fixpoint validateSchema (data : JSValue) (schema : Schema)
    (path : list string) (errors : list ValidationError) {struct data}
  : list ValidationError :=
  let not_an_object :=
    if (0 <? length (default [] (sch_required schema)))%nat then
      errors ++ [mkError (join path)
                   ("Expected an object but received "
                    +:+ typeof data +:+ ".")]
    else errors in
  match data with
  | JObject props =>
      if negb (is_ (sch_type schema) "object") then not_an_object
      else
        let errors :=
          errors ++ required_errors data (default [] (sch_required schema))
                      path in
        fold_left
          (fun errors '(key, value) =>
             check_entry validateSchema schema path key value errors)
          props errors
  | JArray elements =>
      if negb (is_ (sch_type schema) "object") then not_an_object
      else
        let errors :=
          errors ++ required_errors data (default [] (sch_required schema))
                      path in
        (fold_left
           (fun '(index, errors) value =>
              (S index,
               check_entry validateSchema schema path (pretty index) value
                 errors))
           elements (0%nat, errors)).2
  | _ => not_an_object
  end.

(** [validatedExecute(data)] of [createValidatedTool]: the report returned
    when validation finds errors. *)
Definition validation_report (errors : list ValidationError) (data : JSValue)
  : JSValue :=
  JObject
    [ ("status", JString "Tool execution failed due to validation errors.");
      ("verification",
       JObject [ ("isValid", JBool false);
                 ("errors",
                  JArray ((fun e =>
                             JObject [ ("path", JString (err_path e));
                                       ("message", JString (err_message e)) ])
                            <$> errors)) ]);
      ("data", data) ].

Definition validatedExecute (actualSchema : Schema)
    (coreExecute : JSValue -> Throws JSValue) (data : JSValue)
  : Throws JSValue :=
  let validationErrors := validateSchema data actualSchema [] [] in
  if (0 <? length validationErrors)%nat
  then Return (validation_report validationErrors data)
  else coreExecute data.

(** [createValidatedTool(toolDefinition)]. [actualSchema] is
    [parameters.schema || parameters], given both as the value put back
    under [parameters.schema] and as the schema the validator reads. *)
Definition createValidatedTool (name description : string)
    (actualSchema_value : JSValue) (actualSchema : Schema)
    (coreExecute : JSValue -> Throws JSValue) : ToolDefinition :=
  mkTool name description (JObject [("schema", actualSchema_value)])
    (validatedExecute actualSchema coreExecute).
End Validation.

(** ** Samples for the examples *)

(** A tool schema for the examples: an object that requires a string
    under [city]. *)
Definition city_schema : Schema :=
  mkSchema (given "object") (Some ["city"])
    (Some [("city", mkSchema (given "string") None None None)]) None.

(** [key in data] for an array, for the examples: its indices and
    [length]. *)
Definition sample_in_array (key : string) (items : list JSValue) : bool :=
  (String.eqb key "length"
   || bool_decide (key ∈ pretty <$> seq 0 (length items)))%bool.

(** A task endpoint for the examples: one content record, then the end
    marker. *)
Definition sample_task_parse (text : string) : Task.Decoded :=
  if String.eqb text "hello"
  then Task.Value (Task.Content (given "hello"))
  else Task.NotJSON "Unexpected token".

Definition sample_task_fetch (request : Task.Request)
  : Throws (list string) :=
  Return [data_line "hello"; data_line "end"].

(* ================================================================== *)
(** * The accumulator                                                  *)
(* ================================================================== *)

Section MapFacts.
Context {V : Type}.
Implicit Types (m : JSMap V) (k : Z) (v : V).

Lemma Map_get_set_eq k v m : Map_get k (Map_set k v m) = Some v.
Proof.
  induction m as [|[k' v'] m IH]; simpl.
  - by rewrite Z.eqb_refl.
  - destruct (Z.eqb_spec k k'); simpl.
    + by rewrite Z.eqb_refl.
    + destruct (Z.eqb_spec k k'); [done|]. apply IH.
Qed.

Lemma Map_get_set_ne k k' v m :
  k' ≠ k -> Map_get k' (Map_set k v m) = Map_get k' m.
Proof.
  intros Hne. induction m as [|[k0 v0] m IH]; simpl.
  - destruct (Z.eqb_spec k' k); [done|done].
  - destruct (Z.eqb_spec k k0); simpl.
    + subst. destruct (Z.eqb_spec k' k0); done.
    + destruct (Z.eqb_spec k' k0); [done|]. apply IH.
Qed.

Lemma Map_get_elem_of k v m : Map_get k m = Some v -> (k, v) ∈ m.
Proof.
  induction m as [|[k' v'] m IH]; simpl; [done|].
  destruct (Z.eqb_spec k k').
  - intros [= ->]. subst k'. left.
  - intros Hget. right. by apply IH.
Qed.

Lemma Map_get_None k m : Map_get k m = None <-> k ∉ m.*1.
Proof.
  induction m as [|[k' v'] m IH]; simpl.
  - split; [intros _; apply not_elem_of_nil | done].
  - destruct (Z.eqb_spec k k').
    + subst k'. split; [done|]. intros Hn. destruct Hn. left.
    + rewrite IH, not_elem_of_cons. split; [by intros ?; split|by intros [_ ?]].
Qed.

Lemma elem_of_Map_get k v m : NoDup m.*1 -> (k, v) ∈ m -> Map_get k m = Some v.
Proof.
  induction m as [|[k' v'] m IH]; simpl.
  - intros _ H. by apply elem_of_nil in H.
  - rewrite NoDup_cons. intros [Hk Hnd] Hin.
    apply elem_of_cons in Hin as [[= -> ->]|Hin].
    + by rewrite Z.eqb_refl.
    + destruct (Z.eqb_spec k k'); [|by apply IH].
      subst. destruct Hk. apply list_elem_of_fmap. by exists (k', v).
Qed.

Lemma Map_set_keys k v m :
  (Map_set k v m).*1 = if Map_has k m then m.*1 else m.*1 ++ [k].
Proof.
  unfold Map_has. induction m as [|[k' v'] m IH]; [done|].
  cbn [Map_set Map_get]. destruct (Z.eqb_spec k k'); [by subst|].
  rewrite !fmap_cons, IH. by destruct (Map_get k m).
Qed.

Lemma Map_set_NoDup k v m : NoDup m.*1 -> NoDup (Map_set k v m).*1.
Proof.
  intros Hnd. rewrite Map_set_keys. unfold Map_has.
  destruct (Map_get k m) eqn:E; [done|].
  apply NoDup_app. split_and!; [done| |apply NoDup_singleton].
  intros x Hx Hx'. apply list_elem_of_singleton in Hx'. subst.
  by apply Map_get_None in E.
Qed.

(** Two maps with unique keys and the same lookups hold the same
    entries. *)
Lemma Map_get_ext_Permutation m1 m2 :
  NoDup m1.*1 -> NoDup m2.*1 ->
  (forall k, Map_get k m1 = Map_get k m2) -> m1 ≡ₚ m2.
Proof.
  intros H1 H2 Hget. apply NoDup_Permutation.
  - eapply NoDup_fmap_1, H1.
  - eapply NoDup_fmap_1, H2.
  - intros [k v]. split; intros Hin.
    + apply Map_get_elem_of. rewrite <-Hget. by apply elem_of_Map_get.
    + apply Map_get_elem_of. rewrite Hget. by apply elem_of_Map_get.
Qed.
End MapFacts.

Lemma string_app_nil_r (s : string) : s +:+ "" = s.
Proof.
  induction s as [|c s IH]; [done|].
  change (String c s +:+ "") with (String c (s +:+ "")). by rewrite IH.
Qed.

Lemma string_app_assoc (s1 s2 s3 : string) :
  (s1 +:+ s2) +:+ s3 = s1 +:+ (s2 +:+ s3).
Proof.
  induction s1 as [|c s1 IH]; [done|].
  change (String c (s1 +:+ s2) +:+ s3 = String c (s1 +:+ (s2 +:+ s3))).
  change (String c ((s1 +:+ s2) +:+ s3) = String c (s1 +:+ (s2 +:+ s3))).
  by rewrite IH.
Qed.

Lemma assign_if_truthy_carried f current :
  assign_if_truthy f current = from_option Some current (carried f).
Proof.
  unfold assign_if_truthy, truthy, carried.
  destruct f as [| |s]; try done. by destruct (String.eqb s "").
Qed.

Lemma append_if_truthy_carried f current :
  append_if_truthy f current = current +:+ default "" (carried f).
Proof.
  unfold append_if_truthy, truthy, carried.
  destruct f as [| |s]; cbn; rewrite ?string_app_nil_r; try done.
  destruct (String.eqb_spec s ""); cbn; [|done].
  by rewrite string_app_nil_r.
Qed.

Lemma last_carried_snoc fs f :
  last_carried (fs ++ [f]) = from_option Some (last_carried fs) (carried f).
Proof.
  unfold last_carried. rewrite omap_app. cbn.
  destruct (carried f); cbn; [by rewrite last_snoc|by rewrite app_nil_r].
Qed.

Lemma concatenation_snoc texts t :
  concatenation (texts ++ [t]) = concatenation texts +:+ t.
Proof.
  unfold concatenation. induction texts as [|x texts IH]; cbn.
  - by rewrite string_app_nil_r.
  - rewrite IH. by rewrite string_app_assoc.
Qed.

(** Merging a run of fragments into a call: the last id and name carried
    win, the argument texts are appended in order. *)
Lemma fold_merge_fragment frs c :
  fold_left merge_fragment frs c =
    mkToolCall
      (from_option Some (tc_id c) (last_carried (fragment_id <$> frs)))
      (from_option Some (tc_name c) (last_carried (fragment_name <$> frs)))
      (tc_arguments c +:+ concatenation (argument_text <$> frs)).
Proof.
  induction frs as [|r frs IH] using rev_ind.
  - cbn. rewrite string_app_nil_r. by destruct c.
  - rewrite fold_left_app. cbn [fold_left]. rewrite IH.
    rewrite !fmap_app. cbn [fmap list_fmap].
    rewrite !last_carried_snoc, concatenation_snoc.
    unfold merge_fragment. cbn [tc_id tc_name tc_arguments].
    rewrite !assign_if_truthy_carried, append_if_truthy_carried.
    unfold argument_text. rewrite string_app_assoc.
    f_equal.
    + by destruct (carried (fragment_id r)).
    + by destruct (carried (fragment_name r)).
Qed.

Lemma accumulate_cons o r frs :
  accumulate o (r :: frs) =
    Some (fold_left merge_fragment frs (merge_fragment (default empty_call o) r)).
Proof.
  unfold accumulate. cbn [fold_left].
  generalize (merge_fragment (default empty_call o) r). clear.
  induction frs as [|r frs IH]; intros c; [done|].
  cbn [fold_left]. by rewrite IH.
Qed.

Lemma accumulate_merged frs :
  frs ≠ [] -> accumulate None frs = Some (merged_call frs).
Proof.
  destruct frs as [|r frs]; [done|]. intros _.
  rewrite accumulate_cons.
  change (fold_left merge_fragment frs (merge_fragment (default empty_call None) r))
    with (fold_left merge_fragment (r :: frs) empty_call).
  rewrite fold_merge_fragment. unfold merged_call. cbn [empty_call tc_id tc_name tc_arguments].
  f_equal. f_equal.
  - by destruct (last_carried _).
  - by destruct (last_carried _).
Qed.

(** One record, seen from the accumulator. *)
Lemma switch_fragment_get p r idx k :
  fragment_index r = Some idx ->
  Map_get k (toolCallsInProgress (parseLine_switch p r).1) =
    if bool_decide (k = idx)
    then Some (merge_fragment
                 (default empty_call (Map_get idx (toolCallsInProgress p))) r)
    else Map_get k (toolCallsInProgress p).
Proof.
  destruct r as [|i id name content| | |]; try done.
  intros [= <-]. cbn [parseLine_switch fst toolCallsInProgress].
  set (idx := nullish_or i 0). unfold Map_has.
  case_bool_decide as Hk.
  - subst k. rewrite Map_get_set_eq. f_equal.
    destruct (Map_get idx (toolCallsInProgress p)) eqn:E; cbn [negb].
    + by rewrite E.
    + by rewrite Map_get_set_eq.
  - rewrite Map_get_set_ne by done.
    destruct (Map_get idx (toolCallsInProgress p)); cbn [negb]; [done|].
    by rewrite Map_get_set_ne.
Qed.

Lemma switch_fragment_finalized p r :
  is_flush r = false ->
  finalizedToolCalls (parseLine_switch p r).1 = finalizedToolCalls p.
Proof.
  destruct r as [| |reason| |]; try done. cbn. by intros ->.
Qed.

Lemma switch_other_in_progress p r :
  fragment_index r = None -> is_flush r = false ->
  toolCallsInProgress (parseLine_switch p r).1 = toolCallsInProgress p.
Proof.
  destruct r as [| |reason| |]; try done. cbn. by intros _ ->.
Qed.

Lemma switch_NoDup p r :
  NoDup (toolCallsInProgress p).*1 ->
  NoDup (toolCallsInProgress (parseLine_switch p r).1).*1.
Proof.
  intros Hnd. destruct r as [|i id name content|reason| |]; try done.
  - cbn [parseLine_switch fst toolCallsInProgress].
    apply Map_set_NoDup. destruct (negb _); [by apply Map_set_NoDup|done].
  - cbn. destruct (includes flush_reasons reason); [constructor|done].
Qed.

Lemma feed_NoDup rs p :
  NoDup (toolCallsInProgress p).*1 ->
  NoDup (toolCallsInProgress (feed p rs)).*1.
Proof.
  revert p. induction rs as [|r rs IH]; intros p Hnd; [done|].
  cbn. apply IH. by apply switch_NoDup.
Qed.

Lemma feed_app p rs1 rs2 : feed p (rs1 ++ rs2) = feed (feed p rs1) rs2.
Proof. apply fold_left_app. Qed.

(** Within a batch: the entry of every index is the merge, in arrival
    order, of the fragments filed under it; nothing is finalized. *)
Lemma feed_batch rs p :
  Forall (fun r => is_flush r = false) rs ->
  finalizedToolCalls (feed p rs) = finalizedToolCalls p /\
  forall k, Map_get k (toolCallsInProgress (feed p rs)) =
            accumulate (Map_get k (toolCallsInProgress p)) (fragments_of k rs).
Proof.
  intros Hrs. revert p.
  induction Hrs as [|r rs Hr _ IH]; intros p; [done|].
  cbn [feed fold_left]. destruct (IH (parseLine_switch p r).1) as [IHf IHg].
  fold (feed (parseLine_switch p r).1 rs). split.
  - rewrite IHf. by apply switch_fragment_finalized.
  - intros k. rewrite IHg. unfold fragments_of. rewrite filter_cons.
    destruct (fragment_index r) as [idx|] eqn:Hidx.
    + rewrite (switch_fragment_get p r idx k Hidx).
      case_decide as Hd; case_bool_decide as Hb; simplify_eq; try done.
    + rewrite switch_other_in_progress by done.
      case_decide; [done|done].
Qed.

(* ================================================================== *)
(** * Sorting at the flush                                             *)
(* ================================================================== *)

Global Instance index_le_total {V} : Total (@index_le V).
Proof. intros x y. unfold index_le. lia. Qed.

Global Instance index_le_trans {V} : Transitive (@index_le V).
Proof. intros x y z. unfold index_le. lia. Qed.

Lemma sort_by_index_Permutation {V} (m : list (Z * V)) : sort_by_index m ≡ₚ m.
Proof. apply merge_sort_Permutation. Qed.

Lemma sort_by_index_Sorted {V} (m : list (Z * V)) :
  Sorted index_le (sort_by_index m).
Proof. apply Sorted_merge_sort. apply _. Qed.

(** With unique keys, the sorted entries are the only list that holds the
    same entries in ascending order of index. *)
Lemma sort_by_index_unique {V} (m l : list (Z * V)) :
  NoDup m.*1 -> l ≡ₚ m -> Sorted index_le l -> sort_by_index m = l.
Proof.
  intros Hnd Hperm Hsorted.
  apply (Sorted_unique_strong index_le); [|apply sort_by_index_Sorted|done|].
  - intros [k1 v1] [k2 v2] H1 H2 Hle1 Hle2. unfold index_le in *. cbn in *.
    assert (k1 = k2) as -> by lia. f_equal.
    rewrite sort_by_index_Permutation in H1. rewrite Hperm in H2.
    apply (elem_of_Map_get _ _ _ Hnd) in H1, H2. congruence.
  - by rewrite sort_by_index_Permutation, Hperm.
Qed.

(** Ascending and without repetition. *)
Lemma sort_by_index_ascending {V} (m : list (Z * V)) :
  NoDup m.*1 -> StronglySorted Z.lt (sort_by_index m).*1.
Proof.
  intros Hnd.
  assert (NoDup (sort_by_index m).*1) as Hnd'.
  { by rewrite sort_by_index_Permutation. }
  pose proof (Sorted_StronglySorted _ _ (sort_by_index_Sorted m)) as Hs.
  induction Hs as [|[k v] l Hl IH Hk]; [constructor|].
  rewrite fmap_cons in Hnd'. apply NoDup_cons in Hnd' as [Hnotin Hnd'].
  rewrite fmap_cons. constructor; [by apply IH|].
  apply Forall_fmap, Forall_forall. intros [k' v'] Hin.
  rewrite Forall_forall in Hk. specialize (Hk _ Hin).
  unfold index_le in Hk. cbn in *.
  assert (k ≠ k'); [|lia].
  intros ->. apply Hnotin. apply list_elem_of_fmap. by exists (k', v').
Qed.

Lemma switch_flush p reason :
  includes flush_reasons reason = true ->
  parseLine_switch p (FinishMetadata reason) =
    (mkParser
       (finalizedToolCalls p
          ++ (sort_by_index (toolCallsInProgress p)).*2) [],
     None).
Proof. cbn. by intros ->. Qed.

(** ** A batch finalizes to [batch_calls] *)

Lemma fragments_of_nil_iff idx batch :
  fragments_of idx batch = [] <-> idx ∉ batch_indices batch.
Proof.
  unfold fragments_of, batch_indices. induction batch as [|r batch IH].
  - split; [intros _; apply not_elem_of_nil|done].
  - rewrite filter_cons. cbn [omap list_omap].
    destruct (fragment_index r) as [i|] eqn:Hi.
    + rewrite not_elem_of_cons, <-IH. case_decide as Hd; simplify_eq.
      * split; [done|]. by intros [? _].
      * split; [|by intros [_ ?]]. intros ?. split; [congruence|done].
    + case_decide; [done|]. apply IH.
Qed.

Lemma accumulate_None_inv frs v :
  accumulate None frs = Some v -> frs ≠ [] /\ v = merged_call frs.
Proof.
  destruct frs as [|r frs]; [done|]. intros H. split; [done|].
  rewrite accumulate_merged in H by done. congruence.
Qed.

Lemma ascending_indices_elem_of idx batch :
  idx ∈ ascending_indices batch <-> idx ∈ batch_indices batch.
Proof.
  unfold ascending_indices.
  by rewrite merge_sort_Permutation, elem_of_remove_dups.
Qed.

Lemma ascending_indices_NoDup batch : NoDup (ascending_indices batch).
Proof.
  unfold ascending_indices. rewrite merge_sort_Permutation.
  apply NoDup_remove_dups.
Qed.

Lemma ascending_indices_Sorted batch : Sorted Z.le (ascending_indices batch).
Proof. apply Sorted_merge_sort. apply _. Qed.

Lemma batch_entries_keys batch : (batch_entries batch).*1 = ascending_indices batch.
Proof.
  unfold batch_entries. rewrite <-list_fmap_compose.
  induction (ascending_indices batch) as [|k l IH]; [done|].
  cbn. by rewrite IH.
Qed.

(** The accumulator after a batch, sorted, is [batch_entries]. *)
Lemma sorted_batch p batch :
  toolCallsInProgress p = [] ->
  Forall (fun r => is_flush r = false) batch ->
  sort_by_index (toolCallsInProgress (feed p batch)) = batch_entries batch.
Proof.
  intros Hempty Hbatch.
  destruct (feed_batch batch p Hbatch) as [_ Hget].
  assert (NoDup (toolCallsInProgress (feed p batch)).*1) as Hnd.
  { apply feed_NoDup. rewrite Hempty. constructor. }
  apply sort_by_index_unique; [done| |].
  - apply NoDup_Permutation.
    + eapply NoDup_fmap_1. rewrite batch_entries_keys.
      apply ascending_indices_NoDup.
    + by eapply NoDup_fmap_1.
    + intros [k v]. unfold batch_entries. rewrite list_elem_of_fmap. split.
      * intros (idx & [= -> ->] & Hin). apply Map_get_elem_of.
        rewrite Hget, Hempty. cbn [Map_get].
        apply accumulate_merged.
        apply ascending_indices_elem_of in Hin.
        intros Hnil. by apply fragments_of_nil_iff in Hnil.
      * intros Hin. apply elem_of_Map_get in Hin; [|done].
        rewrite Hget, Hempty in Hin. cbn [Map_get] in Hin.
        apply accumulate_None_inv in Hin as [Hne ->].
        exists k. split; [done|]. apply ascending_indices_elem_of.
        destruct (decide (k ∈ batch_indices batch)) as [|Hnotin]; [done|].
        by apply fragments_of_nil_iff in Hnotin.
  - unfold batch_entries.
    apply (Sorted_fmap _ Z.le index_le); [|apply ascending_indices_Sorted].
    intros x y Hxy. unfold index_le. cbn. lia.
Qed.

Lemma switch_in_progress_ext p q r :
  toolCallsInProgress p = toolCallsInProgress q ->
  toolCallsInProgress (parseLine_switch p r).1 =
  toolCallsInProgress (parseLine_switch q r).1.
Proof.
  intros H. destruct r as [|i id name content|reason| |]; cbn; try done.
  - by rewrite H.
  - by destruct (includes flush_reasons reason).
Qed.

Lemma feed_in_progress_ext rs p q :
  toolCallsInProgress p = toolCallsInProgress q ->
  toolCallsInProgress (feed p rs) = toolCallsInProgress (feed q rs).
Proof.
  revert p q. induction rs as [|r rs IH]; intros p q H; [done|].
  cbn. apply IH. by apply switch_in_progress_ext.
Qed.

(** The parser after any stream: the flushed batches finalized in order,
    and the accumulator of the unflushed remainder. *)
Lemma feed_batches rs current p :
  toolCallsInProgress p = [] ->
  Forall (fun r => is_flush r = false) current ->
  feed (feed p current) rs =
    mkParser
      (finalizedToolCalls p ++ concat (batch_calls <$> (batches rs current).1))
      (toolCallsInProgress (feed new_SSEParser (batches rs current).2)).
Proof.
  revert current p. induction rs as [|r rs IH]; intros current p Hp Hcur.
  - change (feed (feed p current) []) with (feed p current).
    cbn [batches fst snd]. destruct (feed_batch current p Hcur) as [Hf _].
    rewrite (feed_in_progress_ext current new_SSEParser p) by done.
    change (concat (batch_calls <$> [])) with (@nil ToolCall).
    rewrite app_nil_r, <-Hf. by destruct (feed p current).
  - cbn [batches]. destruct (is_flush r) eqn:Hr.
    + destruct r as [| |reason| |]; try done. cbn in Hr.
      cbn [feed fold_left]. rewrite (switch_flush _ _ Hr). cbn [fst].
      rewrite (sorted_batch p current Hp Hcur).
      destruct (feed_batch current p Hcur) as [-> _].
      specialize (IH [] (mkParser (finalizedToolCalls p ++ (batch_entries current).*2) [])
                    eq_refl (Forall_nil_2 _)).
      cbn [feed fold_left] in IH. fold (feed (mkParser (finalizedToolCalls p ++ (batch_entries current).*2) []) rs).
      rewrite IH. destruct (batches rs []) as [bs pending]. cbn.
      by rewrite <-app_assoc.
    + rewrite <-feed_app. change (current ++ r :: rs) with (current ++ [r] ++ rs).
      rewrite app_assoc. rewrite feed_app. apply IH; [done|].
      apply Forall_app. split; [done|]. by constructor.
Qed.

(** Refinement: what the parser has finalized after a stream is what the
    flushed batches of the stream reassemble to. *)
Lemma finalized_flushed_batches rs :
  finalizedToolCalls (feed new_SSEParser rs) =
    concat (batch_calls <$> flushed_batches rs).
Proof.
  pose proof (feed_batches rs [] new_SSEParser eq_refl (Forall_nil_2 _)) as H.
  cbn [feed fold_left] in H. unfold flushed_batches.
  change (fold_left _ rs new_SSEParser) with (feed new_SSEParser rs) in H.
  by rewrite H.
Qed.

(* ================================================================== *)
(** * Fragment reassembly, ordering, index-less fragments              *)
(* ================================================================== *)

Lemma last_carried_first_carried fs :
  (forall a b, a ∈ omap carried fs -> b ∈ omap carried fs -> a = b) ->
  last_carried fs = first_carried fs.
Proof.
  unfold last_carried, first_carried.
  generalize (omap carried fs). intros l Hl.
  destruct l as [|x l]; [done|]. cbn [head].
  destruct (last (x :: l)) as [y|] eqn:E.
  - f_equal. apply Hl; [|left]. by apply last_Some_elem_of.
  - by apply last_None in E.
Qed.

Lemma elem_of_concat {A} (x : A) (ls : list (list A)) :
  x ∈ concat ls <-> exists l, x ∈ l /\ l ∈ ls.
Proof.
  induction ls as [|l ls IH]; cbn [concat].
  - split; [by intros ?%elem_of_nil|]. by intros (l & _ & ?%elem_of_nil).
  - rewrite elem_of_app, IH. split.
    + intros [H|(l' & H1 & H2)]; [exists l; split; [done|left]|].
      exists l'. split; [done|by right].
    + intros (l' & H1 & [->|H2]%elem_of_cons); [by left|].
      right. by exists l'.
Qed.

(** C1, as the code has it. For every stream of records, what the parser
    has finalized is the concatenation, batch after batch (a batch being
    the records up to a flushing finish signal), of one call per parallel
    index; for every index of a flushed batch that call has the id and the
    name of the latest fragment of the index that carries a non-empty one
    (fragments that carry none leave them as they are, so they are those of
    the first carrying fragment whenever the carrying fragments agree), and
    its argument string is the concatenation, in arrival order, of the
    argument texts of all fragments of the index. *)
Theorem C1_fragment_reassembly (rs batch : list WireRecord) (idx : Z) :
  batch ∈ flushed_batches rs ->
  idx ∈ batch_indices batch ->
  let frs := fragments_of idx batch in
  getFinalResult (feed new_SSEParser rs)
    = concat (batch_calls <$> flushed_batches rs)
  /\ exists call,
       call ∈ batch_calls batch
       /\ call ∈ getFinalResult (feed new_SSEParser rs)
       /\ tc_id call = last_carried (fragment_id <$> frs)
       /\ tc_name call = last_carried (fragment_name <$> frs)
       /\ tc_arguments call = concatenation (argument_text <$> frs)
       /\ ((forall a b, a ∈ omap carried (fragment_id <$> frs) ->
                        b ∈ omap carried (fragment_id <$> frs) -> a = b) ->
           tc_id call = first_carried (fragment_id <$> frs))
       /\ ((forall a b, a ∈ omap carried (fragment_name <$> frs) ->
                        b ∈ omap carried (fragment_name <$> frs) -> a = b) ->
           tc_name call = first_carried (fragment_name <$> frs)).
Proof.
  intros Hbatch Hidx frs. unfold getFinalResult.
  rewrite finalized_flushed_batches. split; [done|].
  exists (merged_call frs).
  assert (merged_call frs ∈ batch_calls batch) as Hin.
  { unfold batch_calls, batch_entries. rewrite <-list_fmap_compose.
    apply list_elem_of_fmap. exists idx. split; [done|].
    by apply ascending_indices_elem_of. }
  split_and!; try done.
  - apply elem_of_concat. exists (batch_calls batch). split; [done|].
    by apply list_elem_of_fmap_2.
  - intros H. cbn. by apply last_carried_first_carried.
  - intros H. cbn. by apply last_carried_first_carried.
Qed.

(** C1 fails as stated: of two fragments of index 0 that both carry an
    id, the second one's id is the one finalized. *)
Lemma C1_counterexample :
  let fragments :=
    [ ToolCallFragment (given 0) (given "call_A") (given "f") (given "{");
      ToolCallFragment (given 0) (given "call_B") undefined (given "}") ] in
  first_carried (fragment_id <$> fragments) = Some "call_A"
  /\ getFinalResult
       (feed new_SSEParser (fragments ++ [FinishMetadata (given "tool_calls")]))
     = [mkToolCall (Some "call_B") (Some "f") "{}"].
Proof. split; reflexivity. Qed.

Lemma C1_fragment_reassembly_witness :
  let rs :=
    [ ToolCallFragment (given 0) (given "c1") (given "get_weather") (given "{");
      ToolCallFragment (given 0) undefined undefined (given "}");
      FinishMetadata (given "tool_calls") ] in
  exists call,
    call ∈ getFinalResult (feed new_SSEParser rs)
    /\ tc_arguments call = "{}".
Proof.
  intros rs.
  destruct (C1_fragment_reassembly rs
              [ ToolCallFragment (given 0) (given "c1") (given "get_weather")
                  (given "{");
                ToolCallFragment (given 0) undefined undefined (given "}") ]
              0) as [_ (call & _ & Hin & _ & _ & Hargs & _)].
  - vm_compute. left.
  - vm_compute. left.
  - exists call. split; [exact Hin|exact Hargs].
Defined.

(** C2. At every point of every stream, a finish signal whose reason is
    [tool_call], [tool_calls] or [stop] appends the accumulated calls to the
    finalized list in strictly ascending order of parallel index, returns
    no event and leaves the accumulator empty. The appended calls depend
    only on the fragments each index received, not on how the fragments of
    different indices were interleaved. In particular fragments for the
    indices 2, 0, 1, arriving in that order, finalize as the calls of 0, 1
    and 2. *)
Theorem C2_flush_sorted_by_index (rs : list WireRecord) (reason : Field string) :
  includes flush_reasons reason = true ->
  let p := feed new_SSEParser rs in
  let after := parseLine_switch p (FinishMetadata reason) in
  (exists entries,
      entries ≡ₚ toolCallsInProgress p
      /\ StronglySorted Z.lt entries.*1
      /\ finalizedToolCalls after.1 = finalizedToolCalls p ++ entries.*2
      /\ toolCallsInProgress after.1 = []
      /\ after.2 = None)
  /\ (forall q batch1 batch2,
        toolCallsInProgress q = [] ->
        Forall (fun r => is_flush r = false) batch1 ->
        Forall (fun r => is_flush r = false) batch2 ->
        (forall idx, fragments_of idx batch1 = fragments_of idx batch2) ->
        parseLine_switch (feed q batch1) (FinishMetadata reason)
        = parseLine_switch (feed q batch2) (FinishMetadata reason))
  /\ (forall id2 name2 content2 id0 name0 content0 id1 name1 content1,
        let f2 := ToolCallFragment (given 2) id2 name2 content2 in
        let f0 := ToolCallFragment (given 0) id0 name0 content0 in
        let f1 := ToolCallFragment (given 1) id1 name1 content1 in
        getFinalResult
          (feed new_SSEParser [f2; f0; f1; FinishMetadata reason])
        = [merged_call [f0]; merged_call [f1]; merged_call [f2]]).
Proof.
  intros Hreason p after. subst after. rewrite (switch_flush _ _ Hreason).
  assert (NoDup (toolCallsInProgress p).*1) as Hnd.
  { apply feed_NoDup. constructor. }
  split_and!.
  - exists (sort_by_index (toolCallsInProgress p)). split_and!; try done.
    + apply sort_by_index_Permutation.
    + by apply sort_by_index_ascending.
  - intros q batch1 batch2 Hq H1 H2 Hfr.
    rewrite !(switch_flush _ _ Hreason).
    destruct (feed_batch batch1 q H1) as [-> Hget1].
    destruct (feed_batch batch2 q H2) as [-> Hget2].
    assert (sort_by_index (toolCallsInProgress (feed q batch2))
            = sort_by_index (toolCallsInProgress (feed q batch1))) as ->;
      [|done].
    apply sort_by_index_unique; [| |apply sort_by_index_Sorted].
    + apply feed_NoDup. rewrite Hq. constructor.
    + rewrite sort_by_index_Permutation.
      apply Map_get_ext_Permutation.
      * apply feed_NoDup. rewrite Hq. constructor.
      * apply feed_NoDup. rewrite Hq. constructor.
      * intros k. by rewrite Hget1, Hget2, Hfr.
  - intros id2 name2 content2 id0 name0 content0 id1 name1 content1 f2 f0 f1.
    unfold getFinalResult.
    change [f2; f0; f1; FinishMetadata reason]
      with ([f2; f0; f1] ++ [FinishMetadata reason]).
    rewrite feed_app.
    change (feed (feed new_SSEParser [f2; f0; f1]) [FinishMetadata reason])
      with (parseLine_switch (feed new_SSEParser [f2; f0; f1])
              (FinishMetadata reason)).1.
    rewrite (switch_flush _ _ Hreason). cbn [fst finalizedToolCalls].
    rewrite (sorted_batch new_SSEParser [f2; f0; f1] eq_refl).
    + reflexivity.
    + repeat constructor.
Qed.

Lemma C2_flush_sorted_by_index_witness :
  getFinalResult
    (feed new_SSEParser
       [ ToolCallFragment (given 2) (given "c") (given "third") (given "3");
         ToolCallFragment (given 0) (given "a") (given "first") (given "1");
         ToolCallFragment (given 1) (given "b") (given "second") (given "2");
         FinishMetadata (given "tool_calls") ])
  = [ mkToolCall (Some "a") (Some "first") "1";
      mkToolCall (Some "b") (Some "second") "2";
      mkToolCall (Some "c") (Some "third") "3" ].
Proof.
  destruct (C2_flush_sorted_by_index [] (given "tool_calls") eq_refl)
    as (_ & _ & H).
  exact (H (given "c") (given "third") (given "3")
           (given "a") (given "first") (given "1")
           (given "b") (given "second") (given "2")).
Defined.

(** ** Fragments without a parallel index *)

Lemma ascending_head_zero (l : list Z) :
  Sorted Z.le l -> 0 ∈ l -> Forall (fun i => 0 <= i) l ->
  exists l', l = 0 :: l'.
Proof.
  intros Hs Hin Hpos. destruct l as [|x l]; [by apply elem_of_nil in Hin|].
  exists l. f_equal.
  apply Sorted_StronglySorted in Hs; [|apply _].
  apply StronglySorted_cons in Hs as [Hx _].
  apply Forall_cons in Hpos as [Hx0 _].
  apply elem_of_cons in Hin as [->|Hin]; [done|].
  rewrite Forall_forall in Hx. specialize (Hx _ Hin). lia.
Qed.

(** C10, as the code has it. In the [switch] that both parser versions
    share, a fragment whose index is absent (or [null]) is handled exactly
    as the same fragment with index 0. Within one batch (up to a flushing
    finish signal) the fragments without index, together with those of
    explicit index 0, merge into the single call of index 0, which the
    flush finalizes; it comes first among the calls of the batch whenever
    no fragment of the batch has a negative index. *)
Theorem C10_index_less_fragments
    (rs batch : list WireRecord) (id name content : Field string) :
  batch ∈ flushed_batches rs ->
  ToolCallFragment undefined id name content ∈ batch ->
  (forall p i n c,
      parseLine_switch p (ToolCallFragment undefined i n c)
      = parseLine_switch p (ToolCallFragment (given 0) i n c)
      /\ parseLine_switch p (ToolCallFragment null i n c)
         = parseLine_switch p (ToolCallFragment (given 0) i n c))
  /\ (forall i n c,
        ToolCallFragment undefined i n c ∈ batch ->
        ToolCallFragment undefined i n c ∈ fragments_of 0 batch)
  /\ merged_call (fragments_of 0 batch) ∈ batch_calls batch
  /\ merged_call (fragments_of 0 batch) ∈ getFinalResult (feed new_SSEParser rs)
  /\ NoDup (batch_entries batch).*1
  /\ (Forall (fun i => 0 <= i) (batch_indices batch) ->
      head (batch_calls batch) = Some (merged_call (fragments_of 0 batch))).
Proof.
  intros Hbatch Hfrag.
  assert (0 ∈ batch_indices batch) as H0.
  { unfold batch_indices. apply list_elem_of_omap.
    by exists (ToolCallFragment undefined id name content). }
  assert (merged_call (fragments_of 0 batch) ∈ batch_calls batch) as Hin.
  { unfold batch_calls, batch_entries. rewrite <-list_fmap_compose.
    apply list_elem_of_fmap. exists 0. split; [done|].
    by apply ascending_indices_elem_of. }
  split_and!.
  - intros p i n c. split; reflexivity.
  - intros i n c Hi. unfold fragments_of. by apply list_elem_of_filter.
  - done.
  - unfold getFinalResult. rewrite finalized_flushed_batches.
    apply elem_of_concat. exists (batch_calls batch). split; [done|].
    by apply list_elem_of_fmap_2.
  - rewrite batch_entries_keys. apply ascending_indices_NoDup.
  - intros Hpos.
    destruct (ascending_head_zero (ascending_indices batch)) as [l' Hl'].
    + apply ascending_indices_Sorted.
    + by apply ascending_indices_elem_of.
    + apply Forall_forall. intros i Hi%ascending_indices_elem_of.
      rewrite Forall_forall in Hpos. by apply Hpos.
    + unfold batch_calls, batch_entries. by rewrite Hl'.
Qed.

(** C10 fails as stated: index-less fragments separated by a flushing
    finish signal belong to two calls. *)
Lemma C10_counterexample :
  getFinalResult
    (feed new_SSEParser
       [ ToolCallFragment undefined undefined undefined (given "a");
         FinishMetadata (given "stop");
         ToolCallFragment undefined undefined undefined (given "b");
         FinishMetadata (given "stop") ])
  = [ mkToolCall None None "a"; mkToolCall None None "b" ].
Proof. reflexivity. Qed.

Lemma C10_index_less_fragments_witness :
  let batch :=
    [ ToolCallFragment (given 1) (given "x") (given "g") (given "[]");
      ToolCallFragment undefined (given "c0") (given "f") (given "{");
      ToolCallFragment undefined undefined undefined (given "}") ] in
  head (batch_calls batch) = Some (mkToolCall (Some "c0") (Some "f") "{}").
Proof.
  intros batch.
  destruct (C10_index_less_fragments
              (batch ++ [FinishMetadata (given "tool_calls")]) batch
              (given "c0") (given "f") (given "{"))
    as (_ & _ & _ & _ & _ & H).
  - vm_compute. left.
  - right. left.
  - rewrite H; [reflexivity|]. vm_compute. repeat constructor; discriminate.
Defined.

(* ================================================================== *)
(** * From lines to records                                            *)
(* ================================================================== *)

Lemma switch_not_tool_calls p r :
  Forall not_tool_calls (option_list (parseLine_switch p r).2).
Proof.
  destruct r as [| |reason| |]; cbn; repeat constructor.
  destruct (includes flush_reasons reason); constructor.
Qed.

Section ReadLoopFacts.
Variable JSON_parse : string -> Decoded.
Variable parseLine :
  SSEParser -> string -> Throws (SSEParser * option StreamEvent).

(** What both versions of [parseLine] satisfy when they return. *)
Hypothesis parseLine_returns : forall p line p' event,
  String.eqb (trim line) "" = false ->
  parseLine p line = Return (p', event) ->
  p' = feed p (option_list (line_record JSON_parse line))
  /\ Forall not_tool_calls (option_list event).

Lemma parse_lines_feed lines p events p' :
  parse_lines parseLine p lines = (events, Return p') ->
  p' = feed p (omap (line_record JSON_parse) lines)
  /\ Forall not_tool_calls events.
Proof.
  revert p events. induction lines as [|line lines IH]; intros p events.
  - cbn. by intros [= <- <-].
  - cbn [parse_lines omap list_omap].
    destruct (String.eqb (trim line) "") eqn:Hblank.
    + unfold line_record at 1. rewrite Hblank. apply IH.
    + destruct (parseLine p line) as [[p1 event]|e] eqn:Hline; [|done].
      destruct (parseLine_returns _ _ _ _ Hblank Hline) as [-> Hev].
      destruct (parse_lines parseLine _ lines) as [events' r] eqn:Hrest.
      intros [= <- ->]. destruct (IH _ _ Hrest) as [-> Hevs].
      split; [|by apply Forall_app].
      destruct (line_record JSON_parse line); reflexivity.
Qed.

Lemma read_chunks_feed chunks p buffer events p' buffer' :
  read_chunks parseLine p buffer chunks = (events, Return (p', buffer')) ->
  p' = feed p (omap (line_record JSON_parse)
                 (stream_lines buffer chunks).1)
  /\ buffer' = (stream_lines buffer chunks).2
  /\ Forall not_tool_calls events.
Proof.
  revert p buffer events.
  induction chunks as [|chunk chunks IH]; intros p buffer events.
  - cbn. by intros [= <- <- <-].
  - cbn [read_chunks stream_lines].
    destruct (split_lines (buffer +:+ chunk)) as [lines rest].
    destruct (parse_lines parseLine p lines) as [evs [p1|e]] eqn:Hlines;
      [|done].
    destruct (parse_lines_feed _ _ _ _ Hlines) as [-> Hevs].
    destruct (read_chunks parseLine _ rest chunks) as [evs' r] eqn:Hrest.
    intros [= <- ->]. destruct (IH _ _ _ Hrest) as (-> & -> & Hevs').
    destruct (stream_lines rest chunks) as [lines' last]. cbn [fst snd].
    split_and!; [|done|by apply Forall_app].
    by rewrite omap_app, feed_app.
Qed.

(** The aggregate event of a stream carries what the parser finalized
    from the records of the stream, and only when there is something. *)
Lemma read_stream_tool_calls chunks events completion calls :
  read_stream parseLine chunks = (events, completion) ->
  Ev_tool_calls calls ∈ events ->
  calls = getFinalResult
            (feed new_SSEParser (stream_records JSON_parse chunks))
  /\ calls ≠ [] /\ completion = Return ().
Proof.
  unfold read_stream, stream_records.
  destruct (read_chunks parseLine new_SSEParser "" chunks)
    as [evs [[p buffer]|e]] eqn:Hchunks.
  2:{ intros [= <- <-] Hin.
      (* the loop threw: no aggregate event *)
      exfalso. revert Hin. clear -Hchunks parseLine_returns.
      revert Hchunks. generalize new_SSEParser, "".
      revert evs. induction chunks as [|chunk chunks IH];
        intros evs p buffer; [done|].
      cbn [read_chunks].
      destruct (split_lines (buffer +:+ chunk)) as [lines rest].
      destruct (parse_lines parseLine p lines) as [evs1 [p1|e1]] eqn:Hl.
      - destruct (parse_lines_feed _ _ _ _ Hl) as [_ Hevs1].
        destruct (read_chunks parseLine p1 rest chunks) as [evs2 r] eqn:Hr.
        intros [= <- ->] [Hin|Hin]%elem_of_app.
        + rewrite Forall_forall in Hevs1. by apply Hevs1 in Hin.
        + by eapply IH.
      - intros [= <- ->] Hin. clear IH.
        revert evs1 p Hl Hin. induction lines as [|line lines IHl];
          intros evs1 p; [done|].
        cbn [parse_lines].
        destruct (String.eqb (trim line) "") eqn:Hb; [apply IHl|].
        destruct (parseLine p line) as [[p2 ev]|e2] eqn:Hline.
        + destruct (parseLine_returns _ _ _ _ Hb Hline) as [_ Hev].
          destruct (parse_lines parseLine p2 lines) as [evs3 r3] eqn:H3.
          intros [= <- ->] [Hin|Hin]%elem_of_app.
          * rewrite Forall_forall in Hev. by apply Hev in Hin.
          * by eapply IHl.
        + intros [= <- _] Hin. by apply elem_of_nil in Hin. }
  destruct (read_chunks_feed _ _ _ _ _ _ Hchunks) as (-> & -> & Hevs).
  destruct (stream_lines "" chunks) as [lines last]. cbn [fst snd].
  destruct (parse_lines parseLine _ [last]) as [evs' [p'|e]] eqn:Hlast.
  - destruct (parse_lines_feed _ _ _ _ Hlast) as [-> Hevs'].
    rewrite omap_app, feed_app.
    intros [= <- <-] Hin. apply elem_of_app in Hin as [Hin|Hin].
    { rewrite Forall_forall in Hevs. by apply Hevs in Hin. }
    apply elem_of_app in Hin as [Hin|Hin].
    { rewrite Forall_forall in Hevs'. by apply Hevs' in Hin. }
    destruct (0 <? length _)%nat eqn:Hlen; [|by apply elem_of_nil in Hin].
    apply list_elem_of_singleton in Hin as [= ->].
    split_and!; [done| |done].
    intros Hnil. rewrite Hnil in Hlen. done.
  - intros [= <- <-] Hin. exfalso.
    apply elem_of_app in Hin as [Hin|Hin].
    { rewrite Forall_forall in Hevs. by apply Hevs in Hin. }
    revert Hlast Hin. cbn [parse_lines].
    destruct (String.eqb (trim last) "") eqn:Hb; [done|].
    destruct (parseLine _ last) as [[p2 ev]|e2] eqn:Hline.
    + by intros [= <- ?].
    + intros [= <- _] Hin. by apply elem_of_nil in Hin.
Qed.
End ReadLoopFacts.

Section ParseLineFacts.
Variable JSON_parse : string -> Decoded.

Lemma parseLine_v2_14_returns p line p' event :
  String.eqb (trim line) "" = false ->
  V2_14.parseLine JSON_parse p line = Return (p', event) ->
  p' = feed p (option_list (line_record JSON_parse line))
  /\ Forall not_tool_calls (option_list event).
Proof.
  intros Hblank. unfold V2_14.parseLine, line_record. rewrite Hblank.
  destruct (negb (startsWith line "data: ")); [by intros [= <- <-]|].
  destruct (String.eqb (trim (substring_from 6 line)) "end");
    [by intros [= <- <-]|].
  destruct (JSON_parse (substring_from 6 line)) as [r| |m]; cbn; [|done..].
  intros [= Hsw]. split.
  - cbn. by rewrite Hsw.
  - pose proof (switch_not_tool_calls p r) as Hn. by rewrite Hsw in Hn.
Qed.

Lemma parseLine_v2_11_returns p line p' event :
  String.eqb (trim line) "" = false ->
  V2_11.parseLine JSON_parse p line = Return (p', event) ->
  p' = feed p (option_list (line_record JSON_parse line))
  /\ Forall not_tool_calls (option_list event).
Proof.
  intros Hblank. unfold V2_11.parseLine, line_record. rewrite Hblank.
  destruct (negb (startsWith line "data: ")); [by intros [= <- <-]|].
  destruct (String.eqb (trim (substring_from 6 line)) "end");
    [by intros [= <- <-]|].
  destruct (JSON_parse (substring_from 6 line)) as [r| |m]; cbn;
    [|by intros [= <- <-]..].
  intros [= Hsw]. split.
  - cbn. by rewrite Hsw.
  - pose proof (switch_not_tool_calls p r) as Hn. by rewrite Hsw in Hn.
Qed.
End ParseLineFacts.

(* ================================================================== *)
(** * Malformed lines; the calls surfaced to the caller                *)
(* ================================================================== *)

(** C3, as the code has it. A line that begins with the data marker and
    whose payload [JSON.parse] rejects makes the v2.14.0 parser raise an
    [SSEError] carrying the decoder's message, unless the trimmed payload is
    the sentinel [end]; the v2.11.0 parser ignores such a line (no event,
    parser unchanged). The sentinel line is ignored by both versions. *)
Theorem C3_malformed_line (JSON_parse : string -> Decoded)
    (p : SSEParser) (line m : string) :
  startsWith line "data: " = true ->
  trim (substring_from 6 line) ≠ "end" ->
  JSON_parse (substring_from 6 line) = NotJSON m ->
  V2_14.parseLine JSON_parse p line
    = Throw (SSEError ("Failed to parse SSE data chunk: " +:+ m))
  /\ V2_11.parseLine JSON_parse p line = Return (p, None)
  /\ (forall sentinel,
        startsWith sentinel "data: " = true ->
        trim (substring_from 6 sentinel) = "end" ->
        V2_14.parseLine JSON_parse p sentinel = Return (p, None)
        /\ V2_11.parseLine JSON_parse p sentinel = Return (p, None)).
Proof.
  intros Hdata Hend Hparse. unfold V2_14.parseLine, V2_11.parseLine.
  rewrite Hdata. cbn [negb].
  destruct (String.eqb_spec (trim (substring_from 6 line)) "end"); [done|].
  rewrite Hparse. cbn. split_and!; [done..|].
  intros sentinel -> ->. by cbn.
Qed.

(** C3 fails as stated: the v2.11.0 parser ignores a data line whose
    payload is not JSON, and the v2.14.0 parser ignores the line [data: end],
    whose payload is not JSON either. *)
Lemma C3_counterexample :
  (startsWith "data: {" "data: " = true
   /\ sample_JSON_parse (substring_from 6 "data: {") = NotJSON "Unexpected token"
   /\ V2_11.parseLine sample_JSON_parse new_SSEParser "data: {"
      = Return (new_SSEParser, None))
  /\ (startsWith "data: end" "data: " = true
      /\ sample_JSON_parse (substring_from 6 "data: end")
         = NotJSON "Unexpected token"
      /\ V2_14.parseLine sample_JSON_parse new_SSEParser "data: end"
         = Return (new_SSEParser, None)).
Proof. repeat split; reflexivity. Qed.

Lemma C3_malformed_line_witness :
  V2_14.parseLine sample_JSON_parse new_SSEParser "data: {"
  = Throw (SSEError "Failed to parse SSE data chunk: Unexpected token").
Proof.
  apply (C3_malformed_line sample_JSON_parse new_SSEParser "data: {"
           "Unexpected token");
    [reflexivity | discriminate | reflexivity].
Defined.

Lemma last_carried_None fs :
  last_carried fs = None <-> Forall (fun f => truthy f = false) fs.
Proof.
  unfold last_carried. rewrite last_None.
  induction fs as [|f fs IH]; [by split; [constructor|]|].
  cbn [omap list_omap]. rewrite Forall_cons, <-IH.
  assert (carried f = None <-> truthy f = false) as Hf.
  { unfold carried, truthy. destruct f as [| |s]; [done..|].
    by destruct (String.eqb s ""). }
  destruct (carried f) as [s|]; split.
  - done.
  - intros [Ht _]. by apply Hf in Ht.
  - intros ->. split; [by apply Hf|done].
  - by intros [_ ?].
Qed.

(** C9, as the code has it. The aggregate event of a stream is emitted only
    with a non-empty list, and each of its calls is the merge of the
    fragments one parallel index received in one flushed batch: its id
    (name) is [null] exactly when no fragment of that index in that batch
    carried a non-empty id (name), and its arguments are the concatenation
    of the fragments' argument texts, whatever they spell. *)
Theorem C9_surfaced_calls (JSON_parse : string -> Decoded)
    (chunks : list string) (events : list StreamEvent)
    (completion : Throws unit) (calls : list ToolCall) (call : ToolCall) :
  read_stream (V2_14.parseLine JSON_parse) chunks = (events, completion) ->
  Ev_tool_calls calls ∈ events ->
  call ∈ calls ->
  calls ≠ []
  /\ exists batch idx,
       batch ∈ flushed_batches (stream_records JSON_parse chunks)
       /\ idx ∈ batch_indices batch
       /\ let frs := fragments_of idx batch in
          call = merged_call frs
          /\ (tc_id call = None
              <-> Forall (fun r => truthy (fragment_id r) = false) frs)
          /\ (tc_name call = None
              <-> Forall (fun r => truthy (fragment_name r) = false) frs)
          /\ tc_arguments call = concatenation (argument_text <$> frs).
Proof.
  intros Hstream Hev Hcall.
  destruct (read_stream_tool_calls JSON_parse _
              (parseLine_v2_14_returns JSON_parse) _ _ _ _ Hstream Hev)
    as (-> & Hne & _).
  split; [done|].
  unfold getFinalResult in Hcall. rewrite finalized_flushed_batches in Hcall.
  apply elem_of_concat in Hcall as (l & Hcall & Hl).
  apply list_elem_of_fmap in Hl as (batch & -> & Hbatch).
  unfold batch_calls, batch_entries in Hcall.
  rewrite <-list_fmap_compose in Hcall.
  apply list_elem_of_fmap in Hcall as (idx & -> & Hidx).
  exists batch, idx. split_and!; [done|by apply ascending_indices_elem_of|].
  cbn. split_and!; [done| | |done].
  - by rewrite last_carried_None, Forall_fmap.
  - by rewrite last_carried_None, Forall_fmap.
Qed.

(** C9 fails as stated: a fragment without id and name, followed by a
    finish signal, surfaces a call whose id and name are [null] and whose
    arguments are the incomplete text [{]. *)
Lemma C9_counterexample :
  read_stream (V2_14.parseLine sample_JSON_parse)
    [ data_line payload_open_brace +:+ data_line payload_finish_tool_calls ]
  = ([Ev_tool_calls [mkToolCall None None "{"]], Return ()).
Proof. vm_compute. reflexivity. Qed.

Lemma C9_surfaced_calls_witness :
  exists batch idx,
    batch ∈ flushed_batches
              (stream_records sample_JSON_parse
                 [ data_line payload_get_weather
                   +:+ data_line payload_finish_tool_calls ])
    /\ idx ∈ batch_indices batch
    /\ mkToolCall (Some "c1") (Some "get_weather") "{}"
       = merged_call (fragments_of idx batch).
Proof.
  destruct (C9_surfaced_calls sample_JSON_parse
              [ data_line payload_get_weather
                +:+ data_line payload_finish_tool_calls ]
              [Ev_tool_calls [mkToolCall (Some "c1") (Some "get_weather") "{}"]]
              (Return ())
              [mkToolCall (Some "c1") (Some "get_weather") "{}"]
              (mkToolCall (Some "c1") (Some "get_weather") "{}"))
    as (_ & batch & idx & Hb & Hi & Hc & _).
  - vm_compute. reflexivity.
  - left.
  - left.
  - exists batch, idx. split_and!; [exact Hb|exact Hi|exact Hc].
Defined.

(* ================================================================== *)
(** * Capability filtering                                             *)
(* ================================================================== *)

Lemma filter_none {A} (P : A -> Prop) `{forall x, Decision (P x)} (l : list A) :
  Forall (fun x => ~ P x) l -> filter P l = [].
Proof.
  induction 1 as [|x l Hx _ IH]; [done|].
  by rewrite filter_cons_False.
Qed.

Lemma key_name_inj k1 k2 : key_name k1 = key_name k2 -> k1 = k2.
Proof. destruct k1, k2; (reflexivity || discriminate). Qed.

Lemma emitting_nil w : emitting w [] = w.
Proof. unfold emitting. rewrite app_nil_r. by destruct w. Qed.

Lemma emitting_app w e1 e2 : emitting (emitting w e1) e2 = emitting w (e1 ++ e2).
Proof. unfold emitting. cbn. by rewrite app_assoc. Qed.

(** The loop under a registered profile: unsupported parameters are
    skipped with one warning each, the others are serialized in order. *)
Lemma loop_registered entries mp profile data w :
  buildParametersArray_loop entries (own mp) profile (Some ()) data w =
    (emitting w ((fun e => warning_for e.1 profile)
                   <$> filter (fun e => supported mp e.1 = false) entries),
     Return (data ++ (filter (fun e => supported mp e.1 = true) entries
                        ≫= wire_entries))).
Proof.
  revert data w. induction entries as [|[key v] entries IH]; intros data w.
  - cbn. by rewrite emitting_nil, app_nil_r.
  - cbn [buildParametersArray_loop]. unfold bind at 1. cbn [permits ret].
    fold (supported mp key). rewrite !filter_cons. cbn [fst].
    destruct (supported mp key) eqn:Hs; cbn [negb].
    + rewrite IH. repeat case_decide; try done.
      cbn [mbind list_bind]. unfold wire_entries at 2. cbn [fst snd].
      by rewrite <-app_assoc.
    + unfold bind, emit. rewrite IH. repeat case_decide; try done.
      rewrite fmap_cons. cbn [fst].
      change (mkWorld (heap w) (emitted w ++ [warning_for key profile])
                (requests w)) with (emitting w [warning_for key profile]).
      by rewrite emitting_app.
Qed.

(** The loop under a profile the registry does not know (and that names
    no member of [Object.prototype]): everything is serialized, silently. *)
Lemma loop_unregistered entries profile emitter data w :
  buildParametersArray_loop entries missing profile emitter data w =
    (w, Return (data ++ (entries ≫= wire_entries))).
Proof.
  revert data. induction entries as [|[key v] entries IH]; intros data.
  - cbn. by rewrite app_nil_r.
  - cbn [buildParametersArray_loop]. unfold bind at 1. cbn [permits ret negb].
    rewrite IH. cbn [mbind list_bind]. unfold wire_entries at 2. cbn [fst snd].
    by rewrite <-app_assoc.
Qed.

Lemma property_read_own {A} (obj : gmap string A) key a :
  obj !! key = Some a -> property_read obj key = own a.
Proof. unfold property_read. by intros ->. Qed.

(** [buildParametersArray] under a registered profile, in full. *)
Lemma buildParametersArray_registered requested tools profile mp w :
  modelProfiles !! profile = Some mp ->
  buildParametersArray requested tools profile (Some ()) w =
    (emitting w ((fun e => warning_for e.1 profile)
                   <$> filter (fun e => supported mp e.1 = false) requested),
     Return
       (let data :=
          (if ((0 <? length tools)%nat && supported mp TOOLS)%bool
           then tools_entries tools else [])
          ++ (filter (fun e => supported mp e.1 = true) requested
                ≫= wire_entries) in
        if (0 <? length data)%nat then Some data else None)).
Proof.
  intros Hmp. unfold buildParametersArray.
  rewrite (property_read_own _ _ _ Hmp).
  unfold bind at 1.
  destruct (0 <? length tools)%nat; cbn [andb].
  - unfold bind at 1. cbn [permits ret]. fold (supported mp TOOLS).
    destruct (supported mp TOOLS); cbn [ret];
      unfold bind; rewrite loop_registered; reflexivity.
  - cbn [ret]. unfold bind. rewrite loop_registered. reflexivity.
Qed.

(** Filtering, at the level of [buildParametersArray]: a requested
    parameter the profile does not list is left out of the payload and
    warned about once. *)
Lemma capability_filtering_payload
    (requested : Params) (tools : list ToolDefinition) (profile : string)
    (mp : ModelProfile) (P : ParamKey) (v : JSValue) (w : World) :
  modelProfiles !! profile = Some mp ->
  NoDup requested.*1 ->
  (P, v) ∈ requested ->
  supported mp P = false ->
  exists payload warnings,
    buildParametersArray requested tools profile (Some ()) w
      = (emitting w warnings, Return payload)
    /\ (forall t, data_def t (fqdn (LLMParameters P)) ∉ default [] payload)
    /\ length (filter (fun e => names_parameter P profile e = true) warnings)
       = 1%nat
    /\ warning_for P profile ∈ warnings
    /\ exists warnings',
         buildParametersArray (filter (fun e => e.1 ≠ P) requested) tools
           profile (Some ()) w
         = (emitting w warnings', Return payload).
Proof.
  intros Hmp Hnd Hin HP.
  eexists _, _. split; [by apply buildParametersArray_registered|].
  split_and!.
  - intros t Hdef.
    set (kept := filter (fun e => supported mp e.1 = true) requested) in *.
    assert (data_def t (fqdn (LLMParameters P)) ∈
              (if ((0 <? length tools)%nat && supported mp TOOLS)%bool
               then tools_entries tools else []) ++ (kept ≫= wire_entries))
      as Hdef'.
    { cbv zeta in Hdef. destruct (0 <? length _)%nat; [done|].
      by apply elem_of_nil in Hdef. }
    clear Hdef. apply elem_of_app in Hdef' as [Htools|Hkept].
    + destruct (0 <? length tools)%nat; cbn [andb] in Htools;
        [|by apply elem_of_nil in Htools].
      destruct (supported mp TOOLS) eqn:Ht; [|by apply elem_of_nil in Htools].
      unfold tools_entries in Htools.
      apply elem_of_cons in Htools as [[= _ Hf]|Htools].
      * unfold supported in HP, Ht. rewrite Hf in HP. cbn in Ht. congruence.
      * apply list_elem_of_singleton in Htools. discriminate.
    + apply list_elem_of_bind in Hkept as ([k x] & Hw & Hk).
      apply list_elem_of_filter in Hk as [Hsup _]. cbn [fst] in Hsup.
      unfold wire_entries in Hw. cbn [fst snd] in Hw.
      apply elem_of_cons in Hw as [[= _ Hf]|Hw].
      * unfold supported in HP, Hsup. rewrite Hf in HP. congruence.
      * apply list_elem_of_singleton in Hw. discriminate.
  - clear Hmp. induction requested as [|[k x] requested IH];
      [by apply elem_of_nil in Hin|].
    rewrite fmap_cons in Hnd. apply NoDup_cons in Hnd as [Hk Hnd].
    rewrite filter_cons. cbn [fst].
    apply elem_of_cons in Hin as [[= <- <-]|Hin].
    + rewrite decide_True by done. rewrite fmap_cons, filter_cons.
      rewrite decide_True.
      2:{ cbn. by rewrite bool_decide_true. }
      cbn [length]. f_equal.
      rewrite filter_none; [done|]. apply Forall_forall.
      intros e He. apply list_elem_of_fmap in He as ([k' x'] & -> & He).
      apply list_elem_of_filter in He as [_ He]. cbn.
      rewrite bool_decide_false; [done|].
      intros [Hname%key_name_inj _]. subst k'.
      apply Hk. apply list_elem_of_fmap. by exists (P, x').
    + assert (k ≠ P) as Hne.
      { intros ->. apply Hk. apply list_elem_of_fmap. by exists (P, v). }
      case_decide.
      * rewrite fmap_cons, filter_cons. rewrite decide_False; [by apply IH|].
        cbn. rewrite bool_decide_false; [done|].
        intros [Hname%key_name_inj _]. done.
      * by apply IH.
  - apply list_elem_of_fmap. exists (P, v). split; [done|].
    by apply list_elem_of_filter.
  - eexists. rewrite (buildParametersArray_registered _ _ _ _ _ Hmp).
    f_equal. f_equal.
    assert (filter (fun e => supported mp e.1 = true)
              (filter (fun e => e.1 ≠ P) requested)
            = filter (fun e => supported mp e.1 = true) requested) as ->;
      [|done].
    clear -HP. induction requested as [|[k x] requested IH]; [done|].
    rewrite !filter_cons. cbn [fst].
    destruct (decide (k ≠ P)) as [Hne|Heq].
    + rewrite filter_cons. cbn [fst]. rewrite IH. done.
    + assert (k = P) as -> by (by destruct (decide (k = P))).
      rewrite decide_False by congruence. apply IH.
Qed.

(** Under a profile the registry does not know, and whose name is no
    member of [Object.prototype], nothing is filtered and nothing is
    emitted: the tools parameter is included whenever tools are configured
    and every requested parameter is serialized. *)
Lemma unregistered_profile_permits_everything
    (requested : Params) (tools : list ToolDefinition) (profile : string)
    (emitter : option EventEmitter) (w : World) :
  property_read modelProfiles profile = missing ->
  buildParametersArray requested tools profile emitter w =
    (w, Return
          (let data :=
             (if (0 <? length tools)%nat then tools_entries tools else [])
             ++ (requested ≫= wire_entries) in
           if (0 <? length data)%nat then Some data else None)).
Proof.
  intros Hmissing. unfold buildParametersArray. rewrite Hmissing.
  unfold bind at 1. destruct (0 <? length tools)%nat.
  - unfold bind at 1. cbn [permits ret]. unfold bind.
    by rewrite loop_unregistered.
  - cbn [ret]. unfold bind. by rewrite loop_unregistered.
Qed.

(** C5, at the failing input. The profile name [constructor] is not in the
    registry, yet [modelProfiles['constructor']] is [Object]: assembling a
    request with a tool, or with any parameter, raises a [TypeError]
    instead of letting everything through. *)
Theorem C5_inherited_profile_name_raises (w : World) (tool : ToolDefinition)
    (P : ParamKey) (v : JSValue) :
  modelProfiles !! "constructor" = None
  /\ buildParametersArray [] [tool] "constructor" (Some ()) w
     = (w, Throw (TypeError
                    "Cannot read properties of undefined (reading 'has')"))
  /\ buildParametersArray [(P, v)] [] "constructor" (Some ()) w
     = (w, Throw (TypeError
                    "Cannot read properties of undefined (reading 'has')")).
Proof.
  assert (modelProfiles !! "constructor" = None) as Hnone
    by (vm_compute; reflexivity).
  assert (property_read modelProfiles "constructor" = inherited) as Hread.
  { unfold property_read. rewrite Hnone. reflexivity. }
  split_and!; [done|..]; unfold buildParametersArray; rewrite Hread;
    reflexivity.
Qed.

(* ================================================================== *)
(** * Request assembly                                                 *)
(* ================================================================== *)

Lemma bind_Return {A B} (m : M A) (k : A -> M B) w w' a :
  m w = (w', Return a) -> bind m k w = k a w'.
Proof. unfold bind. by intros ->. Qed.

Lemma bind_Throw {A B} (m : M A) (k : A -> M B) w w' e :
  m w = (w', Throw e) -> bind m k w = (w', Throw e).
Proof. unfold bind. by intros ->. Qed.

(** The loop only emits; it raises only under an inherited profile name. *)
Lemma loop_frame entries modelProfile profile emitter data w :
  exists events r,
    buildParametersArray_loop entries modelProfile profile emitter data w
    = (emitting w events, r)
    /\ (modelProfile ≠ inherited -> exists d, r = Return d).
Proof.
  revert data w. induction entries as [|[key v] entries IH]; intros data w.
  - exists [], (Return data). rewrite emitting_nil. split; [done|]. by eexists.
  - cbn [buildParametersArray_loop].
    destruct modelProfile as [mp| |].
    + unfold bind at 1. cbn [permits ret].
      destruct (Set_has _ _); cbn [negb]; [apply IH|].
      destruct emitter as [[]|].
      * unfold bind, emit.
        destruct (IH data (emitting w [warning_for key profile]))
          as (events & r & Hrun & Hr).
        unfold emitting at 1 in Hrun. rewrite Hrun.
        exists (warning_for key profile :: events), r.
        split; [|done]. rewrite emitting_app. done.
      * unfold bind, ret. apply IH.
    + exists [], (Throw (TypeError
                    "Cannot read properties of undefined (reading 'has')")).
      rewrite emitting_nil. split; [done|]. by intros [].
    + unfold bind at 1. cbn [permits ret negb]. apply IH.
Qed.

Lemma buildParametersArray_frame requested tools profile emitter w :
  exists events r,
    buildParametersArray requested tools profile emitter w
    = (emitting w events, r)
    /\ (property_read modelProfiles profile ≠ inherited ->
        exists payload, r = Return payload).
Proof.
  unfold buildParametersArray.
  set (lookup := property_read modelProfiles profile).
  assert (forall data,
    exists events r,
      (data' <- buildParametersArray_loop requested lookup profile emitter
                  data ;;
       ret (if (0 <? length data')%nat then Some data' else None)) w
      = (emitting w events, r)
      /\ (lookup ≠ inherited -> exists payload, r = Return payload)) as Hloop.
  { intros data.
    destruct (loop_frame requested lookup profile emitter data w)
      as (events & [d|e] & Hrun & Hr).
    - exists events. eexists. rewrite (bind_Return _ _ _ _ _ Hrun).
      split; [done|]. by eexists.
    - exists events. eexists. rewrite (bind_Throw _ _ _ _ _ Hrun).
      split; [done|]. intros Hl. by destruct (Hr Hl). }
  unfold bind at 1. destruct (0 <? length tools)%nat; [|apply Hloop].
  unfold bind at 1. destruct lookup as [mp| |]; cbn [permits ret].
  - destruct (Set_has _ _); apply Hloop.
  - exists []. eexists. rewrite emitting_nil. split; [done|]. by intros [].
  - apply Hloop.
Qed.

Lemma lookup_snoc {A} (l : list A) (x : A) : (l ++ [x]) !! length l = Some x.
Proof. by apply list_lookup_middle. Qed.

Lemma insert_snoc {A} (l : list A) (x y : A) :
  <[length l := y]> (l ++ [x]) = l ++ [y].
Proof.
  rewrite <-(Nat.add_0_r (length l)) at 1. by rewrite insert_app_r.
Qed.

Section Assembly.
Variable Date_now : World -> Z.

Lemma buildRequestBody_v2_14_unfold this messages w :
  V2_14.buildRequestBody Date_now this messages w =
    let w1 := assembled this messages w in
    match buildParametersArray (s_parameters this) (s_tools this)
            (s_profile this) (Some ()) w1 with
    | (w2, Return parametersData) =>
        (w2, Return (mkRequestData (s_profile this)
                       ("js-sdk-prompt-" +:+ pretty (Date_now w1))
                       (length (heap w)) parametersData))
    | (w2, Throw e) => (w2, Throw e)
    end.
Proof.
  unfold V2_14.buildRequestBody, assembled, request_messages.
  unfold bind at 1. cbn [Array_read].
  unfold bind at 1. cbn [new_Array].
  set (original := default [] (heap w !! messages)).
  unfold bind at 1.
  destruct (configured (s_systemMessage this)) as [s|].
  - destruct (existsb is_system_message original); cbn [negb ret].
    + unfold bind at 1. unfold bind. cbn [heap emitted requests].
      by destruct (buildParametersArray _ _ _ _ _) as [w2 [pd|e]].
    + unfold Array_unshift, Array_read, Array_write, bind at 1 2.
      cbn [heap emitted requests]. rewrite lookup_snoc. cbn [default].
      rewrite insert_snoc. unfold bind.
      by destruct (buildParametersArray _ _ _ _ _) as [w2 [pd|e]].
  - cbn [ret]. unfold bind.
    by destruct (buildParametersArray _ _ _ _ _) as [w2 [pd|e]].
Qed.

Lemma buildRequestBody_v2_11_unfold this messages isFirstTurn w :
  V2_11.buildRequestBody Date_now this messages isFirstTurn w =
    let w1 := assembled this messages w in
    match buildParametersArray
            (if isFirstTurn then s_parameters this else [])
            (s_tools this) (s_profile this) (Some ()) w1 with
    | (w2, Return parametersData) =>
        (w2, Return (mkRequestData (s_profile this)
                       ("js-sdk-prompt-" +:+ pretty (Date_now w1))
                       (length (heap w)) parametersData))
    | (w2, Throw e) => (w2, Throw e)
    end.
Proof.
  unfold V2_11.buildRequestBody, assembled, request_messages.
  unfold bind at 1. cbn [Array_read].
  unfold bind at 1. cbn [new_Array].
  set (original := default [] (heap w !! messages)).
  unfold bind at 1.
  destruct (configured (s_systemMessage this)) as [s|].
  - destruct (existsb is_system_message original); cbn [negb ret].
    + unfold bind at 1. unfold bind. cbn [heap emitted requests].
      by destruct (buildParametersArray _ _ _ _ _) as [w2 [pd|e]].
    + unfold Array_unshift, Array_read, Array_write, bind at 1 2.
      cbn [heap emitted requests]. rewrite lookup_snoc. cbn [default].
      rewrite insert_snoc. unfold bind.
      by destruct (buildParametersArray _ _ _ _ _) as [w2 [pd|e]].
  - cbn [ret]. unfold bind.
    by destruct (buildParametersArray _ _ _ _ _) as [w2 [pd|e]].
Qed.
End Assembly.

(** C8, as the code has it (both versions). With a non-empty system
    message configured, the request's message list is a new array, distinct
    from the caller's, which holds the history with the system message
    prepended when the history contains no system message at any position,
    and the history as it is when it contains one (in particular when it
    starts with one); the caller's array is left as it was. *)
Theorem C8_system_message_prepended (Date_now : World -> Z)
    (this : ChatSession) (messages : Ref) (history : list ChatMessage)
    (s : string) (isFirstTurn : bool) (w : World) :
  heap w !! messages = Some history ->
  configured (s_systemMessage this) = Some s ->
  property_read modelProfiles (s_profile this) ≠ inherited ->
  let expected :=
    if existsb is_system_message history then history
    else system_message s :: history in
  (exists w' requestData,
      V2_14.buildRequestBody Date_now this messages w
        = (w', Return requestData)
      /\ rd_messages requestData ≠ messages
      /\ heap w' !! rd_messages requestData = Some expected
      /\ heap w' !! messages = Some history)
  /\ (exists w' requestData,
        V2_11.buildRequestBody Date_now this messages isFirstTurn w
          = (w', Return requestData)
        /\ rd_messages requestData ≠ messages
        /\ heap w' !! rd_messages requestData = Some expected
        /\ heap w' !! messages = Some history)
  /\ (forall c rest, history = system_message c :: rest -> expected = history).
Proof.
  intros Hhist Hconf Hprofile expected.
  assert (request_messages (s_systemMessage this)
            (default [] (heap w !! messages)) = expected) as Hsent.
  { unfold request_messages. by rewrite Hconf, Hhist. }
  pose proof (lookup_lt_Some _ _ _ Hhist) as Hlt.
  assert (forall requested,
    exists w' parametersData,
      buildParametersArray requested (s_tools this) (s_profile this)
        (Some ()) (assembled this messages w) = (w', Return parametersData)
      /\ heap w' = heap w ++ [expected]) as Hparams.
  { intros requested.
    destruct (buildParametersArray_frame requested (s_tools this)
                (s_profile this) (Some ()) (assembled this messages w))
      as (events & r & Hrun & Hr).
    destruct (Hr Hprofile) as [payload ->].
    eexists _, payload. split; [exact Hrun|].
    cbn. by rewrite Hsent. }
  split_and!.
  - destruct (Hparams (s_parameters this)) as (w' & pd & Hrun & Hheap).
    exists w'. eexists. rewrite buildRequestBody_v2_14_unfold. cbv zeta.
    rewrite Hrun. split; [done|]. cbn [rd_messages]. rewrite Hheap.
    split_and!; [lia|apply lookup_snoc|by apply lookup_app_l_Some].
  - destruct (Hparams (if isFirstTurn then s_parameters this else []))
      as (w' & pd & Hrun & Hheap).
    exists w'. eexists. rewrite buildRequestBody_v2_11_unfold. cbv zeta.
    rewrite Hrun. split; [done|]. cbn [rd_messages]. rewrite Hheap.
    split_and!; [lia|apply lookup_snoc|by apply lookup_app_l_Some].
  - intros c rest ->. reflexivity.
Qed.

(** C8 fails as stated: a history that does not start with a system
    message but contains one further on gets nothing prepended. *)
Lemma C8_counterexample :
  let history := [user_message "hi"; system_message "be brief"] in
  let this := mkSession "openai-gpt-4o" [] [] (Some "You are helpful.") in
  let w := mkWorld [history] [] [] in
  V2_14.buildRequestBody (fun _ => 0) this 0%nat w
  = (mkWorld [history; history] [] [],
     Return (mkRequestData "openai-gpt-4o" "js-sdk-prompt-0" 1%nat None)).
Proof. vm_compute. reflexivity. Qed.

Lemma C8_system_message_prepended_witness :
  let history := [user_message "2+2?"] in
  let this := mkSession "openai-gpt-4o" [] [] (Some "You are helpful.") in
  let w := mkWorld [history] [] [] in
  exists w' requestData,
    V2_14.buildRequestBody (fun _ => 0) this 0%nat w = (w', Return requestData)
    /\ heap w' !! rd_messages requestData
       = Some [system_message "You are helpful."; user_message "2+2?"]
    /\ heap w' !! 0%nat = Some history.
Proof.
  intros history this w.
  destruct (C8_system_message_prepended (fun _ => 0) this 0%nat history
              "You are helpful." true w)
    as [(w' & rd & Hrun & _ & Hsent & Hkept) _].
  - reflexivity.
  - reflexivity.
  - vm_compute. discriminate.
  - exists w', rd. split_and!; [exact Hrun|exact Hsent|exact Hkept].
Defined.

(* ================================================================== *)
(** * The suspendable step (v2.14.0)                                   *)
(* ================================================================== *)

Lemma resultValue_payload result :
  resultValue result =
    if res_success result then res_result result else failure_payload result.
Proof.
  unfold resultValue, failure_payload. destruct (res_success result); [done|].
  do 4 f_equal. unfold truthy, carried, ToString.
  destruct (res_error result) as [| |s]; [done..|].
  by destruct (String.eqb s "").
Qed.

(** The [forEach] of [step]: when every result has its call, the entries
    of call and result are pushed, pair after pair, on [finalMessages]. *)
Lemma forEach_result_pushes results index toolCalls finalMessages old w :
  heap w !! finalMessages = Some old ->
  (length results + index <= length toolCalls)%nat ->
  V2_14.forEach_result finalMessages toolCalls results index w =
    (mkWorld
       (<[finalMessages :=
            old ++ (zip (drop index toolCalls) results ≫= call_and_result)]>
          (heap w))
       (emitted w) (requests w),
     Return ()).
Proof.
  revert index old w.
  induction results as [|result results IH]; intros index old w Hold Hlen.
  - cbn [V2_14.forEach_result ret]. rewrite zip_with_nil_r.
    cbn [mbind list_bind]. rewrite app_nil_r, list_insert_id by done.
    by destruct w.
  - cbn [V2_14.forEach_result length] in *.
    destruct (lookup_lt_is_Some_2 toolCalls index) as [call Hcall]; [lia|].
    rewrite Hcall. rewrite (drop_S _ _ _ Hcall).
    pose proof (lookup_lt_Some _ _ _ Hold) as Hlt.
    unfold Array_push, Array_read, Array_write, bind at 1 2 3 4.
    cbn [heap emitted requests]. rewrite Hold. cbn [default].
    rewrite list_lookup_insert_eq by done. cbn [default].
    rewrite list_insert_insert_eq. unfold bind.
    rewrite (IH (S index) ((old ++ [createAssistantToolCallMessage
                                     (tc_id call) (tc_name call)
                                     (tc_arguments call)])
                           ++ [createToolResultMessage (tc_id call)
                                 (tc_name call)
                                 (JSON_stringify (resultValue result))])).
    + cbn [heap emitted requests]. rewrite list_insert_insert_eq.
      do 3 f_equal. cbn [zip_with mbind list_bind call_and_result].
      rewrite resultValue_payload. by rewrite <-!app_assoc.
    + cbn [heap]. by apply list_lookup_insert_eq.
    + lia.
Qed.

Section StepFacts.
Variable JSON_parse : string -> Decoded.
Variable fetchWithRetry :
  list RequestBody -> string -> RequestBody -> Throws (list string).
Variable Date_now : World -> Z.

Local Abbreviation stream :=
  (V2_14.stream JSON_parse fetchWithRetry Date_now).
Local Abbreviation step := (V2_14.step JSON_parse fetchWithRetry Date_now).

(** [stream] on an array: the assembler's copy is the only allocation;
    at most one request is sent, after the warnings of the assembly. *)
Lemma stream_unfold this messages w :
  stream this (Input_array messages) w =
    let w1 := assembled this messages w in
    match buildParametersArray (s_parameters this) (s_tools this)
            (s_profile this) (Some ()) w1 with
    | (w2, Throw e) => (w2, Throw e)
    | (w2, Return parametersData) =>
        let body :=
          mkRequestBody (s_profile this)
            ("js-sdk-prompt-" +:+ pretty (Date_now w1))
            (default [] (heap w2 !! length (heap w))) parametersData in
        (mkWorld (heap w2) (emitted w2) (requests w2 ++ [body]),
         match fetchWithRetry (requests w2) "/llm/chat/stream/v8" body with
         | Return chunks =>
             Return (read_stream (V2_14.parseLine JSON_parse) chunks)
         | Throw e => Throw e
         end)
    end.
Proof.
  unfold V2_14.stream. unfold bind at 1. cbn [ret].
  unfold bind at 1. rewrite buildRequestBody_v2_14_unfold. cbv zeta.
  destruct (buildParametersArray _ _ _ _ _) as [w2 [pd|e]]; [|done].
  unfold stringify_request, Array_read, V2_14.send, bind, ret.
  cbn [rd_messages rd_profile rd_prompt rd_parameters].
  by destruct (fetchWithRetry _ _ _).
Qed.

Lemma stream_heap this messages w w' r :
  stream this (Input_array messages) w = (w', r) ->
  exists sent, heap w' = heap w ++ [sent].
Proof.
  rewrite stream_unfold. cbv zeta.
  destruct (buildParametersArray_frame (s_parameters this) (s_tools this)
              (s_profile this) (Some ()) (assembled this messages w))
    as (events & r' & -> & _).
  destruct r' as [pd|e]; intros [= <- _]; by eexists.
Qed.

(** What a suspended [step] holds. *)
Lemma step_tool_request this messages force w w1 calls suspended :
  step this messages force w = (w1, Return (V2_14.tool_request calls suspended)) ->
  V2_14.sus_toolCalls suspended = calls
  /\ V2_14.sus_finalMessages suspended = length (heap w)
  /\ calls ≠ []
  /\ exists sent,
       heap w1 = (heap w ++ [default [] (heap w !! messages)]) ++ [sent].
Proof.
  unfold V2_14.step. unfold bind at 1. cbn [Array_read].
  unfold bind at 1. cbn [new_Array]. unfold bind at 1.
  destruct (stream _ _ _) as [w' [[events completion]|e]] eqn:Hstream;
    [|done].
  apply stream_heap in Hstream as [sent Hheap]. cbn [heap] in Hheap.
  destruct (collect events) as [assistantResponse toolCalls].
  destruct completion as [[]|e]; [|done].
  destruct (0 <? length toolCalls)%nat eqn:Hlen.
  - unfold bind, emit, ret. intros [= <- <- <-].
    cbn. split_and!; [done..| |by eexists].
    intros ->. done.
  - unfold bind, Array_push, Array_read, Array_write, bind, ret. done.
Qed.
End StepFacts.

(** C4. Under a profile of the registry, a requested parameter P whose
    wire key the profile does not list is left out of the payload, which is
    the payload the same request without P gets; exactly one capability
    warning naming P and the profile is emitted; the assembly returns
    normally and the request, carrying that payload, is sent. (The keys of
    the parameters object are distinct, as the properties of an object are;
    [buildParametersArray] is the same text in v2.11.0 and v2.14.0.) *)
Theorem C4_capability_filtering (JSON_parse : string -> Decoded)
    (fetchWithRetry :
       list RequestBody -> string -> RequestBody -> Throws (list string))
    (Date_now : World -> Z)
    (this : ChatSession) (messages : Ref) (mp : ModelProfile)
    (P : ParamKey) (v : JSValue) (w : World) :
  modelProfiles !! s_profile this = Some mp ->
  NoDup (s_parameters this).*1 ->
  (P, v) ∈ s_parameters this ->
  supported mp P = false ->
  exists payload warnings,
    buildParametersArray (s_parameters this) (s_tools this) (s_profile this)
      (Some ()) w
    = (emitting w warnings, Return payload)
    /\ (forall t, data_def t (fqdn (LLMParameters P)) ∉ default [] payload)
    /\ length (filter (fun e => names_parameter P (s_profile this) e = true)
                 warnings) = 1%nat
    /\ (exists warnings',
          buildParametersArray (filter (fun e => e.1 ≠ P) (s_parameters this))
            (s_tools this) (s_profile this) (Some ()) w
          = (emitting w warnings', Return payload))
    /\ exists w' body,
         V2_14.stream JSON_parse fetchWithRetry Date_now this
           (Input_array messages) w
         = (w',
            match fetchWithRetry (requests w) "/llm/chat/stream/v8" body with
            | Return chunks =>
                Return (read_stream (V2_14.parseLine JSON_parse) chunks)
            | Throw e => Throw e
            end)
         /\ requests w' = requests w ++ [body]
         /\ body_parameters body = payload
         /\ emitted w' = emitted w ++ warnings.
Proof.
  intros Hmp Hnd Hin HP.
  destruct (capability_filtering_payload (s_parameters this) (s_tools this)
              (s_profile this) mp P v w Hmp Hnd Hin HP)
    as (payload & warnings & Hrun & Hout & Hone & _ & Hsame).
  exists payload, warnings. split_and!; [done..|].
  pose proof Hrun as Hrun'.
  rewrite (buildParametersArray_registered _ _ _ _ _ Hmp) in Hrun'.
  injection Hrun' as Hw Hp.
  assert ((fun e : ParamKey * JSValue => warning_for e.1 (s_profile this))
            <$> filter (fun e => supported mp e.1 = false) (s_parameters this)
          = warnings) as Hwarnings.
  { by apply app_inv_head in Hw. }
  rewrite stream_unfold. cbv zeta.
  rewrite (buildParametersArray_registered _ _ _ _ _ Hmp).
  cbv zeta in Hp |- *. rewrite Hwarnings, Hp.
  cbn [heap emitted requests emitting assembled].
  eexists _, _. split; [reflexivity|]. cbn [requests emitted body_parameters].
  done.
Qed.

Lemma C4_capability_filtering_witness :
  let this :=
    mkSession "openai-o1-mini" []
      [(TOP_K, JNumber 40); (SEED, JNumber 7)] None in
  exists payload warnings,
    buildParametersArray (s_parameters this) [] "openai-o1-mini" (Some ())
      new_World
    = (emitting new_World warnings, Return payload)
    /\ (forall t, data_def t "llm.parameters.top-k" ∉ default [] payload)
    /\ length (filter
                 (fun e => names_parameter TOP_K "openai-o1-mini" e = true)
                 warnings) = 1%nat.
Proof.
  intros this.
  destruct (C4_capability_filtering sample_JSON_parse sample_fetch
              sample_Date_now this 0%nat
              (mkProfile "OpenAI"
                 (new_Set (fqdns [LENGTH; SEED; NUMBER_OF_CHOICES])))
              TOP_K (JNumber 40) new_World)
    as (payload & warnings & Hrun & Hout & Hone & _).
  - vm_compute. reflexivity.
  - apply NoDup_cons. split; [|apply NoDup_singleton].
    intros H%list_elem_of_singleton. discriminate.
  - left.
  - vm_compute. reflexivity.
  - exists payload, warnings. split_and!; [exact Hrun|exact Hout|exact Hone].
Defined.

(** C7. After one full tool round-trip of [step] (the model asks for
    [k >= 1] tool calls, the caller resumes with [k] results), the history
    returned is a new array that holds the input history, unchanged and in
    place, followed by two entries per tool call in call order: the
    assistant's tool call and, right after it, the tool result, which for a
    failed result is the structured payload [{ error }]; the resumption
    returns normally and the caller's array is left as it was. *)
Theorem C7_history_fidelity (JSON_parse : string -> Decoded)
    (fetchWithRetry :
       list RequestBody -> string -> RequestBody -> Throws (list string))
    (Date_now : World -> Z)
    (this : ChatSession) (messages : Ref) (forceTextResponse : bool)
    (history : list ChatMessage) (w w1 : World)
    (calls : list ToolCall) (suspended : V2_14.Suspended)
    (results : list ToolExecutionResult) :
  heap w !! messages = Some history ->
  V2_14.step JSON_parse fetchWithRetry Date_now this messages
    forceTextResponse w
    = (w1, Return (V2_14.tool_request calls suspended)) ->
  length results = length calls ->
  exists w2 response,
    V2_14.step_resume suspended results w1 = (w2, Return response)
    /\ V2_14.response_messages response ≠ messages
    /\ heap w2 !! V2_14.response_messages response
       = Some (history ++ (zip calls results ≫= call_and_result))
    /\ length (zip calls results ≫= call_and_result) = (2 * length calls)%nat
    /\ (1 <= length calls)%nat
    /\ heap w2 !! messages = Some history.
Proof.
  intros Hhist Hstep Hlen.
  apply step_tool_request in Hstep as (Hcalls & Hfinal & Hne & sent & Hheap).
  rewrite Hhist in Hheap. cbn [default] in Hheap.
  pose proof (lookup_lt_Some _ _ _ Hhist) as Hlt.
  assert (heap w1 !! length (heap w) = Some history) as Hold.
  { rewrite Hheap. apply lookup_app_l_Some, lookup_snoc. }
  unfold V2_14.step_resume. unfold bind at 1, emit at 1. unfold bind at 1.
  rewrite Hfinal, Hcalls.
  rewrite (forEach_result_pushes results 0 calls (length (heap w)) history);
    [|done|lia].
  cbn [ret heap emitted requests drop].
  eexists _, _. split; [reflexivity|].
  cbn [V2_14.response_messages heap].
  split_and!.
  - lia.
  - apply list_lookup_insert_eq. by eapply lookup_lt_Some.
  - clear -Hlen. revert results Hlen.
    induction calls as [|call calls IH]; intros [|result results] Hlen;
      try done.
    cbn [zip_with mbind list_bind length]. rewrite length_app.
    rewrite IH by (cbn in Hlen; lia). cbn. lia.
  - destruct calls; [done|cbn; lia].
  - rewrite list_lookup_insert_ne by lia.
    rewrite Hheap. by do 2 apply lookup_app_l_Some.
Qed.

Lemma C7_history_fidelity_witness :
  let this := new_ChatSession "openai-gpt-4o" in
  let w := mkWorld [[user_message "Weather in Paris?"]] [] [] in
  let results :=
    [mkResult (Some "get_weather") false JUndefined
       (given "Tool 'get_weather' not found.")] in
  exists w1 calls suspended w2 response,
    V2_14.step sample_JSON_parse sample_fetch sample_Date_now this 0%nat
      false w
    = (w1, Return (V2_14.tool_request calls suspended))
    /\ V2_14.step_resume suspended results w1 = (w2, Return response)
    /\ heap w2 !! V2_14.response_messages response
       = Some [ user_message "Weather in Paris?";
                assistant_message_tool (Some "c1") (Some "get_weather") "{}";
                tool_message (Some "c1") (Some "get_weather")
                  (JSON_stringify
                     (JObject [("error",
                                JString "Tool 'get_weather' not found.")])) ].
Proof.
  intros this w results.
  assert (exists w1 suspended,
            V2_14.step sample_JSON_parse sample_fetch sample_Date_now this
              0%nat false w
            = (w1, Return (V2_14.tool_request
                             [mkToolCall (Some "c1") (Some "get_weather") "{}"]
                             suspended)))
    as (w1 & suspended & Hstep).
  { vm_compute. eexists _, _. reflexivity. }
  destruct (C7_history_fidelity sample_JSON_parse sample_fetch
              sample_Date_now this 0%nat false
              [user_message "Weather in Paris?"] w w1 _ suspended results
              eq_refl Hstep eq_refl)
    as (w2 & response & Hresume & _ & Hheap & _).
  exists w1, [mkToolCall (Some "c1") (Some "get_weather") "{}"], suspended,
    w2, response.
  split_and!; [exact Hstep|exact Hresume|exact Hheap].
Defined.

(* ================================================================== *)
(** * The automatic driver                                             *)
(* ================================================================== *)

Lemma toolMessagesPayload_returns results index toolCalls :
  (length results + index <= length toolCalls)%nat ->
  exists payload,
    V2_11.toolMessagesPayload toolCalls results index = Return payload.
Proof.
  revert index. induction results as [|result results IH]; intros index Hlen.
  - by eexists.
  - cbn [V2_11.toolMessagesPayload length] in *.
    destruct (lookup_lt_is_Some_2 toolCalls index) as [call ->]; [lia|].
    destruct (IH (S index)) as [payload ->]; [lia|]. by eexists.
Qed.

Section RunFacts.
Variable JSON_parse : string -> Decoded.
Variable JSON_parse_value : string -> Throws JSValue.
Variable fetchWithRetry :
  list RequestBody -> string -> RequestBody -> Throws (list string).
Variable Date_now : World -> Z.

Local Abbreviation stream :=
  (V2_14.stream JSON_parse fetchWithRetry Date_now).
Local Abbreviation step := (V2_14.step JSON_parse fetchWithRetry Date_now).
Local Abbreviation run_loop :=
  (V2_14.run_loop JSON_parse JSON_parse_value fetchWithRetry Date_now).
Local Abbreviation run :=
  (V2_14.run JSON_parse JSON_parse_value fetchWithRetry Date_now).

Lemma step_unfold this messages force w :
  step this messages force w =
    let session := if force then V2_14.forced_session this else this in
    let w0 :=
      mkWorld (heap w ++ [default [] (heap w !! messages)])
        (emitted w) (requests w) in
    match stream session (Input_array messages) w0 with
    | (w1, Throw e) => (w1, Throw e)
    | (w1, Return (events, Throw e)) => (w1, Throw e)
    | (w1, Return (events, Return _)) =>
        if (0 <? length (collect events).2)%nat then
          (emitting w1 [tool_start (collect events).2],
           Return (V2_14.tool_request (collect events).2
                     (V2_14.mkSuspended (collect events).2
                        (collect events).1 (length (heap w)))))
        else
          (mkWorld
             (<[length (heap w) :=
                  default [] (heap w1 !! length (heap w))
                  ++ [createAssistantTextMessage (collect events).1]]>
                (heap w1))
             (emitted w1) (requests w1),
           Return (V2_14.done
                     (V2_14.mkTextResponse (collect events).1
                        (length (heap w)))))
    end.
Proof.
  unfold V2_14.step. unfold bind at 1. cbn [Array_read].
  unfold bind at 1. cbn [new_Array]. unfold bind at 1. cbv zeta.
  destruct (stream _ _ _) as [w1 [[events completion]|e]]; [|done].
  destruct (collect events) as [assistantResponse toolCalls].
  cbn [fst snd]. destruct completion as [[]|e]; [|done].
  destruct (0 <? length toolCalls)%nat; [done|].
  unfold Array_push, Array_read, Array_write, bind, ret. done.
Qed.

(** A resumption with no more results than calls returns. *)
Lemma step_resume_returns suspended results w old :
  heap w !! V2_14.sus_finalMessages suspended = Some old ->
  (length results <= length (V2_14.sus_toolCalls suspended))%nat ->
  exists w',
    V2_14.step_resume suspended results w
    = (w', Return (V2_14.mkTextResponse
                     (V2_14.sus_assistantResponse suspended)
                     (V2_14.sus_finalMessages suspended)))
    /\ requests w' = requests w
    /\ emitted w' = emitted w ++ [tool_finish results]
    /\ length (heap w') = length (heap w).
Proof.
  intros Hold Hlen. unfold V2_14.step_resume.
  unfold bind at 1, emit at 1. unfold bind at 1.
  rewrite (forEach_result_pushes results 0 _ _ old); [|done|lia].
  cbn [ret]. eexists. split; [reflexivity|].
  cbn [requests emitted heap]. by rewrite length_insert.
Qed.

(** A turn under a transport that always asks for tools. *)
Lemma step_asks_for_tools this messages force w :
  property_read modelProfiles (s_profile this) ≠ inherited ->
  always_asks_for_tools (V2_14.parseLine JSON_parse) fetchWithRetry true ->
  exists w1 calls,
    step this messages force w
    = (w1, Return (V2_14.tool_request calls
                     (V2_14.mkSuspended calls "" (length (heap w)))))
    /\ length (requests w1) = S (length (requests w))
    /\ calls ≠ []
    /\ is_Some (heap w1 !! length (heap w)).
Proof.
  intros Hprofile Hasks. rewrite step_unfold. cbv zeta.
  set (session := if force then V2_14.forced_session this else this).
  assert (s_profile session = s_profile this) as Hsame
    by (by destruct force).
  rewrite stream_unfold. cbv zeta.
  destruct (buildParametersArray_frame (s_parameters session)
              (s_tools session) (s_profile session) (Some ())
              (assembled session messages
                 (mkWorld (heap w ++ [default [] (heap w !! messages)])
                    (emitted w) (requests w))))
    as (events & r & -> & Hr).
  destruct Hr as [pd ->]; [by rewrite Hsame|].
  cbn [heap emitted requests emitting assembled].
  match goal with
  | |- context [fetchWithRetry ?sent ?path ?body] =>
      destruct (Hasks sent path body)
        as (chunks & evs & text & calls & -> & -> & Hc & Hne & Htext)
  end.
  rewrite Hc. cbn [fst snd]. rewrite (Htext eq_refl).
  destruct calls as [|call calls]; [done|]. cbn [length Nat.ltb Nat.leb].
  eexists _, _. split; [reflexivity|].
  cbn [emitting heap emitted requests]. rewrite length_app. cbn [length].
  split_and!; [lia|done|].
  apply lookup_lt_is_Some_2. rewrite !length_app. cbn. lia.
Qed.

(** The loop under such a transport: every remaining turn is spent, then
    the fallback string is returned. *)
Lemma run_loop_exhausts this maxIterations remaining i messages w :
  property_read modelProfiles (s_profile this) ≠ inherited ->
  always_asks_for_tools (V2_14.parseLine JSON_parse) fetchWithRetry true ->
  exists w',
    run_loop this maxIterations remaining i messages w
    = (w', Return fallback_message)
    /\ length (requests w') = (length (requests w) + remaining)%nat.
Proof.
  intros Hprofile Hasks. revert i messages w.
  induction remaining as [|remaining IH]; intros i messages w.
  - exists w. split; [done|lia].
  - cbn [V2_14.run_loop].
    set (isLast := Z.eqb (Z.of_nat i) (Z.of_nat maxIterations - 1)).
    unfold bind at 1.
    assert (exists wa,
      (if isLast then emit (V2_14.iteration_warning maxIterations)
       else ret ()) w = (wa, Return ())
      /\ requests wa = requests w) as (wa & -> & Hwa).
    { destruct isLast; by eexists. }
    destruct (step_asks_for_tools this messages isLast wa Hprofile Hasks)
      as (w1 & calls & Hstep & Hreq & Hne & [old Hold]).
    rewrite (bind_Return _ _ _ _ _ Hstep).
    destruct (step_resume_returns
                (V2_14.mkSuspended calls "" (length (heap wa)))
                (executeTools JSON_parse_value calls (s_tools this)) w1 old)
      as (w2 & Hresume & Hreq2 & _).
    { done. }
    { unfold executeTools. by rewrite length_fmap. }
    rewrite (bind_Return _ _ _ _ _ Hresume).
    cbn [V2_14.response_content V2_14.response_messages
         V2_14.sus_assistantResponse V2_14.sus_finalMessages
         String.eqb negb].
    destruct (IH (S i) (length (heap wa)) w2) as (w' & -> & Hreq').
    exists w'. split; [done|]. rewrite Hreq', Hreq2, Hreq, Hwa. lia.
Qed.

(** One step, from outside: what it emits and sends, and what it comes
    back with. *)
Lemma step_outcome this messages force w :
  let '(w', r) := step this messages force w in
  let session := if force then V2_14.forced_session this else this in
  (exists events, emitted w' = emitted w ++ events)
  /\ ((requests w' = requests w /\ exists e, r = Throw e)
      \/ exists body w0 events,
           requests w' = requests w ++ [body]
           /\ buildParametersArray (s_parameters session) (s_tools this)
                (s_profile this) (Some ()) w0
              = (emitting w0 events, Return (body_parameters body))
           /\ match fetchWithRetry (requests w) "/llm/chat/stream/v8" body
              with
              | Throw e => r = Throw e
              | Return chunks =>
                  match read_stream (V2_14.parseLine JSON_parse) chunks with
                  | (evs, Throw e) => r = Throw e
                  | (evs, Return _) =>
                      if (0 <? length (collect evs).2)%nat then
                        r = Return
                              (V2_14.tool_request (collect evs).2
                                 (V2_14.mkSuspended (collect evs).2
                                    (collect evs).1 (length (heap w))))
                        /\ is_Some (heap w' !! length (heap w))
                      else
                        r = Return
                              (V2_14.done
                                 (V2_14.mkTextResponse (collect evs).1
                                    (length (heap w))))
                  end
              end).
Proof.
  rewrite step_unfold. cbv zeta. rewrite stream_unfold. cbv zeta.
  assert (s_profile (if force then V2_14.forced_session this else this)
          = s_profile this) as Hprofile by (by destruct force).
  assert (s_tools (if force then V2_14.forced_session this else this)
          = s_tools this) as Htools by (by destruct force).
  destruct (buildParametersArray_frame
              (s_parameters (if force then V2_14.forced_session this
                             else this))
              (s_tools (if force then V2_14.forced_session this else this))
              (s_profile (if force then V2_14.forced_session this
                          else this))
              (Some ())
              (assembled (if force then V2_14.forced_session this else this)
                 messages
                 (mkWorld (heap w ++ [default [] (heap w !! messages)])
                    (emitted w) (requests w))))
    as (events & r0 & Hparams & _).
  rewrite Hparams. rewrite Hprofile, Htools in Hparams.
  destruct r0 as [pd|e]; cbn [heap emitted requests emitting assembled].
  2:{ split; [by eexists|]. left. split; [done|by eexists]. }
  match goal with
  | |- context [fetchWithRetry (requests w) ?path ?b] =>
      generalize (eq_refl : body_parameters b = pd);
      generalize b; intros body Hbody
  end.
  rewrite <-Hbody in Hparams.
  destruct (fetchWithRetry (requests w) "/llm/chat/stream/v8" body)
    as [chunks|e] eqn:Hfetch.
  2:{ split; [by eexists|]. right. exists body. eexists _, events.
      rewrite Hfetch. split_and!; [done|exact Hparams|done]. }
  destruct (read_stream (V2_14.parseLine JSON_parse) chunks)
    as [evs [[]|e]] eqn:Hread.
  2:{ split; [by eexists|]. right. exists body. eexists _, events.
      rewrite Hfetch, Hread. split_and!; [done|exact Hparams|done]. }
  destruct (0 <? length (collect evs).2)%nat eqn:Hcalls.
  - split.
    + cbn [emitting emitted]. rewrite <-app_assoc. by eexists.
    + right. exists body. eexists _, events. rewrite Hfetch, Hread, Hcalls.
      cbn [emitting requests heap].
      split_and!; [done|exact Hparams|done|].
      apply lookup_lt_is_Some_2. rewrite !length_app. cbn. lia.
  - split; [by eexists|].
    right. exists body. eexists _, events. rewrite Hfetch, Hread, Hcalls.
    split_and!; [done|exact Hparams|done].
Qed.

(** The loop with a budget of one turn: the advisory warning, then one
    forced step, whose text is returned unless it is empty after tool
    calls. *)
Lemma run_loop_single_turn this messages w :
  let '(w', r) := run_loop this 1 1 0 messages w in
  (exists more,
      emitted w' = emitted w ++ V2_14.iteration_warning 1 :: more)
  /\ ((requests w' = requests w /\ exists e, r = Throw e)
      \/ exists body w0 events,
           requests w' = requests w ++ [body]
           /\ buildParametersArray
                (s_parameters (V2_14.forced_session this)) (s_tools this)
                (s_profile this) (Some ()) w0
              = (emitting w0 events, Return (body_parameters body))
           /\ match fetchWithRetry (requests w) "/llm/chat/stream/v8" body
              with
              | Throw e => r = Throw e
              | Return chunks =>
                  match read_stream (V2_14.parseLine JSON_parse) chunks with
                  | (evs, Throw e) => r = Throw e
                  | (evs, Return _) =>
                      r = Return
                            (if ((0 <? length (collect evs).2)%nat
                                 && String.eqb (collect evs).1 "")%bool
                             then fallback_message else (collect evs).1)
                  end
              end).
Proof.
  cbn [V2_14.run_loop].
  change (Z.eqb (Z.of_nat 0) (Z.of_nat 1 - 1)) with true. cbv iota.
  unfold bind at 1, emit at 1. unfold bind at 1.
  pose proof (step_outcome this messages true
                (mkWorld (heap w)
                   (emitted w ++ [V2_14.iteration_warning 1])
                   (requests w))) as Hstep.
  destruct (step this messages true _) as [w1 r1].
  cbv zeta iota in Hstep. cbn [heap emitted requests] in Hstep.
  destruct Hstep as [[events Hem] Hstep].
  assert (forall more' w',
            emitted w' = emitted w1 ++ more' ->
            exists more,
              emitted w' = emitted w ++ V2_14.iteration_warning 1 :: more)
    as Hemit.
  { intros more' w' ->. exists (events ++ more').
    rewrite Hem. by rewrite <-!app_assoc. }
  destruct Hstep as [[Hreq [e ->]]|(body & w0 & evs0 & Hreq & Hforced & Hr)].
  { split; [apply (Hemit []); by rewrite app_nil_r|].
    left. split; [done|by eexists]. }
  destruct (fetchWithRetry (requests w) "/llm/chat/stream/v8" body)
    as [chunks|e] eqn:Hfetch.
  2:{ subst r1. split; [apply (Hemit []); by rewrite app_nil_r|].
      right. exists body, w0, evs0. rewrite Hfetch. done. }
  destruct (read_stream (V2_14.parseLine JSON_parse) chunks)
    as [evs [[]|e]] eqn:Hread.
  2:{ subst r1. split; [apply (Hemit []); by rewrite app_nil_r|].
      right. exists body, w0, evs0. rewrite Hfetch, Hread. done. }
  destruct (0 <? length (collect evs).2)%nat eqn:Hcalls; cbn [andb].
  - destruct Hr as [-> [old Hold]].
    destruct (step_resume_returns
                (V2_14.mkSuspended (collect evs).2 (collect evs).1
                   (length (heap w)))
                (executeTools JSON_parse_value (collect evs).2
                   (s_tools this))
                w1 old)
      as (w2 & Hresume & Hreq2 & Hem2 & _).
    { done. }
    { cbn [V2_14.sus_toolCalls]. unfold executeTools.
      by rewrite length_fmap. }
    rewrite (bind_Return _ _ _ _ _ Hresume).
    cbn [V2_14.response_content V2_14.response_messages
         V2_14.sus_assistantResponse V2_14.sus_finalMessages].
    destruct (String.eqb (collect evs).1 "") eqn:Htext; cbn [negb ret].
    + split; [by eapply Hemit|].
      right. exists body, w0, evs0.
      rewrite Hfetch, Hread, Hreq2, Hcalls, Htext. done.
    + split; [by eapply Hemit|].
      right. exists body, w0, evs0.
      rewrite Hfetch, Hread, Hreq2, Hcalls, Htext. done.
  - subst r1. cbn [ret V2_14.response_content].
    split; [apply (Hemit []); by rewrite app_nil_r|].
    right. exists body, w0, evs0. rewrite Hfetch, Hread, Hcalls. done.
Qed.
End RunFacts.

Section RunFacts_v2_11.
Variable JSON_parse : string -> Decoded.
Variable JSON_parse_value : string -> Throws JSValue.
Variable fetchWithRetry :
  list RequestBody -> string -> RequestBody -> Throws (list string).
Variable Date_now : World -> Z.

Lemma stream_v2_11_unfold this messages isFirstTurn w :
  V2_11.stream JSON_parse fetchWithRetry Date_now this
    (Input_array messages) isFirstTurn w =
    let w1 := assembled this messages w in
    match buildParametersArray
            (if isFirstTurn then s_parameters this else [])
            (s_tools this) (s_profile this) (Some ()) w1 with
    | (w2, Throw e) => (w2, Throw e)
    | (w2, Return parametersData) =>
        let body :=
          mkRequestBody (s_profile this)
            ("js-sdk-prompt-" +:+ pretty (Date_now w1))
            (default [] (heap w2 !! length (heap w))) parametersData in
        (mkWorld (heap w2) (emitted w2) (requests w2 ++ [body]),
         match fetchWithRetry (requests w2) "/llm/chat/stream/v8" body with
         | Return chunks =>
             Return (read_stream (V2_11.parseLine JSON_parse) chunks)
         | Throw e => Throw e
         end)
    end.
Proof.
  unfold V2_11.stream. unfold bind at 1. cbn [ret].
  unfold bind at 1. rewrite buildRequestBody_v2_11_unfold. cbv zeta.
  destruct (buildParametersArray _ _ _ _ _) as [w2 [pd|e]]; [|done].
  unfold stringify_request, Array_read, V2_11.send, bind, ret.
  cbn [rd_messages rd_profile rd_prompt rd_parameters].
  by destruct (fetchWithRetry _ _ _).
Qed.

(** The v2.11.0 loop under a transport that always asks for tools: every
    remaining turn is spent, then the loop raises. *)
Lemma run_loop_v2_11_exhausts this remaining i messages w :
  property_read modelProfiles (s_profile this) ≠ inherited ->
  always_asks_for_tools (V2_11.parseLine JSON_parse) fetchWithRetry false ->
  exists w',
    V2_11.run_loop JSON_parse JSON_parse_value fetchWithRetry Date_now
      this remaining i messages w
    = (w', Throw (Error "Exceeded maximum tool iteration limit of 5."))
    /\ length (requests w') = (length (requests w) + remaining)%nat.
Proof.
  intros Hprofile Hasks. revert i w.
  induction remaining as [|remaining IH]; intros i w.
  - exists w. split; [reflexivity|lia].
  - cbn [V2_11.run_loop]. unfold bind at 1.
    rewrite stream_v2_11_unfold. cbv zeta.
    destruct (buildParametersArray_frame
                (if Nat.eqb i 0 then s_parameters this else [])
                (s_tools this) (s_profile this) (Some ())
                (assembled this messages w))
      as (events & r & -> & Hr).
    destruct (Hr Hprofile) as [pd ->].
    cbn [heap emitted requests emitting assembled].
    match goal with
    | |- context [fetchWithRetry ?sent ?path ?body] =>
        destruct (Hasks sent path body)
          as (chunks & evs & text & calls & -> & -> & Hc & Hne & _)
    end.
    rewrite Hc.
    destruct calls as [|call calls]; [done|]. cbn [length Nat.ltb Nat.leb].
    unfold bind at 1, emit at 1. unfold bind at 1, emit at 1.
    destruct (toolMessagesPayload_returns
                (executeTools JSON_parse_value (call :: calls)
                   (s_tools this)) 0 (call :: calls)) as [payload ->].
    { unfold executeTools. rewrite length_fmap. lia. }
    unfold bind, Array_push, Array_read, Array_write, ret.
    unfold bind. cbv beta iota. cbn [heap emitted requests].
    match goal with
    | |- context [V2_11.run_loop _ _ _ _ _ _ _ _ ?w'] =>
        destruct (IH (S i) w') as (w'' & -> & Hreq)
    end.
    exists w''. split; [done|]. rewrite Hreq. cbn [requests].
    rewrite length_app. cbn. lia.
Qed.
End RunFacts_v2_11.

Lemma assign_elem_of k v (o : Params) : (k, v) ∈ assign k v o.
Proof.
  induction o as [|[k' v'] o IH]; cbn; [left|].
  case_bool_decide; [left|by right].
Qed.

(** The forced session asks for no tool: [TOOL_CHOICE_NONE] is requested
    as [true]. *)
Lemma forced_session_tool_choice_none this :
  (TOOL_CHOICE_NONE, JBool true) ∈ s_parameters (V2_14.forced_session this).
Proof.
  unfold V2_14.forced_session, V2_14.withParameters. cbn [s_parameters].
  unfold ParameterBuilder._build, ParameterBuilder.toolChoiceNone.
  apply assign_elem_of.
Qed.

(** C6, as the code has it. In v2.14.0, when every turn of the budget ends
    with tool calls and no text, [run] spends exactly [maxIterations]
    network turns and returns the fixed fallback string; with
    [maxIterations = 1] it emits the advisory warning first, sends at most
    one request, assembled from the forced-text session (which requests
    [TOOL_CHOICE_NONE] as [true]), and returns the text of that turn, or the
    fallback string when the turn ends with tool calls and no text, unless
    the turn itself raises. In v2.11.0 the budget is fixed at 5 turns and
    [run] raises [Error] when every turn ends with tool calls. (The profile
    is assumed not to name a member of [Object.prototype].) *)
Theorem C6_iteration_budget (JSON_parse : string -> Decoded)
    (JSON_parse_value : string -> Throws JSValue)
    (fetchWithRetry :
       list RequestBody -> string -> RequestBody -> Throws (list string))
    (Date_now : World -> Z) (this : ChatSession) :
  property_read modelProfiles (s_profile this) ≠ inherited ->
  (always_asks_for_tools (V2_14.parseLine JSON_parse) fetchWithRetry true ->
   forall maxIterations input w,
   exists w',
     V2_14.run JSON_parse JSON_parse_value fetchWithRetry Date_now this input
       (Some maxIterations) w
     = (w', Return fallback_message)
     /\ length (requests w') = (length (requests w) + maxIterations)%nat)
  /\ (forall input w,
        let '(w', r) :=
          V2_14.run JSON_parse JSON_parse_value fetchWithRetry Date_now this
            input (Some 1%nat) w in
        (exists more,
            emitted w' = emitted w ++ V2_14.iteration_warning 1 :: more)
        /\ (TOOL_CHOICE_NONE, JBool true)
             ∈ s_parameters (V2_14.forced_session this)
        /\ ((requests w' = requests w /\ exists e, r = Throw e)
            \/ exists body w0 events,
                 requests w' = requests w ++ [body]
                 /\ buildParametersArray
                      (s_parameters (V2_14.forced_session this))
                      (s_tools this) (s_profile this) (Some ()) w0
                    = (emitting w0 events, Return (body_parameters body))
                 /\ match fetchWithRetry (requests w) "/llm/chat/stream/v8"
                          body with
                    | Throw e => r = Throw e
                    | Return chunks =>
                        match read_stream (V2_14.parseLine JSON_parse) chunks
                        with
                        | (evs, Throw e) => r = Throw e
                        | (evs, Return _) =>
                            r = Return
                                  (if ((0 <? length (collect evs).2)%nat
                                       && String.eqb (collect evs).1 "")%bool
                                   then fallback_message
                                   else (collect evs).1)
                        end
                    end))
  /\ (always_asks_for_tools (V2_11.parseLine JSON_parse) fetchWithRetry false ->
      forall input w,
      exists w',
        V2_11.run JSON_parse JSON_parse_value fetchWithRetry Date_now this
          input w
        = (w', Throw (Error "Exceeded maximum tool iteration limit of 5."))
        /\ length (requests w') = (length (requests w) + 5)%nat).
Proof.
  intros Hprofile. split_and!.
  - intros Hasks maxIterations input w. unfold V2_14.run.
    change (default 5%nat (Some maxIterations)) with maxIterations.
    assert (exists w0 messages,
      match input with
      | Input_text content => new_Array [createUserMessage content]
      | Input_array initialInput =>
          items <- Array_read initialInput ;; new_Array items
      end w = (w0, Return messages) /\ requests w0 = requests w)
      as (w0 & messages & Halloc & Hreq0).
    { destruct input; by eexists _, _. }
    rewrite (bind_Return _ _ _ _ _ Halloc). cbv beta.
    destruct (run_loop_exhausts JSON_parse JSON_parse_value fetchWithRetry
                Date_now this maxIterations maxIterations 0 messages w0
                Hprofile Hasks) as (w' & -> & Hreq).
    exists w'. split; [done|]. by rewrite Hreq, Hreq0.
  - intros input w. unfold V2_14.run.
    change (default 5%nat (Some 1%nat)) with 1%nat.
    assert (exists w0 messages,
      match input with
      | Input_text content => new_Array [createUserMessage content]
      | Input_array initialInput =>
          items <- Array_read initialInput ;; new_Array items
      end w = (w0, Return messages)
      /\ requests w0 = requests w /\ emitted w0 = emitted w)
      as (w0 & messages & Halloc & Hreq0 & Hem0).
    { destruct input; by eexists _, _. }
    rewrite (bind_Return _ _ _ _ _ Halloc). cbv beta.
    pose proof (run_loop_single_turn JSON_parse JSON_parse_value
                  fetchWithRetry Date_now this messages w0) as Hloop.
    destruct (V2_14.run_loop _ _ _ _ _ _ _ _ _ _) as [w' r].
    rewrite Hreq0, Hem0 in Hloop. destruct Hloop as [Hwarn Hturn].
    split_and!; [done|apply forced_session_tool_choice_none|done].
  - intros Hasks input w. unfold V2_11.run.
    assert (exists w0 messages,
      match input with
      | Input_text content => new_Array [createUserMessage content]
      | Input_array initialInput => ret initialInput
      end w = (w0, Return messages) /\ requests w0 = requests w)
      as (w0 & messages & Halloc & Hreq0).
    { destruct input; by eexists _, _. }
    rewrite (bind_Return _ _ _ _ _ Halloc). cbv beta.
    destruct (run_loop_v2_11_exhausts JSON_parse JSON_parse_value
                fetchWithRetry Date_now this V2_11.maxToolIterations 0
                messages w0 Hprofile Hasks) as (w' & -> & Hreq).
    exists w'. split; [done|]. by rewrite Hreq, Hreq0.
Qed.

(** C6 fails as stated on the v2.11.0 driver: under a transport that
    answers every request with a tool call, [run] raises after its five
    turns instead of returning a fallback string. *)
Lemma C6_counterexample :
  let outcome :=
    V2_11.run sample_JSON_parse sample_JSON_parse_value sample_fetch
      sample_Date_now (new_ChatSession "openai-gpt-4o")
      (Input_text "What is the weather in Paris?") new_World in
  outcome.2 = Throw (Error "Exceeded maximum tool iteration limit of 5.")
  /\ length (requests outcome.1) = 5%nat.
Proof. vm_compute. split; reflexivity. Qed.

Lemma sample_fetch_always_asks_for_tools :
  always_asks_for_tools (V2_14.parseLine sample_JSON_parse) sample_fetch true.
Proof.
  intros sent path body.
  exists [ data_line payload_get_weather
           +:+ data_line payload_finish_tool_calls ],
    [Ev_tool_calls [mkToolCall (Some "c1") (Some "get_weather") "{}"]],
    "", [mkToolCall (Some "c1") (Some "get_weather") "{}"].
  split_and!; [reflexivity|vm_compute; reflexivity|reflexivity|discriminate|
               reflexivity].
Defined.

Lemma C6_iteration_budget_witness :
  exists w',
    V2_14.run sample_JSON_parse sample_JSON_parse_value sample_fetch
      sample_Date_now (new_ChatSession "openai-gpt-4o")
      (Input_text "What is the weather in Paris?") (Some 1%nat) new_World
    = (w', Return fallback_message)
    /\ length (requests w') = 1%nat.
Proof.
  destruct (C6_iteration_budget sample_JSON_parse sample_JSON_parse_value
              sample_fetch sample_Date_now (new_ChatSession "openai-gpt-4o"))
    as [Hexhaust _].
  - vm_compute. discriminate.
  - exact (Hexhaust sample_fetch_always_asks_for_tools 1%nat
             (Input_text "What is the weather in Paris?") new_World).
Defined.

(** ** A turn that ends without tools

    Under a transport whose model answers with text and stops, [run]
    returns the text after one request, for the default budget as for a
    budget of one (where the capability warning is still emitted first). *)
Example run_returns_the_text :
  let outcome :=
    V2_14.run sample_JSON_parse sample_JSON_parse_value sample_fetch_4
      sample_Date_now (new_ChatSession "openai-gpt-4o")
      (Input_text "What is 2+2?") None new_World in
  outcome.2 = Return "4" /\ length (requests outcome.1) = 1%nat
  /\ emitted outcome.1 = [].
Proof. vm_compute. split_and!; reflexivity. Qed.

Example run_v2_11_returns_the_text :
  let outcome :=
    V2_11.run sample_JSON_parse sample_JSON_parse_value sample_fetch_4
      sample_Date_now (new_ChatSession "openai-gpt-4o")
      (Input_text "What is 2+2?") new_World in
  outcome.2 = Return "4" /\ length (requests outcome.1) = 1%nat.
Proof. vm_compute. split; reflexivity. Qed.

(* ================================================================== *)
(** * The read loop of a stream                                        *)
(* ================================================================== *)

Lemma split_lines_cons c r :
  split_lines (String c r) =
    let '(ls, last) := split_lines r in
    if Ascii.eqb c LF then (EmptyString :: ls, last)
    else match ls with
         | [] => ([], String c last)
         | l :: ls' => (String c l :: ls', last)
         end.
Proof. reflexivity. Qed.

Lemma split_lines_app a b :
  split_lines (a +:+ b) =
    let '(la, ra) := split_lines a in
    let '(lb, rb) := split_lines (ra +:+ b) in
    (la ++ lb, rb).
Proof.
  induction a as [|c a IH].
  - change ("" +:+ b) with b. cbn [split_lines].
    change ("" +:+ b) with b. by destruct (split_lines b).
  - change (String c a +:+ b) with (String c (a +:+ b)).
    rewrite !split_lines_cons, IH.
    destruct (split_lines a) as [la ra].
    destruct (Ascii.eqb c LF) eqn:Hc.
    + destruct (split_lines (ra +:+ b)) as [lb rb]. done.
    + destruct la as [|l la].
      * change (String c ra +:+ b) with (String c (ra +:+ b)).
        rewrite split_lines_cons, Hc.
        destruct (split_lines (ra +:+ b)) as [lb rb]. cbn [app].
        by destruct lb.
      * destruct (split_lines (ra +:+ b)) as [lb rb]. done.
Qed.

Lemma split_lines_rest s :
  split_lines (split_lines s).2 = ([], (split_lines s).2).
Proof.
  induction s as [|c s IH]; [done|].
  rewrite split_lines_cons. destruct (split_lines s) as [ls last].
  cbn [snd] in IH.
  destruct (Ascii.eqb c LF) eqn:Hc; [done|].
  destruct ls as [|l ls]; [|done].
  cbn [snd]. by rewrite split_lines_cons, IH, Hc.
Qed.

Lemma stream_lines_whole chunks buffer :
  split_lines buffer = ([], buffer) ->
  stream_lines buffer chunks = split_lines (buffer +:+ concatenation chunks).
Proof.
  revert buffer. induction chunks as [|chunk chunks IH]; intros buffer Hb.
  - cbn [stream_lines concatenation foldr]. by rewrite string_app_nil_r, Hb.
  - cbn [stream_lines concatenation foldr].
    change (foldr String.append "" chunks) with (concatenation chunks).
    rewrite <-string_app_assoc, (split_lines_app (buffer +:+ chunk)).
    pose proof (split_lines_rest (buffer +:+ chunk)) as Hrest.
    destruct (split_lines (buffer +:+ chunk)) as [lines rest].
    cbn [snd] in Hrest. by rewrite (IH _ Hrest).
Qed.

Lemma stream_records_lines JSON_parse chunks :
  stream_records JSON_parse chunks
  = omap (line_record JSON_parse) (lines_of (concatenation chunks)).
Proof.
  unfold stream_records, lines_of. rewrite stream_lines_whole by done.
  change ("" +:+ concatenation chunks) with (concatenation chunks).
  by destruct (split_lines (concatenation chunks)).
Qed.

Section ChunkFacts.
Variable parseLine :
  SSEParser -> string -> Throws (SSEParser * option StreamEvent).

Lemma parse_lines_app l1 l2 p :
  parse_lines parseLine p (l1 ++ l2) =
    match parse_lines parseLine p l1 with
    | (e1, Throw e) => (e1, Throw e)
    | (e1, Return p1) =>
        let '(e2, r) := parse_lines parseLine p1 l2 in (e1 ++ e2, r)
    end.
Proof.
  revert p. induction l1 as [|line l1 IH]; intros p.
  - cbn. by destruct (parse_lines parseLine p l2).
  - cbn [app parse_lines].
    destruct (String.eqb (trim line) ""); [apply IH|].
    destruct (parseLine p line) as [[p1 event]|e]; [|done].
    rewrite IH.
    destruct (parse_lines parseLine p1 l1) as [e1 [p2|e]]; [|done].
    destruct (parse_lines parseLine p2 l2) as [e2 r].
    by rewrite app_assoc.
Qed.

Lemma read_chunks_whole chunks p buffer :
  split_lines buffer = ([], buffer) ->
  read_chunks parseLine p buffer chunks =
    let '(lines, rest) := split_lines (buffer +:+ concatenation chunks) in
    match parse_lines parseLine p lines with
    | (events, Throw e) => (events, Throw e)
    | (events, Return p') => (events, Return (p', rest))
    end.
Proof.
  revert p buffer. induction chunks as [|chunk chunks IH]; intros p buffer Hb.
  - cbn [read_chunks concatenation foldr].
    by rewrite string_app_nil_r, Hb.
  - cbn [read_chunks concatenation foldr].
    change (foldr String.append "" chunks) with (concatenation chunks).
    rewrite <-string_app_assoc, (split_lines_app (buffer +:+ chunk)).
    pose proof (split_lines_rest (buffer +:+ chunk)) as Hrest.
    destruct (split_lines (buffer +:+ chunk)) as [lines rest].
    cbn [snd] in Hrest. cbv zeta.
    pose proof (fun p1 => IH p1 rest Hrest) as IH'.
    destruct (split_lines (rest +:+ concatenation chunks)) as [lb rb].
    rewrite parse_lines_app.
    destruct (parse_lines parseLine p lines) as [events [p1|e]]; [|done].
    rewrite IH'.
    by destruct (parse_lines parseLine p1 lb) as [e2 [p2|e]].
Qed.

Lemma read_stream_lines chunks :
  read_stream parseLine chunks =
    match parse_lines parseLine new_SSEParser
            (lines_of (concatenation chunks)) with
    | (events, Throw e) => (events, Throw e)
    | (events, Return parser) =>
        (events ++ (if (0 <? length (getFinalResult parser))%nat
                    then [Ev_tool_calls (getFinalResult parser)] else []),
         Return ())
    end.
Proof.
  unfold read_stream, lines_of.
  rewrite read_chunks_whole by done.
  change ("" +:+ concatenation chunks) with (concatenation chunks).
  destruct (split_lines (concatenation chunks)) as [lines last].
  rewrite parse_lines_app.
  destruct (parse_lines parseLine new_SSEParser lines) as [events [p1|e]];
    [|done].
  destruct (parse_lines parseLine p1 [last]) as [e2 [p2|e]]; [|done].
  by rewrite app_assoc.
Qed.

(** X1. The read loop of [stream] (both versions): what it yields depends on
    the text of the response only, not on how the transport cuts it into
    chunks. The events are those of the lines of the text, in order, up
    to the first line the parser throws on; the aggregate event follows
    when every line went through and some call was finalized. *)
Theorem read_stream_by_lines chunks :
  read_stream parseLine chunks
  = read_stream parseLine [concatenation chunks]
  /\ read_stream parseLine chunks =
       match parse_lines parseLine new_SSEParser
               (lines_of (concatenation chunks)) with
       | (events, Throw e) => (events, Throw e)
       | (events, Return parser) =>
           (events ++ (if (0 <? length (getFinalResult parser))%nat
                       then [Ev_tool_calls (getFinalResult parser)] else []),
            Return ())
       end.
Proof.
  split; [|apply read_stream_lines].
  rewrite !read_stream_lines. cbn [concatenation foldr].
  by rewrite string_app_nil_r.
Qed.
End ChunkFacts.

(** ** The events of a stream *)

Lemma switch_event p r : (parseLine_switch p r).2 = record_event r.
Proof.
  destruct r as [| |reason| |]; cbn; try done.
  by destruct (includes flush_reasons reason).
Qed.

Section EventFacts.
Variable JSON_parse : string -> Decoded.

Lemma parse_lines_v2_11 lines p :
  parse_lines (V2_11.parseLine JSON_parse) p lines =
    (omap record_event (omap (line_record JSON_parse) lines),
     Return (feed p (omap (line_record JSON_parse) lines))).
Proof.
  revert p. induction lines as [|line lines IH]; intros p; [done|].
  cbn [parse_lines omap list_omap].
  remember (line_record JSON_parse line) as lr eqn:Hlr.
  unfold line_record in Hlr.
  destruct (String.eqb (trim line) "") eqn:Hblank; [subst lr; apply IH|].
  unfold V2_11.parseLine.
  destruct (negb (startsWith line "data: ")); [subst lr; by rewrite IH|].
  destruct (String.eqb (trim (substring_from 6 line)) "end");
    [subst lr; by rewrite IH|].
  destruct (JSON_parse (substring_from 6 line)) as [r| |m];
    cbn [parseLine_try]; subst lr; [|by rewrite IH..].
  destruct (parseLine_switch p r) as [p1 event] eqn:Hsw. rewrite IH.
  pose proof (switch_event p r) as Hev. rewrite Hsw in Hev. cbn [snd] in Hev.
  subst event. cbn [omap list_omap feed fold_left]. rewrite Hsw. cbn [fst].
  by destruct (record_event r).
Qed.

Lemma parse_lines_v2_14 lines p :
  parse_lines (V2_14.parseLine JSON_parse) p lines =
    let '(before, failure) := until_error JSON_parse lines in
    let records := omap (line_record JSON_parse) before in
    (omap record_event records,
     match failure with
     | None => Return (feed p records)
     | Some m => Throw (SSEError ("Failed to parse SSE data chunk: " +:+ m))
     end).
Proof.
  revert p. induction lines as [|line lines IH]; intros p; [done|].
  cbn [parse_lines until_error].
  assert (forall p1 event,
    line_error JSON_parse line = None ->
    p1 = feed p (option_list (line_record JSON_parse line)) ->
    event = line_record JSON_parse line ≫= record_event ->
    (let '(events, r) := parse_lines (V2_14.parseLine JSON_parse) p1 lines in
     (option_list event ++ events, r)) =
    (let '(before, failure) :=
       match line_error JSON_parse line with
       | Some m => ([], Some m)
       | None =>
           let '(before, failure) := until_error JSON_parse lines in
           (line :: before, failure)
       end in
     let records := omap (line_record JSON_parse) before in
     (omap record_event records,
      match failure with
      | None => Return (feed p records)
      | Some m => Throw (SSEError ("Failed to parse SSE data chunk: " +:+ m))
      end))) as Hstep.
  { intros p1 event -> -> ->. rewrite IH.
    destruct (until_error JSON_parse lines) as [before failure].
    cbn [omap list_omap].
    destruct (line_record JSON_parse line) as [r|]; cbn; [|done].
    destruct (record_event r); cbn; by destruct failure. }
  pose proof (Hstep p None) as Hskip. cbn [option_list app] in Hskip.
  unfold line_error, line_record in Hstep, Hskip |- *.
  unfold V2_14.parseLine.
  destruct (String.eqb (trim line) "") eqn:Hblank.
  { specialize (Hskip eq_refl eq_refl eq_refl).
    by destruct (parse_lines _ p lines). }
  destruct (negb (startsWith line "data: ")) eqn:Hdata.
  { specialize (Hskip eq_refl eq_refl eq_refl).
    by destruct (parse_lines _ p lines). }
  destruct (String.eqb (trim (substring_from 6 line)) "end") eqn:Hend.
  { specialize (Hskip eq_refl eq_refl eq_refl).
    by destruct (parse_lines _ p lines). }
  destruct (JSON_parse (substring_from 6 line)) as [r| |m] eqn:Hparse;
    cbn [parseLine_try message]; [|done..].
  destruct (parseLine_switch p r) as [p1 event] eqn:Hsw.
  apply Hstep; [done| |].
  - cbn. by rewrite Hsw.
  - cbn. pose proof (switch_event p r) as Hev. by rewrite Hsw in Hev.
Qed.

Lemma read_stream_v2_11 chunks :
  read_stream (V2_11.parseLine JSON_parse) chunks =
    (omap record_event (stream_records JSON_parse chunks)
     ++ closing_event
          (concat (batch_calls
                     <$> flushed_batches (stream_records JSON_parse chunks))),
     Return ()).
Proof.
  rewrite read_stream_lines, parse_lines_v2_11.
  unfold getFinalResult, closing_event.
  by rewrite finalized_flushed_batches, stream_records_lines.
Qed.

Lemma read_stream_v2_14 chunks :
  read_stream (V2_14.parseLine JSON_parse) chunks =
    let '(before, failure) :=
      until_error JSON_parse (lines_of (concatenation chunks)) in
    let records := omap (line_record JSON_parse) before in
    match failure with
    | None =>
        (omap record_event records
         ++ closing_event (concat (batch_calls <$> flushed_batches records)),
         Return ())
    | Some m =>
        (omap record_event records,
         Throw (SSEError ("Failed to parse SSE data chunk: " +:+ m)))
    end.
Proof.
  rewrite read_stream_lines, parse_lines_v2_14.
  destruct (until_error JSON_parse _) as [before [m|]]; [done|].
  cbv zeta. unfold getFinalResult, closing_event.
  by rewrite finalized_flushed_batches.
Qed.

(** X2. A v2.11.0 stream never raises on its text: it yields one text event
    per [Content] record and one quota event per [QuotaMetadata] record,
    in arrival order, then the aggregate event when some call was
    finalized. Lines that are blank, that do not start with the data
    marker, that carry the sentinel or that do not decode are no record. *)
Theorem stream_events_v2_11 chunks :
  let records := stream_records JSON_parse chunks in
  read_stream (V2_11.parseLine JSON_parse) chunks =
    (omap record_event records
     ++ closing_event (concat (batch_calls <$> flushed_batches records)),
     Return ())
  /\ Forall not_tool_calls (omap record_event records).
Proof.
  cbv zeta. split; [apply read_stream_v2_11|].
  apply Forall_forall. intros e He.
  apply list_elem_of_omap in He as (r & _ & Hr).
  destruct r; cbn in Hr; by simplify_eq.
Qed.

(** X3. A v2.14.0 stream yields the events of the lines that precede the
    first line whose payload fails to decode, then raises an [SSEError]
    with the decoder's message, without the aggregate event; when no line
    fails it ends as the v2.11.0 stream does. *)
Theorem stream_events_v2_14 chunks :
  let '(before, failure) :=
    until_error JSON_parse (lines_of (concatenation chunks)) in
  let records := omap (line_record JSON_parse) before in
  read_stream (V2_14.parseLine JSON_parse) chunks =
    match failure with
    | None =>
        (omap record_event records
         ++ closing_event (concat (batch_calls <$> flushed_batches records)),
         Return ())
    | Some m =>
        (omap record_event records,
         Throw (SSEError ("Failed to parse SSE data chunk: " +:+ m)))
    end.
Proof.
  pose proof (read_stream_v2_14 chunks) as H.
  destruct (until_error JSON_parse _) as [before failure].
  exact H.
Qed.
End EventFacts.

(** ** What a turn ends with *)

Lemma collect_fold events text calls :
  fold_left
    (fun '(assistantResponse, toolCalls) event =>
       match event with
       | Ev_text content => (assistantResponse +:+ ToString content, toolCalls)
       | Ev_tool_calls calls => (assistantResponse, calls)
       | Ev_quota _ => (assistantResponse, toolCalls)
       end)
    (omap record_event events) (text, calls)
  = (text +:+ concatenation (omap record_text events), calls).
Proof.
  revert text. induction events as [|r rs IH]; intros text.
  - cbn. by rewrite string_app_nil_r.
  - destruct r; cbn [omap list_omap record_event record_text fold_left];
      try apply IH.
    rewrite IH. cbn [concatenation foldr].
    by rewrite string_app_assoc.
Qed.

Lemma collect_events records calls :
  collect (omap record_event records ++ closing_event calls)
  = (concatenation (omap record_text records), calls).
Proof.
  unfold collect. rewrite fold_left_app, collect_fold.
  change ("" +:+ ?s) with s. unfold closing_event.
  by destruct calls.
Qed.

Lemma batches_no_flush rs current :
  Forall (fun r => is_flush r = false) rs -> (batches rs current).1 = [].
Proof.
  intros Hrs. revert current.
  induction Hrs as [|r rs Hr _ IH]; intros current; [done|].
  cbn [batches]. rewrite Hr. apply IH.
Qed.

Lemma until_error_sublist JSON_parse lines :
  (until_error JSON_parse lines).1 `prefix_of` lines.
Proof.
  induction lines as [|line lines IH]; [done|].
  cbn [until_error]. destruct (line_error JSON_parse line).
  - apply prefix_nil.
  - destruct (until_error JSON_parse lines) as [before failure].
    by apply prefix_cons.
Qed.

Lemma until_error_None JSON_parse lines before :
  until_error JSON_parse lines = (before, None) -> before = lines.
Proof.
  revert before. induction lines as [|line lines IH]; intros before.
  - by intros [= <-].
  - cbn [until_error]. destruct (line_error JSON_parse line); [done|].
    destruct (until_error JSON_parse lines) as [b f].
    intros [= <- ->]. by rewrite (IH b).
Qed.

(** X4. The text and the tool calls a turn ends with, as [step] and [run]
    collect them from the events: the text is the concatenation of the
    contents of the [Content] records in order, the calls are those of
    the flushed batches in order. In v2.11.0 this holds for every
    response; in v2.14.0 for every response whose stream completes. *)
Theorem turn_text_and_calls (JSON_parse : string -> Decoded)
    (chunks : list string) :
  let records := stream_records JSON_parse chunks in
  let outcome :=
    (concatenation (omap record_text records),
     concat (batch_calls <$> flushed_batches records)) in
  collect (read_stream (V2_11.parseLine JSON_parse) chunks).1 = outcome
  /\ ((read_stream (V2_14.parseLine JSON_parse) chunks).2 = Return () ->
      collect (read_stream (V2_14.parseLine JSON_parse) chunks).1 = outcome).
Proof.
  cbv zeta. split.
  - rewrite read_stream_v2_11. cbn [fst]. apply collect_events.
  - pose proof (read_stream_v2_14 JSON_parse chunks) as H.
    rewrite stream_records_lines.
    destruct (until_error JSON_parse _) as [before [m|]] eqn:Hu.
    + rewrite H. done.
    + rewrite H. intros _. cbn [fst].
      apply until_error_None in Hu. subst before.
      apply collect_events.
Qed.

(** X5. Fragments no flushing finish signal follows are never surfaced:
    records without a flushing finish signal, fed after any others, leave
    the finalized calls as they were, and a stream without a flushing
    finish signal yields no aggregate event, in either version. *)
Theorem unflushed_fragments_are_dropped (JSON_parse : string -> Decoded)
    (p : SSEParser) (rs pending : list WireRecord) (chunks : list string) :
  (Forall (fun r => is_flush r = false) pending ->
   getFinalResult (feed p (rs ++ pending)) = getFinalResult (feed p rs))
  /\ (Forall (fun r => is_flush r = false) (stream_records JSON_parse chunks) ->
      forall calls,
        (Ev_tool_calls calls
           ∉ (read_stream (V2_11.parseLine JSON_parse) chunks).1)
        /\ (Ev_tool_calls calls
              ∉ (read_stream (V2_14.parseLine JSON_parse) chunks).1)).
Proof.
  split.
  - intros Hp. rewrite feed_app. unfold getFinalResult.
    by destruct (feed_batch pending (feed p rs) Hp) as [-> _].
  - intros Hrs calls.
    assert (forall records,
      Forall not_tool_calls (omap record_event records)) as Hnot.
    { intros records. apply Forall_forall. intros e He.
      apply list_elem_of_omap in He as (r & _ & Hr).
      destruct r; cbn in Hr; by simplify_eq. }
    split.
    + rewrite read_stream_v2_11. cbn [fst]. unfold flushed_batches.
      rewrite batches_no_flush by done. cbn.
      rewrite app_nil_r. intros Hin.
      specialize (Hnot (stream_records JSON_parse chunks)).
      rewrite Forall_forall in Hnot. by apply Hnot in Hin.
    + pose proof (read_stream_v2_14 JSON_parse chunks) as H.
      rewrite stream_records_lines in Hrs.
      pose proof (until_error_sublist JSON_parse
                    (lines_of (concatenation chunks))) as [rest Hpre].
      destruct (until_error JSON_parse _) as [before [m|]].
      * rewrite H. cbn [fst]. intros Hin.
        specialize (Hnot (omap (line_record JSON_parse) before)).
        rewrite Forall_forall in Hnot. by apply Hnot in Hin.
      * rewrite H. cbn [fst] in *. unfold flushed_batches.
        rewrite batches_no_flush.
        { cbn. rewrite app_nil_r. intros Hin.
          specialize (Hnot (omap (line_record JSON_parse) before)).
          rewrite Forall_forall in Hnot. by apply Hnot in Hin. }
        rewrite Hpre, omap_app in Hrs. by apply Forall_app in Hrs as [? _].
Qed.

(* ================================================================== *)
(** * Parameters and profiles                                          *)
(* ================================================================== *)

Lemma fqdn_inj k1 k2 :
  fqdn (LLMParameters k1) = fqdn (LLMParameters k2) -> k1 = k2.
Proof. destruct k1, k2; (reflexivity || discriminate). Qed.

Lemma LLMParameters_keys_complete k : k ∈ LLMParameters_keys.
Proof. destruct k; unfold LLMParameters_keys; set_solver. Qed.

Lemma listed_iff_supported this mp P :
  modelProfiles !! s_profile this = Some mp ->
  key_name P ∈ sp_name <$> getSupportedParameters this
  <-> supported mp P = true.
Proof.
  intros Hmp. unfold getSupportedParameters.
  rewrite (property_read_own _ _ _ Hmp). rewrite <-list_fmap_compose.
  rewrite list_elem_of_fmap. split.
  - intros (Q & HQ & Hin). cbn in HQ. apply key_name_inj in HQ as <-.
    by apply list_elem_of_filter in Hin as [? _].
  - intros Hs. exists P. split; [done|].
    apply list_elem_of_filter. split; [done|apply LLMParameters_keys_complete].
Qed.

(** X6. [getSupportedParameters] lists exactly what [buildParametersArray]
    lets through under a profile of the registry. *)
Theorem getSupportedParameters_agrees_with_filtering
    (this : ChatSession) (mp : ModelProfile) (P : ParamKey) (v : JSValue)
    (w : World) :
  modelProfiles !! s_profile this = Some mp ->
  (P, v) ∈ s_parameters this ->
  exists payload warnings,
    buildParametersArray (s_parameters this) (s_tools this) (s_profile this)
      (Some ()) w
    = (emitting w warnings, Return payload)
    /\ ((exists t, data_def t (fqdn (LLMParameters P)) ∈ default [] payload)
        <-> key_name P ∈ sp_name <$> getSupportedParameters this)
    /\ (warning_for P (s_profile this) ∈ warnings
        <-> key_name P ∉ sp_name <$> getSupportedParameters this).
Proof.
  intros Hmp Hin.
  rewrite (buildParametersArray_registered _ _ _ _ _ Hmp). cbv zeta.
  eexists _, _. split; [reflexivity|].
  rewrite (listed_iff_supported _ _ _ Hmp).
  set (kept := filter (fun e => supported mp e.1 = true) (s_parameters this)).
  set (tools := if ((0 <? length (s_tools this))%nat && supported mp TOOLS)%bool
                then tools_entries (s_tools this) else []).
  split.
  - assert (default [] (if (0 <? length (tools ++ (kept ≫= wire_entries)))%nat
                        then Some (tools ++ (kept ≫= wire_entries)) else None)
            = tools ++ (kept ≫= wire_entries)) as ->.
    { by destruct (tools ++ (kept ≫= wire_entries)). }
    split.
    + intros [t [Ht|Hk]%elem_of_app].
      * subst tools.
        destruct ((0 <? length (s_tools this))%nat && supported mp TOOLS)%bool
          eqn:Hb; [|by apply elem_of_nil in Ht].
        apply andb_prop in Hb as [_ Hb].
        unfold tools_entries in Ht.
        apply elem_of_cons in Ht as [Ht|Ht].
        2:{ apply list_elem_of_singleton in Ht. discriminate. }
        injection Ht as _ Hf.
        assert (P = TOOLS) as -> by (by apply fqdn_inj). done.
      * apply list_elem_of_bind in Hk as ([Q v'] & Hd & HQ).
        unfold wire_entries in Hd. cbn [fst snd] in Hd.
        apply elem_of_cons in Hd as [Hd|Hd].
        2:{ apply list_elem_of_singleton in Hd. discriminate. }
        injection Hd as _ Hf. apply fqdn_inj in Hf as ->.
        by apply list_elem_of_filter in HQ as [? _].
    + intros Hs. exists (type (LLMParameters P)). apply elem_of_app. right.
      apply list_elem_of_bind. exists (P, v). split.
      * unfold wire_entries. cbn [fst snd]. left.
      * by apply list_elem_of_filter.
  - rewrite list_elem_of_fmap. split.
    + intros ([Q v'] & Hw & HQ). cbn [fst] in Hw.
      assert (Q = P) as ->.
      { unfold warning_for in Hw. injection Hw as Hk _. symmetry.
        by apply key_name_inj. }
      apply list_elem_of_filter in HQ as [HQ _]. cbn [fst] in HQ.
      by rewrite HQ.
    + intros Hs. exists (P, v). split; [done|].
      apply list_elem_of_filter. split; [|done]. cbn [fst].
      by destruct (supported mp P).
Qed.

(** ** The shape of the payload *)

Lemma loop_pairs entries lookup profile emitter data w w' data' :
  buildParametersArray_loop entries lookup profile emitter data w
    = (w', Return data') ->
  exists pairs : list (ParamDef * WireValue),
    data' = data ++ (pairs ≫= fun '(d, v) =>
                       [data_def (type d) (fqdn d); data_value (type d) v])
    /\ (Forall (fun '(d, v) => exists k x,
                  (k, x) ∈ entries /\ d = LLMParameters k
                  /\ v = encode (type d) x) pairs).
Proof.
  revert data w. induction entries as [|[key value] entries IH];
    intros data w.
  - cbn. intros [= <- <-]. exists []. cbn. by rewrite app_nil_r.
  - cbn [buildParametersArray_loop]. unfold bind at 1.
    destruct (permits lookup (fqdn (LLMParameters key)) w)
      as [w1 [supported|e]]; [|done].
    destruct supported; cbn [negb].
    + intros Hrun. apply IH in Hrun as (pairs & -> & Hpairs).
      exists ((LLMParameters key, encode (type (LLMParameters key)) value)
              :: pairs).
      split; [cbn; by rewrite <-app_assoc|].
      constructor.
      * exists key, value. split_and!; [left|done..].
      * eapply Forall_impl; [exact Hpairs|].
        intros [d v] (k & x & Hin & -> & ->). exists k, x.
        split_and!; [by right|done..].
    + unfold bind at 1.
      destruct (match emitter with
                | Some _ => emit (warning_for key profile)
                | None => ret ()
                end w1) as [w2 [[]|e]]; [|done].
      intros Hrun. apply IH in Hrun as (pairs & -> & Hpairs).
      exists pairs. split; [done|].
      eapply Forall_impl; [exact Hpairs|].
      intros [d v] (k & x & Hin & -> & ->). exists k, x.
      split_and!; [by right|done..].
Qed.

(** X7. The payload is never an empty array, and its entries come in pairs:
    the definition of a parameter, then its value under the same type. *)
Theorem payload_entries_come_in_pairs
    (requested : Params) (tools : list ToolDefinition) (profile : string)
    (emitter : option EventEmitter) (w w' : World) (data : list DataEntry) :
  buildParametersArray requested tools profile emitter w
    = (w', Return (Some data)) ->
  data ≠ []
  /\ exists pairs : list (ParamDef * WireValue),
       data = pairs ≫= (fun '(d, v) =>
                [data_def (type d) (fqdn d); data_value (type d) v])
       /\ Forall (fun '(d, v) =>
                    (d = LLMParameters TOOLS
                     /\ v = Stringify_tools (serializable <$> tools))
                    \/ exists k x, (k, x) ∈ requested /\ d = LLMParameters k
                                   /\ v = encode (type d) x) pairs.
Proof.
  unfold buildParametersArray. unfold bind at 1.
  set (lookup := property_read modelProfiles profile).
  destruct ((if (0 <? length tools)%nat
             then supported <- permits lookup (fqdn (LLMParameters TOOLS)) ;;
                  (if supported
                   then ret ([] ++ [data_def (type (LLMParameters TOOLS))
                                      (fqdn (LLMParameters TOOLS));
                                    data_value "json"
                                      (Stringify_tools (serializable <$> tools))])
                   else ret [])
             else ret []) w) as [w1 [data0|e]] eqn:Htools; [|done].
  assert (data0 = [] \/
          data0 = [data_def (type (LLMParameters TOOLS))
                     (fqdn (LLMParameters TOOLS));
                   data_value "json"
                     (Stringify_tools (serializable <$> tools))]) as Hdata0.
  { destruct (0 <? length tools)%nat; [|left; by injection Htools as _ <-].
    revert Htools. unfold bind.
    destruct (permits lookup _ w) as [w2 [[]|e]]; [| |done].
    - intros [= _ <-]. by right.
    - intros [= _ <-]. by left. }
  unfold bind at 1.
  destruct (buildParametersArray_loop requested lookup profile emitter data0 w1)
    as [w2 [data1|e]] eqn:Hloop; [|done].
  cbn [ret]. destruct (0 <? length data1)%nat eqn:Hlen; [|done].
  intros [= _ <-]. split; [by destruct data1|].
  apply loop_pairs in Hloop as (pairs & -> & Hpairs).
  assert (Forall (fun '(d, v) =>
            (d = LLMParameters TOOLS
             /\ v = Stringify_tools (serializable <$> tools))
            \/ exists k x, (k, x) ∈ requested /\ d = LLMParameters k
                           /\ v = encode (type d) x) pairs) as Hright.
  { eapply Forall_impl; [exact Hpairs|]. intros [d v] H. by right. }
  destruct Hdata0 as [->| ->].
  - exists pairs. by split.
  - exists ((LLMParameters TOOLS, Stringify_tools (serializable <$> tools))
            :: pairs).
    split; [done|]. constructor; [by left|done].
Qed.

Lemma payload_entries_come_in_pairs_witness :
  exists pairs : list (ParamDef * WireValue),
    [ data_def "int" "llm.parameters.seed";
      data_value "int" (Number (JNumber 7)) ]
    = pairs ≫= (fun '(d, v) =>
         [data_def (type d) (fqdn d); data_value (type d) v]).
Proof.
  destruct (payload_entries_come_in_pairs
              [(TOP_K, JNumber 40); (SEED, JNumber 7)] [] "openai-o1-mini"
              None new_World new_World
              [ data_def "int" "llm.parameters.seed";
                data_value "int" (Number (JNumber 7)) ])
    as (_ & pairs & Hpairs & _).
  - vm_compute. reflexivity.
  - exists pairs. exact Hpairs.
Defined.

(** X8. Under a profile name that resolves to [undefined], nothing is
    filtered and nothing is warned about, although
    [getSupportedParameters] lists no parameter for it. *)
Theorem unknown_profile_is_not_filtered (this : ChatSession)
    (emitter : option EventEmitter) (w : World) :
  property_read modelProfiles (s_profile this) = missing ->
  exists payload,
    buildParametersArray (s_parameters this) (s_tools this) (s_profile this)
      emitter w
    = (w, Return payload)
    /\ (forall P v, (P, v) ∈ s_parameters this ->
          data_def (type (LLMParameters P)) (fqdn (LLMParameters P))
            ∈ default [] payload
          /\ data_value (type (LLMParameters P))
               (encode (type (LLMParameters P)) v) ∈ default [] payload)
    /\ (s_tools this ≠ [] ->
        data_value "json" (Stringify_tools (serializable <$> s_tools this))
          ∈ default [] payload)
    /\ getSupportedParameters this = [].
Proof.
  intros Hmissing.
  rewrite (unregistered_profile_permits_everything _ _ _ _ _ Hmissing).
  cbv zeta. eexists. split; [reflexivity|].
  set (tools := if (0 <? length (s_tools this))%nat
                then tools_entries (s_tools this) else []).
  assert (default [] (if (0 <? length (tools ++ (s_parameters this
                                                    ≫= wire_entries)))%nat
                      then Some (tools ++ (s_parameters this ≫= wire_entries))
                      else None)
          = tools ++ (s_parameters this ≫= wire_entries)) as ->.
  { by destruct (tools ++ (s_parameters this ≫= wire_entries)). }
  split_and!.
  - intros P v Hin.
    assert (forall e, e ∈ wire_entries (P, v) ->
              e ∈ tools ++ (s_parameters this ≫= wire_entries)) as Hsub.
    { intros e He. apply elem_of_app. right. apply list_elem_of_bind.
      by exists (P, v). }
    split; apply Hsub; unfold wire_entries; cbn [fst snd];
      [left|right; left].
  - intros Htools. apply elem_of_app. left. subst tools.
    destruct (s_tools this); [done|]. cbn. right. left.
  - unfold getSupportedParameters. by rewrite Hmissing.
Qed.

Lemma unknown_profile_is_not_filtered_witness :
  exists payload,
    buildParametersArray [(TOP_K, JNumber 40)] [] "my-own-model" (Some ())
      new_World
    = (new_World, Return payload)
    /\ data_def "int" "llm.parameters.top-k" ∈ default [] payload.
Proof.
  destruct (unknown_profile_is_not_filtered
              (mkSession "my-own-model" [] [(TOP_K, JNumber 40)] None)
              (Some ()) new_World) as (payload & Hrun & Hall & _).
  - vm_compute. reflexivity.
  - exists payload. split; [exact Hrun|].
    apply (Hall TOP_K (JNumber 40)). left.
Defined.

(* ================================================================== *)
(** * Frames of the automatic driver (v2.14.0)                         *)
(* ================================================================== *)

Lemma arrays_kept_refl w : arrays_kept w w.
Proof. by intros ref items. Qed.

Lemma arrays_kept_trans w1 w2 w3 :
  arrays_kept w1 w2 -> arrays_kept w2 w3 -> arrays_kept w1 w3.
Proof. intros H12 H23 ref items H. by apply H23, H12. Qed.

Lemma arrays_kept_alloc w w' more :
  heap w' = heap w ++ more -> arrays_kept w w'.
Proof. intros Hh ref items H. rewrite Hh. by apply lookup_app_l_Some. Qed.

(** A write at a reference [w] does not have keeps the arrays of [w]. *)
Lemma arrays_kept_write_fresh w w1 w' ref items :
  arrays_kept w w1 ->
  (length (heap w) <= ref)%nat ->
  heap w' = <[ref := items]> (heap w1) ->
  arrays_kept w w'.
Proof.
  intros Hk Hfresh Hw r its H. rewrite Hw.
  rewrite list_lookup_insert_ne; [by apply Hk|].
  apply lookup_lt_Some in H. lia.
Qed.

Lemma forEach_result_frame results index toolCalls finalMessages w :
  let '(w', r) :=
    V2_14.forEach_result finalMessages toolCalls results index w in
  requests w' = requests w
  /\ emitted w' = emitted w
  /\ length (heap w') = length (heap w)
  /\ forall ref, ref ≠ finalMessages -> heap w' !! ref = heap w !! ref.
Proof.
  revert index w. induction results as [|result results IH]; intros index w.
  - done.
  - cbn [V2_14.forEach_result].
    destruct (toolCalls !! index) as [call|]; [|done].
    unfold Array_push, Array_read, Array_write, bind at 1 2 3 4.
    cbn [heap emitted requests]. unfold bind.
    match goal with
    | |- context [V2_14.forEach_result _ _ _ _ ?w1] =>
        specialize (IH (S index) w1);
        destruct (V2_14.forEach_result finalMessages toolCalls results
                    (S index) w1) as [w' r]
    end.
    destruct IH as (Hreq & Hem & Hlen & Hheap). cbn in Hreq, Hem, Hlen.
    split_and!; [done|done|by rewrite Hlen, !length_insert|].
    intros ref Href. rewrite (Hheap ref Href). cbn [heap].
    by rewrite !list_lookup_insert_ne.
Qed.

Lemma step_resume_frame suspended results w :
  let '(w', r) := V2_14.step_resume suspended results w in
  requests w' = requests w
  /\ length (heap w') = length (heap w)
  /\ forall ref, ref ≠ V2_14.sus_finalMessages suspended ->
                 heap w' !! ref = heap w !! ref.
Proof.
  unfold V2_14.step_resume. unfold bind at 1, emit at 1. unfold bind at 1.
  pose proof (forEach_result_frame results 0 (V2_14.sus_toolCalls suspended)
                (V2_14.sus_finalMessages suspended)
                (mkWorld (heap w) (emitted w ++ [tool_finish results])
                   (requests w))) as H.
  destruct (V2_14.forEach_result _ _ _ _ _) as [w' [[]|e]];
    destruct H as (Hreq & _ & Hlen & Hheap); done.
Qed.

Section FrameFacts.
Variable JSON_parse : string -> Decoded.
Variable JSON_parse_value : string -> Throws JSValue.
Variable fetchWithRetry :
  list RequestBody -> string -> RequestBody -> Throws (list string).
Variable Date_now : World -> Z.

Lemma stream_frame this messages w :
  let '(w', r) :=
    V2_14.stream JSON_parse fetchWithRetry Date_now this
      (Input_array messages) w in
  (exists sent, heap w' = heap w ++ [sent])
  /\ exists sent, sends w w' sent /\ (length sent <= 1)%nat.
Proof.
  rewrite stream_unfold. cbv zeta.
  destruct (buildParametersArray_frame (s_parameters this) (s_tools this)
              (s_profile this) (Some ()) (assembled this messages w))
    as (events & r' & -> & _).
  destruct r' as [pd|e]; cbn [heap requests emitting assembled].
  - split; [by eexists|]. eexists [_]. split; [done|cbn; lia].
  - split; [by eexists|]. exists []. split; [|cbn; lia].
    unfold sends. cbn. by rewrite app_nil_r.
Qed.

Lemma step_frame this messages force w :
  let '(w', r) :=
    V2_14.step JSON_parse fetchWithRetry Date_now this messages force w in
  arrays_kept w w'
  /\ (length (heap w) < length (heap w'))%nat
  /\ (exists sent, sends w w' sent /\ (length sent <= 1)%nat)
  /\ match r with
     | Return (V2_14.tool_request calls suspended) =>
         V2_14.sus_finalMessages suspended = length (heap w)
     | _ => True
     end.
Proof.
  rewrite step_unfold. cbv zeta.
  set (session := if force then V2_14.forced_session this else this).
  set (w0 := mkWorld (heap w ++ [default [] (heap w !! messages)])
               (emitted w) (requests w)).
  pose proof (stream_frame session messages w0) as H.
  destruct (V2_14.stream _ _ _ _ _ _) as [w1 r1].
  destruct H as ([copy Hheap] & sent & Hsent & Hlen).
  assert (arrays_kept w w1) as Hkept.
  { eapply arrays_kept_alloc. rewrite Hheap. subst w0. cbn [heap].
    by rewrite <-app_assoc. }
  assert (length (heap w) < length (heap w1))%nat as Hlt.
  { rewrite Hheap. subst w0. cbn [heap]. rewrite !length_app. cbn. lia. }
  assert (exists sent, sends w w1 sent /\ (length sent <= 1)%nat) as Hs
    by (by exists sent).
  destruct r1 as [[events [[]|e]]|e]; [|done..].
  destruct (0 <? length (collect events).2)%nat.
  - split_and!; done.
  - cbn [heap requests]. split_and!; [|by rewrite length_insert|done..].
    eapply arrays_kept_write_fresh; [exact Hkept| |reflexivity]. lia.
Qed.

Lemma run_loop_frame this maxIterations remaining i messages w0 w :
  arrays_kept w0 w ->
  (length (heap w0) <= length (heap w))%nat ->
  let '(w', r) :=
    V2_14.run_loop JSON_parse JSON_parse_value fetchWithRetry Date_now
      this maxIterations remaining i messages w in
  arrays_kept w0 w'
  /\ exists sent, sends w w' sent /\ (length sent <= remaining)%nat.
Proof.
  revert i messages w. induction remaining as [|remaining IH];
    intros i messages w Hkept Hlen0.
  - cbn. split; [done|]. exists []. split; [|done].
    unfold sends. by rewrite app_nil_r.
  - cbn [V2_14.run_loop]. unfold bind at 1.
    set (isLast := Z.eqb (Z.of_nat i) (Z.of_nat maxIterations - 1)).
    set (w1 := ((if isLast
                 then emit (V2_14.iteration_warning maxIterations)
                 else ret ()) w).1).
    assert ((if isLast then emit (V2_14.iteration_warning maxIterations)
             else ret ()) w = (w1, Return ())) as ->
      by (subst w1; by destruct isLast).
    assert (heap w1 = heap w /\ requests w1 = requests w) as [Hh1 Hr1]
      by (subst w1; by destruct isLast).
    unfold bind at 1.
    pose proof (step_frame this messages isLast w1) as Hstep.
    destruct (V2_14.step _ _ _ _ _ _ _) as [w2 r2].
    destruct Hstep as (Hk2 & Hlt2 & (sent2 & Hs2 & Hl2) & Hfinal).
    assert (arrays_kept w0 w2) as Hk02.
    { intros ref items H. apply Hk2. rewrite Hh1. by apply Hkept. }
    assert (sends w w2 sent2) as Hs02
      by (unfold sends in *; by rewrite Hs2, Hr1).
    destruct r2 as [[calls suspended|value]|e].
    + unfold bind at 1.
      pose proof (step_resume_frame suspended
                    (executeTools JSON_parse_value calls (s_tools this)) w2)
        as Hres.
      destruct (V2_14.step_resume _ _ _) as [w3 r3].
      destruct Hres as (Hr3 & Hl3 & Hh3).
      assert (arrays_kept w0 w3) as Hk03.
      { intros ref items H. rewrite Hh3; [by apply Hk02|].
        apply lookup_lt_Some in H. rewrite Hfinal, Hh1. lia. }
      destruct r3 as [value|e].
      * destruct (negb (String.eqb (V2_14.response_content value) "")).
        -- cbn [ret]. split; [done|]. exists sent2.
           split; [unfold sends in *; by rewrite Hr3|lia].
        -- specialize (IH (S i) (V2_14.response_messages value) w3 Hk03).
           destruct (V2_14.run_loop _ _ _ _ _ _ _ _ _ _) as [w' r'].
           destruct IH as (Hk' & sent' & Hs' & Hl');
             [rewrite Hl3; rewrite Hh1 in Hlt2; lia|].
           split; [done|]. exists (sent2 ++ sent').
           split; [|rewrite length_app; lia].
           unfold sends in *. by rewrite Hs', Hr3, Hs02, app_assoc.
      * split; [done|]. exists sent2.
        split; [unfold sends in *; by rewrite Hr3|lia].
    + cbn [ret]. split; [done|]. exists sent2. split; [done|lia].
    + split; [done|]. exists sent2. split; [done|lia].
Qed.

(** X9. [run] (v2.14.0) changes no array that exists when it is called: the
    caller's history holds the same messages afterwards, whatever the
    transport answers and however the run ends. *)
Theorem run_keeps_the_callers_arrays (this : ChatSession) (input : Input)
    (options : option nat) (w : World) (ref : Ref)
    (items : list ChatMessage) :
  heap w !! ref = Some items ->
  heap (V2_14.run JSON_parse JSON_parse_value fetchWithRetry Date_now this
          input options w).1 !! ref
  = Some items.
Proof.
  unfold V2_14.run. unfold bind at 1.
  set (alloc := match input with
                | Input_text content => new_Array [createUserMessage content]
                | Input_array initialInput =>
                    items <- Array_read initialInput ;; new_Array items
                end).
  assert (exists copy,
    alloc w = (mkWorld (heap w ++ [copy]) (emitted w) (requests w),
               Return (length (heap w)))) as [copy ->]
    by (subst alloc; destruct input; by eexists).
  pose proof (run_loop_frame this (default 5%nat options)
                (default 5%nat options) 0 (length (heap w)) w
                (mkWorld (heap w ++ [copy]) (emitted w) (requests w))) as H.
  destruct (V2_14.run_loop _ _ _ _ _ _ _ _ _ _) as [w' r].
  destruct H as [Hkept _].
  - by eapply arrays_kept_alloc.
  - cbn. rewrite length_app. lia.
  - intros Href. by apply Hkept.
Qed.

(** X10. [run] (v2.14.0) sends at most [maxIterations] requests (five when
    the option is absent), whatever the transport answers, and only
    appends to the requests sent before. *)
Theorem run_sends_at_most_maxIterations (this : ChatSession)
    (input : Input) (options : option nat) (w : World) :
  exists sent,
    requests (V2_14.run JSON_parse JSON_parse_value fetchWithRetry Date_now
                this input options w).1
    = requests w ++ sent
    /\ (length sent <= default 5 options)%nat.
Proof.
  unfold V2_14.run. unfold bind at 1.
  set (alloc := match input with
                | Input_text content => new_Array [createUserMessage content]
                | Input_array initialInput =>
                    items <- Array_read initialInput ;; new_Array items
                end).
  assert (exists copy,
    alloc w = (mkWorld (heap w ++ [copy]) (emitted w) (requests w),
               Return (length (heap w)))) as [copy ->]
    by (subst alloc; destruct input; by eexists).
  pose proof (run_loop_frame this (default 5%nat options)
                (default 5%nat options) 0 (length (heap w)) w
                (mkWorld (heap w ++ [copy]) (emitted w) (requests w))) as H.
  destruct (V2_14.run_loop _ _ _ _ _ _ _ _ _ _) as [w' r].
  destruct H as [_ (sent & Hs & Hl)].
  - by eapply arrays_kept_alloc.
  - cbn. rewrite length_app. lia.
  - by exists sent.
Qed.
End FrameFacts.

(* ================================================================== *)
(** * Frames of the automatic driver (v2.11.0)                         *)
(* ================================================================== *)

Lemma empty_params_payload tools profile emitter w w' payload :
  buildParametersArray [] tools profile emitter w = (w', Return payload) ->
  Forall names_tools_only (default [] payload).
Proof.
  unfold buildParametersArray. unfold bind at 1.
  destruct (0 <? length tools)%nat.
  - unfold bind at 1.
    destruct (permits _ _ w) as [w1 [[]|e]]; [| |done]; cbn.
    + intros [= _ <-]. cbn. repeat constructor.
    + intros [= _ <-]. constructor.
  - cbn. intros [= _ <-]. constructor.
Qed.

Lemma toolMessagesPayload_zip results index toolCalls :
  (length results + index <= length toolCalls)%nat ->
  V2_11.toolMessagesPayload toolCalls results index
  = Return (zip (drop index toolCalls) results ≫= call_and_result).
Proof.
  revert index. induction results as [|result results IH]; intros index Hlen.
  - cbn. by rewrite zip_with_nil_r.
  - cbn [V2_11.toolMessagesPayload length] in *.
    destruct (lookup_lt_is_Some_2 toolCalls index) as [call Hcall]; [lia|].
    rewrite Hcall, (drop_S _ _ _ Hcall), IH by lia.
    cbn [zip_with mbind list_bind call_and_result round_trip_entries].
    unfold round_trip_entries, createAssistantToolCallMessage,
      createToolResultMessage.
    by rewrite resultValue_payload.
Qed.

Section FrameFacts_v2_11.
Variable JSON_parse : string -> Decoded.
Variable JSON_parse_value : string -> Throws JSValue.
Variable fetchWithRetry :
  list RequestBody -> string -> RequestBody -> Throws (list string).
Variable Date_now : World -> Z.

Local Abbreviation run_loop :=
  (V2_11.run_loop JSON_parse JSON_parse_value fetchWithRetry Date_now).

(** The v2.11.0 loop only appends to the array it works on, and writes
    no other array. *)
Lemma run_loop_v2_11_frame this remaining i messages history w :
  heap w !! messages = Some history ->
  let '(w', r) := run_loop this remaining i messages w in
  (exists more, heap w' !! messages = Some (history ++ more))
  /\ (forall ref items, ref ≠ messages -> heap w !! ref = Some items ->
                        heap w' !! ref = Some items).
Proof.
  revert i history w. induction remaining as [|remaining IH];
    intros i history w Hhist.
  - cbn. split_and!; [exists []; by rewrite app_nil_r|done].
  - cbn [V2_11.run_loop]. unfold bind at 1.
    rewrite stream_v2_11_unfold. cbv zeta.
    destruct (buildParametersArray_frame
                (if Nat.eqb i 0 then s_parameters this else [])
                (s_tools this) (s_profile this) (Some ())
                (assembled this messages w))
      as (events & r0 & -> & _).
    pose proof (lookup_lt_Some _ _ _ Hhist) as Hlt.
    assert (forall copy,
      (exists more, (heap w ++ [copy]) !! messages = Some (history ++ more))
      /\ (forall ref items, ref ≠ messages -> heap w !! ref = Some items ->
            (heap w ++ [copy]) !! ref = Some items)) as Hstop.
    { intros copy. split.
      - exists []. rewrite app_nil_r. by apply lookup_app_l_Some.
      - intros ref items _ H. by apply lookup_app_l_Some. }
    destruct r0 as [pd|e]; cbn [heap emitted requests emitting assembled];
      [|cbn [heap]; apply Hstop].
    destruct (fetchWithRetry _ _ _) as [chunks|e]; [|cbn [heap]; apply Hstop].
    destruct (read_stream (V2_11.parseLine JSON_parse) chunks)
      as [evs completion].
    destruct (collect evs) as [assistantResponse toolCalls].
    destruct completion as [[]|e]; [|cbn [heap]; apply Hstop].
    destruct (0 <? length toolCalls)%nat; [|cbn [heap]; apply Hstop].
    unfold bind at 1, emit at 1. unfold bind at 1, emit at 1.
    destruct (V2_11.toolMessagesPayload toolCalls _ 0) as [payload|e];
      [|cbn [heap]; apply Hstop].
    unfold bind, Array_push, Array_read, Array_write, ret.
    unfold bind. cbv beta iota. cbn [heap emitted requests].
    rewrite (lookup_app_l_Some _ _ _ _ Hhist). cbn [default].
    match goal with
    | |- context [run_loop this remaining (S i) messages ?w1] =>
        specialize (IH (S i) (history ++ payload) w1);
        destruct (run_loop this remaining (S i) messages w1) as [w' r]
    end.
    destruct IH as ([more Hmore] & Hothers).
    { cbn [heap]. apply list_lookup_insert_eq. rewrite length_app. lia. }
    split.
    + exists (payload ++ more). by rewrite app_assoc.
    + intros ref items Href H. apply Hothers; [done|]. cbn [heap].
      rewrite list_lookup_insert_ne by done. by apply lookup_app_l_Some.
Qed.

(** X11. In v2.11.0 [run] works on the array it is given: the entries of a
    tool round trip are pushed on the caller's array. *)
Theorem run_v2_11_appends_to_the_callers_array (this : ChatSession)
    (messages : Ref) (history : list ChatMessage) (w w1 : World)
    (events : list StreamEvent) (text : string) (calls : list ToolCall) :
  heap w !! messages = Some history ->
  V2_11.stream JSON_parse fetchWithRetry Date_now this
    (Input_array messages) true w
  = (w1, Return (events, Return ())) ->
  collect events = (text, calls) ->
  calls ≠ [] ->
  let results := executeTools JSON_parse_value calls (s_tools this) in
  exists more,
    heap (V2_11.run JSON_parse JSON_parse_value fetchWithRetry Date_now this
            (Input_array messages) w).1 !! messages
    = Some (history ++ (zip calls results ≫= call_and_result) ++ more)
    /\ (length history < length (history
                          ++ (zip calls results ≫= call_and_result) ++ more))%nat.
Proof.
  intros Hhist Hstream Hcollect Hne results.
  unfold V2_11.run. unfold bind at 1. cbn [ret].
  unfold V2_11.maxToolIterations. generalize 4%nat. intros remaining.
  cbn [V2_11.run_loop]. unfold bind at 1. cbn [Nat.eqb].
  rewrite Hstream, Hcollect.
  destruct calls as [|call calls]; [done|]. cbn [length Nat.ltb Nat.leb].
  unfold bind at 1, emit at 1. unfold bind at 1, emit at 1.
  fold results.
  rewrite (toolMessagesPayload_zip results 0 (call :: calls))
    by (subst results; unfold executeTools; rewrite length_fmap; lia).
  cbn [drop].
  assert (exists copy, heap w1 = heap w ++ [copy]) as [copy Hheap].
  { revert Hstream. rewrite stream_v2_11_unfold. cbv zeta.
    destruct (buildParametersArray_frame (s_parameters this) (s_tools this)
                (s_profile this) (Some ()) (assembled this messages w))
      as (evs & r0 & -> & _).
    destruct r0 as [pd|e]; [|done]. intros [= <- _]. by eexists. }
  pose proof (lookup_lt_Some _ _ _ Hhist) as Hlt.
  unfold bind, Array_push, Array_read, Array_write, ret.
  unfold bind. cbv beta iota. cbn [heap emitted requests].
  rewrite Hheap, (lookup_app_l_Some _ _ _ _ Hhist). cbn [default].
  match goal with
  | |- context [V2_11.run_loop _ _ _ _ this remaining 1 messages ?w2] =>
      pose proof (run_loop_v2_11_frame this remaining 1 messages
                    (history ++ (zip (call :: calls) results
                                   ≫= call_and_result)) w2) as H;
      destruct (V2_11.run_loop JSON_parse JSON_parse_value fetchWithRetry
                  Date_now this remaining 1 messages w2) as [w' r]
  end.
  destruct H as [[more Hmore] _].
  { cbn [heap]. apply list_lookup_insert_eq. rewrite length_app. lia. }
  exists more. cbn [fst]. rewrite Hmore, <-app_assoc. split; [done|].
  subst results. cbn [executeTools fmap list_fmap zip_with mbind list_bind].
  rewrite !length_app. cbn. lia.
Qed.

Lemma run_loop_v2_11_requests this remaining i messages w :
  let '(w', r) := run_loop this remaining i messages w in
  exists sent,
    sends w w' sent /\ (length sent <= remaining)%nat
    /\ Forall (fun body =>
                 Forall names_tools_only (default [] (body_parameters body)))
         (if Nat.eqb i 0 then tail sent else sent).
Proof.
  revert i w. induction remaining as [|remaining IH]; intros i w.
  - cbn. exists []. unfold sends. rewrite app_nil_r.
    split_and!; [done..|]. by destruct (Nat.eqb i 0).
  - cbn [V2_11.run_loop]. unfold bind at 1.
    rewrite stream_v2_11_unfold. cbv zeta.
    destruct (buildParametersArray_frame
                (if Nat.eqb i 0 then s_parameters this else [])
                (s_tools this) (s_profile this) (Some ())
                (assembled this messages w))
      as (events & r0 & Hparams & _).
    rewrite Hparams.
    destruct r0 as [pd|e]; cbn [heap emitted requests emitting assembled].
    2:{ exists []. unfold sends. cbn. rewrite app_nil_r.
        split_and!; [done|lia|]. by destruct (Nat.eqb i 0). }
    assert (Nat.eqb i 0 = false ->
            Forall names_tools_only (default [] pd)) as Hpd.
    { intros Hi. rewrite Hi in Hparams.
      by apply empty_params_payload in Hparams. }
    match goal with
    | |- context [fetchWithRetry (requests w) ?path ?b] =>
        generalize (eq_refl : body_parameters b = pd);
        generalize b; intros body Hbody
    end.
    assert (forall sent' : list RequestBody,
      Forall (fun body =>
                Forall names_tools_only (default [] (body_parameters body)))
        sent' ->
      Forall (fun body =>
                Forall names_tools_only (default [] (body_parameters body)))
        (if Nat.eqb i 0 then tail (body :: sent') else body :: sent'))
      as Hsent.
    { intros sent' Hs. destruct (Nat.eqb i 0) eqn:Hi; [done|].
      constructor; [|done]. rewrite Hbody. by apply Hpd. }
    assert (exists sent,
      sends w (mkWorld (heap w ++ [request_messages (s_systemMessage this)
                                     (default [] (heap w !! messages))])
                 (emitted w ++ events) (requests w ++ [body])) sent
      /\ (length sent <= S remaining)%nat
      /\ Forall (fun body =>
                   Forall names_tools_only
                     (default [] (body_parameters body)))
            (if Nat.eqb i 0 then tail sent else sent)) as Hone.
    { exists [body]. split_and!; [done|cbn; lia|by apply Hsent]. }
    destruct (fetchWithRetry (requests w) "/llm/chat/stream/v8" body)
      as [chunks|e]; [|done].
    destruct (read_stream (V2_11.parseLine JSON_parse) chunks)
      as [evs completion].
    destruct (collect evs) as [assistantResponse toolCalls].
    destruct completion as [[]|e]; [|done].
    destruct (0 <? length toolCalls)%nat; [|done].
    unfold bind at 1, emit at 1. unfold bind at 1, emit at 1.
    destruct (V2_11.toolMessagesPayload toolCalls _ 0) as [payload|e];
      [|done].
    unfold bind, Array_push, Array_read, Array_write, ret.
    unfold bind. cbv beta iota. cbn [heap emitted requests].
    match goal with
    | |- context [run_loop this remaining (S i) messages ?w1] =>
        specialize (IH (S i) w1);
        destruct (run_loop this remaining (S i) messages w1) as [w' r]
    end.
    destruct IH as (sent' & Hs' & Hl' & Htools).
    exists (body :: sent'). split_and!.
    + unfold sends in *. cbn [requests] in Hs'.
      by rewrite Hs', <-app_assoc.
    + cbn. lia.
    + by apply Hsent.
Qed.

(** X12. [run] (v2.11.0) sends at most five requests, and from the second one
    on they carry no parameter but the tools. *)
Theorem run_v2_11_later_turns_carry_only_tools (this : ChatSession)
    (input : Input) (w : World) :
  exists sent,
    requests (V2_11.run JSON_parse JSON_parse_value fetchWithRetry Date_now
                this input w).1
    = requests w ++ sent
    /\ (length sent <= 5)%nat
    /\ Forall (fun body =>
                 Forall names_tools_only (default [] (body_parameters body)))
         (tail sent).
Proof.
  unfold V2_11.run. unfold bind at 1.
  assert (exists w0 messages,
    match input with
    | Input_text content => new_Array [createUserMessage content]
    | Input_array initialInput => ret initialInput
    end w = (w0, Return messages) /\ requests w0 = requests w)
    as (w0 & messages & -> & Hreq0).
  { destruct input; by eexists _, _. }
  pose proof (run_loop_v2_11_requests this V2_11.maxToolIterations 0
                messages w0) as H.
  destruct (run_loop _ _ _ _ _) as [w' r].
  destruct H as (sent & Hs & Hl & Ht). exists sent.
  unfold sends in Hs. rewrite Hreq0 in Hs. by split_and!.
Qed.
End FrameFacts_v2_11.

(* ================================================================== *)
(** * Resuming a step, running the tools                               *)
(* ================================================================== *)

(** ** Resuming [step] with a number of results that is not the number of
    calls *)

Lemma forEach_result_overflow results index toolCalls finalMessages old w :
  heap w !! finalMessages = Some old ->
  (index <= length toolCalls < length results + index)%nat ->
  V2_14.forEach_result finalMessages toolCalls results index w =
    (mkWorld
       (<[finalMessages :=
            old ++ (zip (drop index toolCalls) results ≫= call_and_result)]>
          (heap w))
       (emitted w) (requests w),
     Throw (TypeError "Cannot read properties of undefined (reading 'id')")).
Proof.
  revert index old w.
  induction results as [|result results IH]; intros index old w Hold Hlen.
  - cbn in Hlen. lia.
  - cbn [V2_14.forEach_result length] in *.
    destruct (toolCalls !! index) as [call|] eqn:Hcall.
    + rewrite (drop_S _ _ _ Hcall).
      pose proof (lookup_lt_Some _ _ _ Hold) as Hlt.
      pose proof (lookup_lt_Some _ _ _ Hcall) as Hlt'.
      unfold Array_push, Array_read, Array_write, bind at 1 2 3 4.
      cbn [heap emitted requests]. rewrite Hold. cbn [default].
      rewrite list_lookup_insert_eq by done. cbn [default].
      rewrite list_insert_insert_eq. unfold bind.
      rewrite (IH (S index) ((old ++ [createAssistantToolCallMessage
                                       (tc_id call) (tc_name call)
                                       (tc_arguments call)])
                             ++ [createToolResultMessage (tc_id call)
                                   (tc_name call)
                                   (JSON_stringify (resultValue result))])).
      * cbn [heap emitted requests]. rewrite list_insert_insert_eq.
        do 3 f_equal. cbn [zip_with mbind list_bind call_and_result].
        rewrite resultValue_payload. by rewrite <-!app_assoc.
      * cbn [heap]. by apply list_lookup_insert_eq.
      * lia.
    + apply lookup_ge_None in Hcall.
      rewrite drop_ge by done. cbn. rewrite app_nil_r.
      rewrite list_insert_id by done. by destruct w.
Qed.

(** X13. Resuming a [step] with any number of results: the history gets the
    call and result entries of the results that have a call, in order.
    With no more results than calls the step returns its text response;
    with more, the first result without a call raises a [TypeError], the
    entries before it staying appended. *)
Theorem step_resume_with_another_number_of_results
    (JSON_parse : string -> Decoded)
    (fetchWithRetry :
       list RequestBody -> string -> RequestBody -> Throws (list string))
    (Date_now : World -> Z)
    (this : ChatSession) (messages : Ref) (forceTextResponse : bool)
    (history : list ChatMessage) (w w1 : World)
    (calls : list ToolCall) (suspended : V2_14.Suspended)
    (results : list ToolExecutionResult) :
  heap w !! messages = Some history ->
  V2_14.step JSON_parse fetchWithRetry Date_now this messages
    forceTextResponse w
    = (w1, Return (V2_14.tool_request calls suspended)) ->
  let entries := zip calls results ≫= call_and_result in
  exists w2,
    heap w2 !! V2_14.sus_finalMessages suspended = Some (history ++ entries)
    /\ length entries = (2 * min (length calls) (length results))%nat
    /\ emitted w2 = emitted w1 ++ [tool_finish results]
    /\ V2_14.step_resume suspended results w1 =
         (w2,
          if (length results <=? length calls)%nat
          then Return (V2_14.mkTextResponse
                         (V2_14.sus_assistantResponse suspended)
                         (V2_14.sus_finalMessages suspended))
          else Throw (TypeError
                        "Cannot read properties of undefined (reading 'id')")).
Proof.
  intros Hhist Hstep entries.
  apply step_tool_request in Hstep as (Hcalls & Hfinal & Hne & sent & Hheap).
  rewrite Hhist in Hheap. cbn [default] in Hheap.
  pose proof (lookup_lt_Some _ _ _ Hhist) as Hlt.
  assert (heap w1 !! length (heap w) = Some history) as Hold.
  { rewrite Hheap. apply lookup_app_l_Some, lookup_snoc. }
  assert (length entries = (2 * min (length calls) (length results))%nat)
    as Hentries.
  { subst entries. clear. revert results.
    induction calls as [|call calls IH]; intros [|result results];
      try done.
    cbn [zip_with mbind list_bind length]. rewrite length_app, IH.
    cbn. lia. }
  assert (length (heap w) < length (heap w1))%nat as Hlen1.
  { rewrite Hheap, !length_app. cbn. lia. }
  unfold V2_14.step_resume. unfold bind at 1, emit at 1. unfold bind at 1.
  rewrite Hfinal, Hcalls.
  destruct (length results <=? length calls)%nat eqn:Hle.
  - apply Nat.leb_le in Hle.
    rewrite (forEach_result_pushes results 0 calls (length (heap w)) history);
      [|done|lia].
    cbn [ret heap emitted requests drop].
    exists (mkWorld (<[length (heap w) := history ++ entries]> (heap w1))
              (emitted w1 ++ [tool_finish results]) (requests w1)).
    split_and!; [|done|reflexivity..].
    cbn [heap]. by apply list_lookup_insert_eq.
  - apply Nat.leb_gt in Hle.
    rewrite (forEach_result_overflow results 0 calls (length (heap w))
               history); [|done|lia].
    cbn [ret heap emitted requests drop].
    exists (mkWorld (<[length (heap w) := history ++ entries]> (heap w1))
              (emitted w1 ++ [tool_finish results]) (requests w1)).
    split_and!; [|done|reflexivity..].
    cbn [heap]. by apply list_lookup_insert_eq.
Qed.

(** ** [executeTools] *)


(** ** The forced-text session *)

Lemma forced_entry_key entry entry' :
  forced_entry entry = Some entry' -> entry'.1 = entry.1.
Proof. destruct entry as [[] v]; cbn; by intros [= <-]. Qed.

Lemma forced_step (builder : Params) key value :
  match ParameterBuilder.method (methodName key) with
  | Some method => method value builder
  | None => builder
  end
  = match forced_entry (key, value) with
    | Some (key', value') => assign key' value' builder
    | None => builder
    end.
Proof. destruct key; reflexivity. Qed.

Lemma assign_fresh k v (o : Params) :
  k ∉ o.*1 -> assign k v o = o ++ [(k, v)].
Proof.
  induction o as [|[k' v'] o IH]; [done|].
  cbn [assign fmap list_fmap fst]. intros Hk.
  apply not_elem_of_cons in Hk as [Hne Hk].
  case_bool_decide; [done|]. cbn. by rewrite IH.
Qed.

Lemma forced_fold (entries builder : Params) :
  NoDup (builder.*1 ++ entries.*1) ->
  fold_left
    (fun builder '(key, value) =>
       match ParameterBuilder.method (methodName key) with
       | Some method => method value builder
       | None => builder
       end) entries builder
  = builder ++ omap forced_entry entries.
Proof.
  revert builder. induction entries as [|[key value] entries IH];
    intros builder Hnd.
  - cbn. by rewrite app_nil_r.
  - cbn [fold_left omap list_omap]. rewrite forced_step.
    cbn [fmap list_fmap fst] in Hnd.
    apply NoDup_app in Hnd as (Hb & Hdisj & Hrest).
    apply NoDup_cons in Hrest as [Hkey Hrest].
    destruct (forced_entry (key, value)) as [[key' value']|] eqn:Hf.
    + apply forced_entry_key in Hf as Hk. cbn in Hk. subst key'.
      rewrite assign_fresh by (intros Hin; apply (Hdisj _ Hin); left).
      rewrite IH, <-app_assoc; [done|].
      rewrite fmap_app. cbn [fmap list_fmap fst]. rewrite <-app_assoc.
      apply NoDup_app. split_and!; [done| |by apply NoDup_cons].
      intros k Hin. apply Hdisj in Hin. done.
    + apply IH. apply NoDup_app. split_and!; [done| |done].
      intros k Hin Hin'. apply (Hdisj _ Hin). by right.
Qed.

(** X15. The session [step] streams with on the last turn: the original one,
    with its parameters passed again through the builder's setters. *)
Theorem forced_session_parameters (this : ChatSession) :
  NoDup (s_parameters this).*1 ->
  s_parameters (V2_14.forced_session this)
  = assign TOOL_CHOICE_NONE (JBool true)
      (omap forced_entry (s_parameters this))
  /\ (RESPONSE_FORMAT ∉ (s_parameters (V2_14.forced_session this)).*1)
  /\ (forall toolName,
        (TOOL_CHOICE_NAMED, toolName) ∈ s_parameters this ->
        (TOOL_CHOICE_NAMED,
         JObject [("type", JString "function");
                  ("function", JObject [("name", toolName)])])
          ∈ s_parameters (V2_14.forced_session this))
  /\ s_profile (V2_14.forced_session this) = s_profile this
  /\ s_tools (V2_14.forced_session this) = s_tools this
  /\ s_systemMessage (V2_14.forced_session this) = s_systemMessage this.
Proof.
  intros Hnd.
  assert (s_parameters (V2_14.forced_session this)
          = assign TOOL_CHOICE_NONE (JBool true)
              (omap forced_entry (s_parameters this))) as Hparams.
  { unfold V2_14.forced_session, V2_14.withParameters. cbn [s_parameters].
    unfold ParameterBuilder._build, ParameterBuilder.toolChoiceNone.
    cbn [default_arg]. by rewrite forced_fold. }
  assert (forall k v (o : Params) e, e ∈ o -> e.1 ≠ k -> e ∈ assign k v o)
    as Hkeep.
  { intros k v o e. induction o as [|[k' v'] o IH]; [by intros ?%elem_of_nil|].
    cbn [assign]. intros [->|Hin]%elem_of_cons Hne.
    - case_bool_decide; [by subst|left].
    - case_bool_decide; right; [done|by apply IH]. }
  assert (forall k v (o : Params) k', k' ∈ (assign k v o).*1 ->
            k' = k \/ k' ∈ o.*1) as Hkeys.
  { intros k v o k'. induction o as [|[k2 v2] o IH].
    - cbn. intros ?%list_elem_of_singleton. by left.
    - cbn [assign]. case_bool_decide.
      + cbn. intros [->|Hin]%elem_of_cons; [by left|]. right. by right.
      + cbn. intros [->|Hin]%elem_of_cons; [right; left|].
        destruct (IH Hin) as [->|?]; [by left|]. right. by right. }
  split; [done|]. split; [|split; [|done]].
  - rewrite Hparams. intros Hin. apply Hkeys in Hin as [?|Hin]; [done|].
    apply list_elem_of_fmap in Hin as ([k v] & Hk & Hin).
    apply list_elem_of_omap in Hin as ([k0 v0] & _ & Hf).
    cbn in Hk. subst k. by destruct k0.
  - intros toolName Hin. rewrite Hparams. apply Hkeep; [|done].
    apply list_elem_of_omap. by exists (TOOL_CHOICE_NAMED, toolName).
Qed.

Lemma forced_session_parameters_witness :
  s_parameters
    (V2_14.forced_session
       (mkSession "openai-gpt-4o" []
          [ (TEMPERATURE, JNumber 1);
            (RESPONSE_FORMAT, JObject [("type", JString "json")]) ] None))
  = [ (TEMPERATURE, JNumber 1); (TOOL_CHOICE_NONE, JBool true) ].
Proof.
  destruct (forced_session_parameters
              (mkSession "openai-gpt-4o" []
                 [ (TEMPERATURE, JNumber 1);
                   (RESPONSE_FORMAT, JObject [("type", JString "json")]) ]
                 None)) as [-> _].
  - cbn. apply NoDup_cons. split; [|apply NoDup_singleton].
    intros H%list_elem_of_singleton. discriminate.
  - reflexivity.
Defined.

(* ================================================================== *)
(** * The Task API                                                     *)
(* ================================================================== *)

Lemma split_colon_free s : Task.colon_free s = true -> Task.split_colon s = [s].
Proof.
  induction s as [|c s IH]; [done|]. cbn [Task.colon_free Task.split_colon].
  destruct (Ascii.eqb c ":"); [done|]. cbn. intros Hs. by rewrite IH.
Qed.

Lemma split_colon_app s rest :
  Task.colon_free s = true ->
  Task.split_colon (s +:+ String ":" rest) = s :: Task.split_colon rest.
Proof.
  induction s as [|c s IH]; [done|]. cbn [Task.colon_free].
  change (String c s +:+ String ":" rest)
    with (String c (s +:+ String ":" rest)).
  cbn [Task.split_colon].
  destruct (Ascii.eqb c ":"); [done|]. cbn. intros Hs. by rewrite IH.
Qed.

(** X16. [#splitId]: the task id is what precedes the first colon, the tag
    what lies between the first colon and the second; an empty tag is no
    tag, and what follows a second colon is dropped. *)
Theorem splitId_parts (taskId tag rest : string) :
  Task.colon_free taskId = true ->
  Task.colon_free tag = true ->
  Task.splitId taskId = (Some taskId, None)
  /\ Task.splitId (taskId +:+ String ":" tag) = (Some taskId, carried (given tag))
  /\ Task.splitId (taskId +:+ String ":" (tag +:+ String ":" rest))
     = (Some taskId, carried (given tag)).
Proof.
  intros Hid Htag. unfold Task.splitId. split_and!.
  - by rewrite split_colon_free.
  - rewrite split_colon_app, split_colon_free by done. done.
  - rewrite !split_colon_app by done. cbn [take lookup list_lookup carried].
    done.
Qed.

Lemma splitId_parts_witness :
  Task.splitId "code-generate:default" = (Some "code-generate", Some "default").
Proof.
  destruct (splitId_parts "code-generate" "default" "") as (_ & H & _);
    [reflexivity..|exact H].
Defined.

Section TaskFacts.
Variable JSON_parse : string -> Task.Decoded.
Variable fetchWithRetry : Task.Request -> Throws (list string).

Lemma task_parse_lines_app l1 l2 :
  Task.parse_lines JSON_parse (l1 ++ l2) =
    match Task.parse_lines JSON_parse l1 with
    | (e1, Throw e) => (e1, Throw e)
    | (e1, Return _) =>
        let '(e2, r) := Task.parse_lines JSON_parse l2 in (e1 ++ e2, r)
    end.
Proof.
  induction l1 as [|line l1 IH].
  - cbn. by destruct (Task.parse_lines JSON_parse l2).
  - cbn [app Task.parse_lines].
    destruct (String.eqb (trim line) ""); [apply IH|].
    destruct (Task.parseLine JSON_parse line) as [event|e]; [|done].
    rewrite IH.
    destruct (Task.parse_lines JSON_parse l1) as [e1 [[]|e]]; [|done].
    destruct (Task.parse_lines JSON_parse l2) as [e2 r].
    by rewrite app_assoc.
Qed.

Lemma task_read_chunks_whole chunks buffer :
  split_lines buffer = ([], buffer) ->
  Task.read_chunks JSON_parse buffer chunks =
    let '(lines, rest) := split_lines (buffer +:+ concatenation chunks) in
    match Task.parse_lines JSON_parse lines with
    | (events, Throw e) => (events, Throw e)
    | (events, Return _) => (events, Return rest)
    end.
Proof.
  revert buffer. induction chunks as [|chunk chunks IH]; intros buffer Hb.
  - cbn [Task.read_chunks concatenation foldr].
    by rewrite string_app_nil_r, Hb.
  - cbn [Task.read_chunks concatenation foldr].
    change (foldr String.append "" chunks) with (concatenation chunks).
    rewrite <-string_app_assoc, (split_lines_app (buffer +:+ chunk)).
    pose proof (split_lines_rest (buffer +:+ chunk)) as Hrest.
    destruct (split_lines (buffer +:+ chunk)) as [lines rest].
    cbn [snd] in Hrest. cbv zeta.
    pose proof (IH rest Hrest) as IH'.
    destruct (split_lines (rest +:+ concatenation chunks)) as [lb rb].
    rewrite task_parse_lines_app.
    destruct (Task.parse_lines JSON_parse lines) as [events [[]|e]]; [|done].
    rewrite IH'.
    by destruct (Task.parse_lines JSON_parse lb) as [e2 [[]|e]].
Qed.

Lemma task_stream_lines (id : string) (parameters : JSValue) :
  Task.stream JSON_parse fetchWithRetry id parameters =
    match fetchWithRetry
            (Task.mkRequest
               ("/task/stream/v4/" +:+ Task.template (Task.splitId id).1)
               (match (Task.splitId id).2 with
                | Some tag => [("Grazie-Task-Tag", tag)]
                | None => []
                end)
               parameters) with
    | Throw e => ([], Throw e)
    | Return chunks =>
        Task.parse_lines JSON_parse (lines_of (concatenation chunks))
    end.
Proof.
  unfold Task.stream. destruct (Task.splitId id) as [taskId tag]. cbn [fst snd].
  destruct (fetchWithRetry _) as [chunks|e]; [|done].
  rewrite task_read_chunks_whole by done.
  change ("" +:+ concatenation chunks) with (concatenation chunks).
  unfold lines_of.
  destruct (split_lines (concatenation chunks)) as [lines last].
  rewrite task_parse_lines_app.
  destruct (Task.parse_lines JSON_parse lines) as [events [[]|e]]; done.
Qed.

(** X17. [TaskAPI.stream]: the request sent, and the events as a function of
    the text of the response, however it is cut into chunks. *)
Theorem task_stream_request_and_events (taskId tag : string)
    (parameters : JSValue) :
  Task.colon_free taskId = true ->
  Task.colon_free tag = true ->
  let id := if String.eqb tag "" then taskId
            else taskId +:+ String ":" tag in
  Task.stream JSON_parse fetchWithRetry id parameters =
    match fetchWithRetry
            (Task.mkRequest ("/task/stream/v4/" +:+ taskId)
               (if String.eqb tag "" then []
                else [("Grazie-Task-Tag", tag)])
               parameters) with
    | Throw e => ([], Throw e)
    | Return chunks =>
        Task.parse_lines JSON_parse (lines_of (concatenation chunks))
    end.
Proof.
  intros Hid Htag id. rewrite task_stream_lines.
  assert (Task.splitId id = (Some taskId, carried (given tag))) as ->.
  { subst id. unfold Task.splitId.
    destruct (String.eqb_spec tag "") as [->|Hne].
    - by rewrite split_colon_free.
    - rewrite split_colon_app, split_colon_free by done. cbn.
      by destruct (String.eqb_spec tag ""). }
  cbn [carried Task.template fst snd].
  by destruct (String.eqb tag "").
Qed.

Lemma data_line_not_blank (line : string) :
  startsWith line "data: " = true -> String.eqb (trim line) "" = false.
Proof.
  destruct line as [|c line]; [done|]. unfold startsWith. cbn [String.prefix].
  destruct (ascii_dec "d" c) as [<-|]; [|done]. intros _.
  unfold trim. cbn [trimStart is_white_space]. 
  change (trimStart (String "d" line)) with (String "d" line).
  cbn [trimEnd]. change (is_white_space "d") with false. done.
Qed.

(** X18. A data line of a task stream whose payload is not JSON ends the
    stream with an [SSEError] carrying the decoder's message: the events
    of the lines before it have been yielded, the lines after it are not
    read, and [execute] rejects with that error, returning nothing of
    what was received. *)
Theorem task_stream_fails_at_a_malformed_line (id : string)
    (parameters : JSValue) (chunks before after : list string)
    (line m : string) :
  (forall request, fetchWithRetry request = Return chunks) ->
  lines_of (concatenation chunks) = before ++ line :: after ->
  (Task.parse_lines JSON_parse before).2 = Return () ->
  startsWith line "data: " = true ->
  String.eqb (trim (substring_from 6 line)) "end" = false ->
  JSON_parse (substring_from 6 line) = Task.NotJSON m ->
  let failure :=
    SSEError ("Failed to parse Task SSE data chunk: " +:+ m) in
  Task.stream JSON_parse fetchWithRetry id parameters
  = ((Task.parse_lines JSON_parse before).1, Throw failure)
  /\ Task.execute JSON_parse fetchWithRetry id parameters = Throw failure.
Proof.
  intros Hfetch Hlines Hbefore Hdata Hend Hparse failure.
  assert (Task.stream JSON_parse fetchWithRetry id parameters
          = ((Task.parse_lines JSON_parse before).1, Throw failure)) as Hs.
  { rewrite task_stream_lines, Hfetch, Hlines, task_parse_lines_app.
    destruct (Task.parse_lines JSON_parse before) as [events r].
    cbn [fst snd] in *. subst r.
    cbn [Task.parse_lines]. rewrite data_line_not_blank by done.
    unfold Task.parseLine. rewrite Hdata, Hend, Hparse. cbn.
    by rewrite app_nil_r. }
  split; [exact Hs|]. unfold Task.execute. by rewrite Hs.
Qed.

End TaskFacts.

Lemma last_cons_or {A} (x : A) (l : list A) :
  last (x :: l) = Some (default x (last l)).
Proof.
  revert x. induction l as [|y l IH]; intros x; [done|].
  rewrite last_cons. rewrite (IH y). done.
Qed.

Lemma execute_fold events acc :
  fold_left Task.execute_event events acc =
    let latest type old :=
      match last (omap (Task.event_data type) events) with
      | Some data => Some data
      | None => old
      end in
    Task.mkTaskResult
      (Task.content acc +:+ concatenation (omap Task.event_text events))
      (latest Task.QuotaMetadata (Task.quotaMetadata acc))
      (Task.executionMetadata acc
         ++ omap (Task.event_data Task.ExecutionMetadata) events)
      (latest Task.FinishMetadata (Task.finishMetadata acc))
      (latest Task.UnknownMetadata (Task.unknownMetadata acc))
      (latest Task.FunctionCallMetadata (Task.functionCallMetadata acc)).
Proof.
  revert acc. induction events as [|event events IH]; intros acc.
  - cbn. rewrite string_app_nil_r, app_nil_r. by destruct acc.
  - cbn [fold_left]. rewrite IH. cbv zeta.
    destruct event as [c|[] data];
      cbn [Task.execute_event Task.content Task.quotaMetadata
           Task.executionMetadata Task.finishMetadata Task.unknownMetadata
           Task.functionCallMetadata omap list_omap Task.event_text
           Task.event_data Task.same_type concatenation foldr];
      rewrite ?last_cons_or, ?string_app_assoc, <-?app_assoc;
      f_equal;
      by destruct (last _).
Qed.

(** X19. [TaskAPI.execute]: nothing is returned when the stream raises;
    otherwise the texts are concatenated in order, every execution
    metadata is kept in order, and of each other kind of metadata the
    last one is kept ([null] when there was none). *)
Theorem task_execute_aggregates (JSON_parse : string -> Task.Decoded)
    (fetchWithRetry : Task.Request -> Throws (list string))
    (id : string) (parameters : JSValue) :
  Task.execute JSON_parse fetchWithRetry id parameters =
    match Task.stream JSON_parse fetchWithRetry id parameters with
    | (events, Throw e) => Throw e
    | (events, Return _) =>
        Return
          (Task.mkTaskResult
             (concatenation (omap Task.event_text events))
             (last (omap (Task.event_data Task.QuotaMetadata) events))
             (omap (Task.event_data Task.ExecutionMetadata) events)
             (last (omap (Task.event_data Task.FinishMetadata) events))
             (last (omap (Task.event_data Task.UnknownMetadata) events))
             (last (omap (Task.event_data Task.FunctionCallMetadata) events)))
    end.
Proof.
  unfold Task.execute.
  destruct (Task.stream JSON_parse fetchWithRetry id parameters)
    as [events [[]|e]]; [|done].
  rewrite execute_fold. cbv zeta. cbn [Task.content Task.quotaMetadata
    Task.executionMetadata Task.finishMetadata Task.unknownMetadata
    Task.functionCallMetadata app].
  change ("" +:+ ?s) with s.
  f_equal. f_equal; by destruct (last _).
Qed.

(* ================================================================== *)
(** * The HTTP client: retries and refresh                             *)
(* ================================================================== *)

Section HttpFacts.
Import Http.
Context {Body : Type}.
Variable fetch : list (Request Body) -> Request Body -> Throws Response.

Lemma refreshToken_frame (c : Client Body) :
  let '(c', r) := InternalHttpClient._refreshToken fetch c in
  exists request,
    fetched c' = fetched c ++ [request]
    /\ emitted c' = emitted c /\ token c' = token c
    /\ apiBaseUrl c' = apiBaseUrl c.
Proof.
  unfold InternalHttpClient._refreshToken.
  destruct (fetch _ _) as [response|e]; [|by eexists].
  destruct (negb (ok response)); [by eexists|].
  destruct (json response) as [data|e]; [|by eexists].
  destruct (data_token data) as [newToken|e]; [|by eexists].
  destruct (negb (ToBoolean newToken)); by eexists.
Qed.

Lemma fetchWithRetry_body_once path options (c : Client Body) :
  let '(c', r) :=
    InternalHttpClient.fetchWithRetry_body fetch None path options c in
  (exists request, fetched c' = fetched c ++ [request])
  /\ apiBaseUrl c' = apiBaseUrl c
  /\ token c' = token c
  /\ match r with
     | Return response =>
         ok response = true /\ is_Some (response_body response)
     | Throw e => announced_or_rejected fetch c c' e
     end.
Proof.
  unfold InternalHttpClient.fetchWithRetry_body.
  cbn [emit fetched apiBaseUrl token].
  destruct (fetch _ _) as [response|e] eqn:Hfetch.
  2:{ cbn. split_and!; [by eexists|done..|].
      right. exists []. eexists. rewrite app_nil_r. by split. }
  unfold announced_or_rejected.
  destruct (ok response) eqn:Hok; cbn [negb].
  - destruct (response_body response) eqn:Hbody; cbn.
    + split_and!; [by eexists|done..].
    + split_and!; [by eexists|done..|]. left. apply last_snoc.
  - destruct (Z.eqb (status response) 401); cbn;
      (split_and!; [by eexists|done..|]; left; apply last_snoc).
Qed.

(** X20. [_fetchWithRetry] (v2.14.0) calls [fetch] at most three times (the
    request, the refresh, the request again); a response it returns is
    [ok] and has a body; an error it throws was announced on the emitter,
    unless it is a rejection of [fetch] itself. *)
Theorem fetchWithRetry_is_bounded (path : string) (options : Options Body)
    (isRetry : bool) (c : Client Body) :
  let '(c', r) :=
    InternalHttpClient._fetchWithRetry fetch path options isRetry c in
  (exists calls,
      fetched c' = fetched c ++ calls
      /\ (1 <= length calls <= if isRetry then 1 else 3)%nat)
  /\ apiBaseUrl c' = apiBaseUrl c
  /\ match r with
     | Return response =>
         ok response = true /\ is_Some (response_body response)
     | Throw e => announced_or_rejected fetch c c' e
     end.
Proof.
  unfold InternalHttpClient._fetchWithRetry. destruct isRetry.
  { pose proof (fetchWithRetry_body_once path options c) as H.
    destruct (InternalHttpClient.fetchWithRetry_body _ _ _ _ _) as [c' r].
    destruct H as ([request Hreq] & Hurl & _ & Hr).
    split_and!; [|done..]. exists [request]. split; [done|cbn; lia]. }
  unfold InternalHttpClient.fetchWithRetry_body at 1.
  cbn [emit fetched apiBaseUrl token].
  destruct (fetch _ _) as [response|e] eqn:Hfetch.
  2:{ cbn. split_and!; [eexists [_]; split; [done|cbn; lia]|done|].
      right. exists []. eexists. rewrite app_nil_r. by split. }
  destruct (ok response) eqn:Hok; cbn [negb].
  { destruct (response_body response) eqn:Hbody; cbn.
    - split_and!; [eexists [_]; split; [done|cbn; lia]|done..].
    - split_and!; [eexists [_]; split; [done|cbn; lia]|done|].
      left. apply last_snoc. }
  destruct (Z.eqb (status response) 401).
  2:{ cbn. split_and!; [eexists [_]; split; [done|cbn; lia]|done|].
      left. apply last_snoc. }
  match goal with
  | |- context [InternalHttpClient._refreshToken fetch ?c1] =>
      pose proof (refreshToken_frame c1) as Hrefresh;
      destruct (InternalHttpClient._refreshToken fetch c1) as [c2 r2]
  end.
  destruct Hrefresh as (refresh & Hf2 & He2 & Ht2 & Hu2).
  cbn [emit sent fetched emitted apiBaseUrl token] in Hf2, He2, Ht2, Hu2.
  destruct r2 as [newToken|refreshError].
  2:{ cbn. split_and!.
      - eexists [_; _]. rewrite Hf2, <-app_assoc. split; [done|cbn; lia].
      - done.
      - left. apply last_snoc. }
  match goal with
  | |- context [InternalHttpClient.fetchWithRetry_body fetch None path
                  options ?c3] =>
      pose proof (fetchWithRetry_body_once path options c3) as H;
      destruct (InternalHttpClient.fetchWithRetry_body fetch None path
                  options c3) as [c' r]
  end.
  cbn [emit set_token sent fetched emitted apiBaseUrl token] in H.
  destruct H as ([request Hreq] & Hurl & _ & Hr).
  rewrite Hf2 in Hreq.
  split_and!.
  - eexists [_; _; _]. rewrite Hreq, <-!app_assoc. split; [done|cbn; lia].
  - by rewrite Hurl, Hu2.
  - destruct r as [response'|e]; [done|].
    destruct Hr as [Hlast|(before & request' & Hb & Hrej)]; [by left|].
    right. cbn [emit set_token sent fetched] in Hb, Hrej.
    rewrite Hf2 in Hb, Hrej. eexists (_ :: _ :: before), request'.
    rewrite Hb. rewrite <-!app_assoc in Hrej |- *. by split.
Qed.

(** X21. After a 401 and a refresh that yields a token, the request is sent
    once more, as it was but under the new token, and what comes back is
    final: a second 401 is thrown, not retried. *)
Theorem fetchWithRetry_retries_once_with_the_new_token
    (path : string) (options : Options Body) (c : Client Body)
    (unauthorized refreshed : Response) (data newToken : JSValue) :
  let request :=
    mkRequest (apiBaseUrl c +:+ path) (method options) (token c) true
      (headers options) (body options) in
  let refresh :=
    mkRequest (apiBaseUrl c +:+ "/auth/jwt/refresh/v3") "POST" (token c)
      false [] empty_object in
  let again :=
    mkRequest (apiBaseUrl c +:+ path) (method options) newToken true
      (headers options) (body options) in
  fetch (fetched c) request = Return unauthorized ->
  ok unauthorized = false -> status unauthorized = 401 ->
  fetch (fetched c ++ [request]) refresh = Return refreshed ->
  ok refreshed = true -> json refreshed = Return data ->
  data_token data = Return newToken -> ToBoolean newToken = true ->
  exists c',
    InternalHttpClient._fetchWithRetry fetch path options false c =
      (c',
       match fetch (fetched c ++ [request; refresh]) again with
       | Throw e => Throw e
       | Return response =>
           if ok response then
             match response_body response with
             | Some _ => Return response
             | None => Throw (APIError "API returned a successful status but with an empty response body.")
             end
           else Throw (APIStatusError
                         ("API request failed with status "
                          +:+ pretty (status response))
                         (status response))
       end)
    /\ fetched c' = fetched c ++ [request; refresh; again]
    /\ token c' = newToken
    /\ token_refresh_success newToken ∈ emitted c'.
Proof.
  intros request refresh again Hfetch Hok Hstatus Hrefresh Hok2 Hjson
    Htoken Htruthy.
  unfold InternalHttpClient._fetchWithRetry.
  unfold InternalHttpClient.fetchWithRetry_body at 1.
  cbn [emit fetched apiBaseUrl token]. fold request. rewrite Hfetch, Hok.
  cbn [negb]. rewrite Hstatus. cbn [Z.eqb Pos.eqb].
  unfold InternalHttpClient._refreshToken.
  cbn [emit sent fetched apiBaseUrl token]. fold refresh.
  rewrite Hrefresh, Hok2. cbn [negb]. rewrite Hjson, Htoken, Htruthy.
  cbn [negb]. unfold InternalHttpClient.fetchWithRetry_body.
  cbn [emit set_token sent fetched apiBaseUrl token emitted]. fold again.
  rewrite <-?app_assoc. cbn [app].
  assert (forall (c' : Client Body) (r r' : Throws Response),
    r = r' ->
    fetched c' = fetched c ++ [request; refresh; again] ->
    token c' = newToken ->
    token_refresh_success newToken ∈ emitted c' ->
    exists c'', (c', r) = (c'', r')
      /\ fetched c'' = fetched c ++ [request; refresh; again]
      /\ token c'' = newToken
      /\ token_refresh_success newToken ∈ emitted c'') as Hfinal.
  { intros c' r r' -> ? ? ?. by exists c'. }
  destruct (fetch (fetched c ++ [request; refresh]) again)
    as [response|e];
    [destruct (ok response); cbn [negb];
     [destruct (response_body response)
     |destruct (Z.eqb (status response) 401)]|];
    (apply Hfinal; [done|..];
     cbn [fetched token emitted emit sent set_token apiBaseUrl];
     rewrite <-?app_assoc; [done|done|];
     rewrite !elem_of_app, !list_elem_of_singleton; tauto).
Qed.

(** X22. Under a server that answers every call with 401, the v2.11.0
    [_fetchWithRetry] never comes to an end: the refresh it starts goes
    through [_fetchWithRetry] again, which starts a refresh. The v2.14.0
    one gives up after two calls. *)
Theorem refresh_loop_of_v2_11 (unauthorized : Response) :
  (forall log request, fetch log request = Return unauthorized) ->
  ok unauthorized = false ->
  status unauthorized = 401 ->
  forall (calls : nat) (path : string) (options : Options Body)
         (c : Client Body),
    (exists c',
        MerciClient_v2_11._fetchWithRetry fetch calls path options false c
        = (c', None)
        /\ length (fetched c') = (length (fetched c) + calls)%nat)
    /\ (exists c',
          InternalHttpClient._fetchWithRetry fetch path options false c
          = (c', Throw (APIStatusError "Token refresh failed" 401))
          /\ length (fetched c') = (length (fetched c) + 2)%nat).
Proof.
  intros Hfetch Hok Hstatus calls path options c. split.
  - revert path options c.
    induction calls as [|calls IH]; intros path options c.
    + exists c. split; [done|lia].
    + cbn [MerciClient_v2_11._fetchWithRetry].
      rewrite Hfetch, Hok, Hstatus. cbn [negb Z.eqb Pos.eqb andb].
      unfold MerciClient_v2_11._refreshToken.
      match goal with
      | |- context [MerciClient_v2_11._fetchWithRetry fetch calls ?p ?o
                      false ?c1] =>
          destruct (IH p o c1) as (c2 & -> & Hlen)
      end.
      exists c2. split; [done|]. rewrite Hlen.
      cbn [emit sent fetched]. rewrite length_app. cbn. lia.
  - unfold InternalHttpClient._fetchWithRetry,
      InternalHttpClient.fetchWithRetry_body.
    rewrite Hfetch, Hok, Hstatus. cbn [negb Z.eqb Pos.eqb].
    unfold InternalHttpClient._refreshToken.
    rewrite Hfetch, Hok, Hstatus. cbn [negb].
    eexists. split; [reflexivity|].
    cbn [emit sent fetched]. rewrite !length_app. cbn. lia.
Qed.
End HttpFacts.

Lemma fetchWithRetry_retries_once_with_the_new_token_witness :
  exists c',
    InternalHttpClient._fetchWithRetry (Body := unit) expired_once
      "/llm/chat/stream/v8" (Http.mkOptions "POST" (Http.payload ()) [])
      false
      (Http.mkClient (JString "t1") "https://api.jetbrains.ai/user/v5" [] [])
    = (c', Return (Http.mkResponse true 200 (Some ["data: end"])
                     (Return JNull)))
    /\ Http.token c' = JString "t2"
    /\ length (Http.fetched c') = 3%nat.
Proof.
  destruct (fetchWithRetry_retries_once_with_the_new_token (Body := unit)
              expired_once "/llm/chat/stream/v8"
              (Http.mkOptions "POST" (Http.payload ()) [])
              (Http.mkClient (JString "t1")
                 "https://api.jetbrains.ai/user/v5" [] [])
              (Http.mkResponse false 401 None (Return JNull))
              (Http.mkResponse true 200 (Some [])
                 (Return (JObject [("token", JString "t2")])))
              (JObject [("token", JString "t2")]) (JString "t2"))
    as (c' & Hrun & Hfetched & Htoken & _); try reflexivity.
  exists c'. split_and!; [exact Hrun|exact Htoken|].
  rewrite Hfetched. reflexivity.
Defined.

Lemma refresh_loop_of_v2_11_witness :
  exists c',
    MerciClient_v2_11._fetchWithRetry (Body := unit) always_unauthorized 7
      "/llm/chat/stream/v8" (Http.mkOptions "POST" (Http.payload ()) [])
      false
      (Http.mkClient (JString "t1") "https://api.jetbrains.ai/user/v5" [] [])
    = (c', None)
    /\ length (Http.fetched c') = 7%nat.
Proof.
  destruct (refresh_loop_of_v2_11 (Body := unit) always_unauthorized
              (Http.mkResponse false 401 None
                 (Throw (SyntaxError "Unexpected end of JSON input")))
              (fun _ _ => eq_refl) eq_refl eq_refl 7%nat
              "/llm/chat/stream/v8"
              (Http.mkOptions "POST" (Http.payload ()) [])
              (Http.mkClient (JString "t1")
                 "https://api.jetbrains.ai/user/v5" [] []))
    as [(c' & Hrun & Hlen) _].
  exists c'. split; [exact Hrun|exact Hlen].
Defined.

(* ================================================================== *)
(** * Tool argument validation                                         *)
(* ================================================================== *)

Lemma JSValue_nested_ind (P : JSValue -> Prop) :
  P JUndefined -> P JNull -> (forall b, P (JBool b)) ->
  (forall n, P (JNumber n)) -> (forall s, P (JString s)) ->
  (forall items, Forall P items -> P (JArray items)) ->
  (forall props, Forall (fun kv => P kv.2) props -> P (JObject props)) ->
  forall v, P v.
Proof.
  intros Hu Hn Hb Hz Hs Ha Ho.
  fix IH 1. intros [| |b|n|s|items|props]; [done..| |].
  - apply Ha. induction items as [|item items IHitems]; constructor;
      [apply IH|apply IHitems].
  - apply Ho. induction props as [|[k v] props IHprops]; constructor;
      [apply IH|apply IHprops].
Qed.

Lemma fold_left_appends {A B} (f : list A -> B -> list A) (l : list B) e :
  Forall (fun x => forall e, f e x = e ++ f [] x) l ->
  fold_left f l e = e ++ concat (f [] <$> l).
Proof.
  intros Hl. revert e. induction Hl as [|x l Hx _ IH]; intros e.
  - cbn. by rewrite app_nil_r.
  - cbn [fold_left fmap list_fmap concat]. by rewrite IH, Hx, app_assoc.
Qed.

Section ValidationFacts.
Variable in_array : string -> list JSValue -> bool.


Lemma check_entry_appends
    (self : JSValue -> Schema -> list string -> list ValidationError ->
            list ValidationError)
    schema path key value errors :
  (forall s p e, self value s p e = e ++ self value s p []) ->
  check_entry self schema path key value errors
  = errors ++ check_entry self schema path key value [].
Proof.
  intros Hself. unfold check_entry.
  destruct (property_schema (sch_properties schema) key) as [ps| |];
    [| done | by rewrite app_nil_r].
  destruct (differs (valueType value) (sch_type ps)); [done|].
  set (nested := (is_ (sch_type ps) "object"
                  && bool_decide (is_Some (sch_properties ps)))%bool).
  destruct nested.
  - rewrite Hself.
    destruct (sch_items ps) as [items|]; [|done].
    destruct value; try done.
    destruct (is_ (sch_type ps) "array"); [|done]. by rewrite app_assoc.
  - destruct (sch_items ps) as [items|]; [|by rewrite app_nil_r].
    destruct value; try by rewrite app_nil_r.
    destruct (is_ (sch_type ps) "array"); [done|by rewrite app_nil_r].
Qed.

Lemma indexed_fold_appends
    (f : string -> JSValue -> list ValidationError -> list ValidationError)
    (elements : list JSValue) (index : nat) (errors : list ValidationError) :
  Forall (fun value => forall key e, f key value e = e ++ f key value [])
    elements ->
  (fold_left (fun '(index, errors) value =>
                (S index, f (pretty index) value errors))
     elements (index, errors)).2
  = errors
    ++ (fold_left (fun '(index, errors) value =>
                     (S index, f (pretty index) value errors))
          elements (index, [])).2.
Proof.
  intros Hl. revert index errors.
  induction Hl as [|value elements Hv _ IH]; intros index errors.
  - cbn. by rewrite app_nil_r.
  - cbn [fold_left]. rewrite IH, Hv.
    rewrite (IH (S index) (f (pretty index) value [])).
    by rewrite app_assoc.
Qed.

(** A call only appends to [errors], and what it appends does not depend
    on what is there. *)
Lemma validateSchema_appends (data : JSValue) (schema : Schema)
    (path : list string) (errors : list ValidationError) :
  validateSchema in_array data schema path errors
  = errors ++ validateSchema in_array data schema path [].
Proof.
  revert schema path errors.
  induction data as [| | | | |items IH|props IH] using JSValue_nested_ind;
    intros schema path errors; cbn [validateSchema];
    try (destruct (0 <? length _)%nat; [done|by rewrite app_nil_r]).
  - destruct (negb (is_ (sch_type schema) "object")).
    { destruct (0 <? length _)%nat; [done|by rewrite app_nil_r]. }
    rewrite indexed_fold_appends.
    + rewrite (indexed_fold_appends _ _ _ ([] ++ _)).
      * by rewrite app_assoc.
      * eapply Forall_impl; [exact IH|]. intros value Hvalue key e.
        by apply check_entry_appends.
    + eapply Forall_impl; [exact IH|]. intros value Hvalue key e.
      by apply check_entry_appends.
  - destruct (negb (is_ (sch_type schema) "object")).
    { destruct (0 <? length _)%nat; [done|by rewrite app_nil_r]. }
    assert (Forall
              (fun kv : string * JSValue =>
                 forall e,
                   (let '(key, value) := kv in
                    check_entry (validateSchema in_array) schema path key value e)
                   = e ++ (let '(key, value) := kv in
                           check_entry (validateSchema in_array) schema path key value []))
              props) as Hprops.
    { eapply Forall_impl; [exact IH|]. intros [key value] Hvalue e.
      by apply check_entry_appends. }
    rewrite (fold_left_appends
               (fun errors '(key, value) =>
                  check_entry (validateSchema in_array) schema path key value errors)
               props _ Hprops).
    rewrite (fold_left_appends
               (fun errors '(key, value) =>
                  check_entry (validateSchema in_array) schema path key value errors)
               props ([] ++ _) Hprops).
    cbn [app]. by rewrite <-app_assoc.
Qed.

Lemma differs_false x y : differs x y = false -> y = given x.
Proof.
  destruct y as [| |s]; cbn; [done..|].
  intros H. apply negb_false_iff in H. apply String.eqb_eq in H. by subst.
Qed.

Lemma own_schema_elem_of key ps s :
  own_schema key ps = Some s -> (key, s) ∈ ps.
Proof.
  induction ps as [|[k s'] ps IH]; [done|]. cbn [own_schema].
  destruct (String.eqb_spec k key) as [->|Hne].
  - intros [= ->]. left.
  - intros H. right. by apply IH.
Qed.

(** What every entry of an object adds when the whole call adds
    nothing. *)
Lemma validate_object_nil props schema path :
  sch_type schema = given "object" ->
  validateSchema in_array (JObject props) schema path [] = [] ->
  required_errors in_array (JObject props) (default [] (sch_required schema))
    path = []
  /\ forall key value, (key, value) ∈ props ->
       check_entry (validateSchema in_array) schema path key value [] = [].
Proof.
  intros Htype. cbn [validateSchema]. rewrite Htype. cbn [is_ negb].
  change (String.eqb "object" "object") with true. cbn [negb app].
  rewrite (fold_left_appends
             (fun errors '(key, value) =>
                check_entry (validateSchema in_array) schema path key value errors)).
  2:{ apply Forall_forall. intros [key value] _ e.
      apply check_entry_appends. intros s p e'.
      apply validateSchema_appends. }
  intros [Hreq Hall]%app_eq_nil. split; [done|].
  intros key value Hin.
  assert (check_entry (validateSchema in_array) schema path key value []
            ∈ (fun kv : string * JSValue =>
                 let '(key, value) := kv in
                 check_entry (validateSchema in_array) schema path key value []) <$> props)
    as Hmem.
  { apply list_elem_of_fmap. by exists (key, value). }
  destruct (check_entry (validateSchema in_array) schema path key value []) as [|e es];
    [done|].
  exfalso. revert Hall Hmem. generalize
    ((fun kv : string * JSValue =>
        let '(key, value) := kv in
        check_entry (validateSchema in_array) schema path key value []) <$> props).
  intros ls. induction ls as [|l ls IHls]; intros Hall Hmem.
  - by apply elem_of_nil in Hmem.
  - cbn [concat] in Hall. apply app_eq_nil in Hall as [Hl Hls].
    apply elem_of_cons in Hmem as [Heq|Hmem]; [by subst|by apply IHls].
Qed.

(** X23. [coreExecute] is reached only with arguments the validator found no
    error in; for an object under an object schema, every required key is
    then in the object or in [Object.prototype], and every argument the
    schema declares has the declared type. *)
Theorem validated_arguments_conform (schema : Schema)
    (coreExecute : JSValue -> Throws JSValue)
    (props : list (string * JSValue)) :
  sch_type schema = given "object" ->
  validateSchema in_array (JObject props) schema [] [] = [] ->
  validatedExecute in_array schema coreExecute (JObject props)
  = coreExecute (JObject props)
  /\ (forall key, key ∈ default [] (sch_required schema) ->
        key ∈ props.*1 \/ key ∈ Object_prototype_names)
  /\ (forall key value declared,
        (key, value) ∈ props ->
        own_schema key (default [] (sch_properties schema)) = Some declared ->
        sch_type declared = given (valueType value)).
Proof.
  intros Htype Hvalid.
  destruct (validate_object_nil props schema [] Htype Hvalid)
    as [Hreq Hentries].
  split_and!.
  - unfold validatedExecute. by rewrite Hvalid.
  - intros key Hkey. unfold required_errors in Hreq.
    apply fmap_nil_inv in Hreq.
    destruct (has_property in_array key (JObject props)) eqn:Hhas.
    + cbn [has_property] in Hhas. apply orb_prop in Hhas as [H|H];
        apply bool_decide_eq_true in H; [by left|by right].
    + exfalso. eapply (filter_nil_not_elem_of _ _ key Hreq); done.
  - intros key value declared Hin Hdeclared.
    specialize (Hentries key value Hin). unfold check_entry in Hentries.
    unfold property_schema in Hentries.
    destruct (sch_properties schema) as [ps|]; [|done].
    change (own_schema key ps = Some declared) in Hdeclared.
    rewrite Hdeclared in Hentries.
    destruct (differs (valueType value) (sch_type declared)) eqn:Hd;
      [done|].
    by apply differs_false.
Qed.

(** X24. Members of [Object.prototype] in the validation: a required key of
    such a name is never reported missing in an object, and an argument of
    such a name that the schema's [properties] do not declare is reported
    as wrongly typed. *)
Theorem validation_consults_Object_prototype (schema : Schema)
    (props : list (string * JSValue)) (path : list string)
    (key : string) (value : JSValue)
    (declared : list (string * Schema)) :
  key ∈ Object_prototype_names ->
  required_errors in_array (JObject props) [key] path = []
  /\ (sch_type schema = given "object" ->
      sch_properties schema = Some declared ->
      own_schema key declared = None ->
      (key, value) ∈ props ->
      mkError (join (path ++ [key]))
        ("Invalid type. Expected 'undefined' but got '"
         +:+ valueType value +:+ "'.")
        ∈ validateSchema in_array (JObject props) schema path []).
Proof.
  intros Hkey. split.
  - unfold required_errors. rewrite filter_cons. cbn [has_property].
    case_decide as Hd; [|done].
    exfalso. rewrite (bool_decide_eq_true_2 (key ∈ Object_prototype_names))
      in Hd by done.
    by rewrite orb_true_r in Hd.
  - intros Htype Hprops Hown Hin. cbn [validateSchema]. rewrite Htype.
    cbn [is_]. change (String.eqb "object" "object") with true.
    cbn [negb app].
    rewrite (fold_left_appends
               (fun errors '(key, value) =>
                  check_entry (validateSchema in_array) schema path key value errors)).
    2:{ apply Forall_forall. intros [k v] _ e.
        apply check_entry_appends. intros s p e'.
        apply validateSchema_appends. }
    apply elem_of_app. right. apply elem_of_concat.
    exists (check_entry (validateSchema in_array) schema path key value []). split.
    + unfold check_entry, property_schema. rewrite Hprops, Hown.
      rewrite bool_decide_eq_true_2 by done. cbn [app]. left.
    + apply list_elem_of_fmap. by exists (key, value).
Qed.
End ValidationFacts.

(** X25. A tool of [createValidatedTool] does not throw on arguments that fail
    the validation: it returns the report, which [executeTools] hands on
    as the result of a successful call. *)
Theorem invalid_arguments_are_reported_as_a_success
    (in_array : string -> list JSValue -> bool)
    (JSON_parse_value : string -> Throws JSValue)
    (toolLibrary : list ToolDefinition) (name description : string)
    (actualSchema_value : JSValue) (actualSchema : Schema)
    (coreExecute : JSValue -> Throws JSValue)
    (call : ToolCall) (data : JSValue) :
  tc_name call = Some name ->
  last (filter (fun t => tool_name t = name) toolLibrary)
  = Some (createValidatedTool in_array name description actualSchema_value
            actualSchema coreExecute) ->
  JSON_parse_value (if String.eqb (tc_arguments call) "" then "{}"
                    else tc_arguments call) = Return data ->
  validateSchema in_array data actualSchema [] [] ≠ [] ->
  executeTools JSON_parse_value [call] toolLibrary
  = [ mkResult (Some name) true
        (validation_report
           (validateSchema in_array data actualSchema [] []) data)
        undefined ].
Proof.
  intros Hname Htool Hargs Hinvalid.
  unfold executeTools. cbn [fmap list_fmap]. f_equal.
  unfold execute_call, toolMap_get. rewrite Hname, Htool, Hargs.
  cbn [tool_execute createValidatedTool]. unfold validatedExecute.
  destruct (validateSchema in_array data actualSchema [] []); done.
Qed.

(* ================================================================== *)
(** * A step that ends the conversation                                *)
(* ================================================================== *)

(** ** A turn of [step] that ends without tool calls *)

(** X26. When the turn ends without tool calls, [step] returns the text of the
    turn and a new array: the history
    with the assistant's text appended; the caller's array is left as it
    was. *)
Theorem step_text_response (JSON_parse : string -> Decoded)
    (fetchWithRetry :
       list RequestBody -> string -> RequestBody -> Throws (list string))
    (Date_now : World -> Z)
    (this : ChatSession) (messages : Ref) (forceTextResponse : bool)
    (history : list ChatMessage) (w w1 : World)
    (value : V2_14.AgentTextResponse) :
  heap w !! messages = Some history ->
  V2_14.step JSON_parse fetchWithRetry Date_now this messages
    forceTextResponse w
  = (w1, Return (V2_14.done value)) ->
  heap w1 !! V2_14.response_messages value
  = Some (history
          ++ [assistant_message_text (V2_14.response_content value)])
  /\ V2_14.response_messages value ≠ messages
  /\ heap w1 !! messages = Some history
  /\ exists body chunks events,
       requests w1 = requests w ++ [body]
       /\ fetchWithRetry (requests w) "/llm/chat/stream/v8" body
          = Return chunks
       /\ read_stream (V2_14.parseLine JSON_parse) chunks
          = (events, Return ())
       /\ collect events = (V2_14.response_content value, []).
Proof.
  intros Hhist. rewrite step_unfold. cbv zeta. rewrite stream_unfold.
  cbv zeta.
  set (session := if forceTextResponse then V2_14.forced_session this
                  else this).
  pose proof (lookup_lt_Some _ _ _ Hhist) as Hlt.
  destruct (buildParametersArray_frame (s_parameters session)
              (s_tools session) (s_profile session) (Some ())
              (assembled session messages
                 (mkWorld (heap w ++ [default [] (heap w !! messages)])
                    (emitted w) (requests w))))
    as (events & r0 & Hparams & _).
  rewrite Hparams. clear Hparams.
  destruct r0 as [pd|e]; cbn [heap emitted requests emitting assembled];
    [|done].
  match goal with
  | |- context [fetchWithRetry (requests w) ?path ?b] =>
      generalize b; intros body
  end.
  destruct (fetchWithRetry (requests w) "/llm/chat/stream/v8" body)
    as [chunks|e] eqn:Hfetch; [|done].
  destruct (read_stream (V2_14.parseLine JSON_parse) chunks)
    as [evs [[]|e]] eqn:Hread; [|done].
  destruct (collect evs) as [text calls] eqn:Hcollect. cbn [fst snd].
  destruct (0 <? length calls)%nat eqn:Hcalls; [done|].
  intros [= <- <-]. cbn [V2_14.response_messages V2_14.response_content
                         heap emitted requests].
  rewrite Hhist. cbn [default]. unfold id.
  assert (forall copy, ((heap w ++ [history]) ++ [copy]) !! length (heap w)
                       = Some history) as Hcopy.
  { intros copy. apply lookup_app_l_Some, lookup_snoc. }
  rewrite Hcopy. cbn [default].
  split_and!.
  - apply list_lookup_insert_eq. rewrite !length_app. cbn. lia.
  - lia.
  - rewrite list_lookup_insert_ne by lia.
    by do 2 apply lookup_app_l_Some.
  - exists body, chunks, evs. split_and!; [done..|].
    rewrite Hcollect. f_equal. destruct calls; [done|discriminate].
Qed.

(* ================================================================== *)
(** * Examples                                                         *)
(* ================================================================== *)

Lemma getSupportedParameters_agrees_with_filtering_witness :
  let this := mkSession "openai-o1-mini" [] [(TOP_K, JNumber 40)] None in
  exists payload warnings,
    buildParametersArray (s_parameters this) (s_tools this) (s_profile this)
      (Some ()) new_World
    = (emitting new_World warnings, Return payload)
    /\ ((exists t, data_def t (fqdn (LLMParameters TOP_K))
                     ∈ default [] payload)
        <-> key_name TOP_K ∈ sp_name <$> getSupportedParameters this)
    /\ (warning_for TOP_K (s_profile this) ∈ warnings
        <-> key_name TOP_K ∉ sp_name <$> getSupportedParameters this).
Proof.
  intros this.
  assert (exists mp, modelProfiles !! "openai-o1-mini" = Some mp)
    as [mp Hmp].
  { vm_compute. eexists. reflexivity. }
  apply (getSupportedParameters_agrees_with_filtering this mp TOP_K
           (JNumber 40) new_World Hmp).
  left.
Defined.

Lemma run_keeps_the_callers_arrays_witness :
  let w := mkWorld [[user_message "2+2?"]] [] [] in
  heap (V2_14.run sample_JSON_parse sample_JSON_parse_value sample_fetch
          sample_Date_now
          (V2_14.withTools (new_ChatSession "openai-gpt-4o") [])
          (Input_array 0%nat) None w).1 !! 0%nat
  = Some [user_message "2+2?"].
Proof.
  intros w.
  apply (run_keeps_the_callers_arrays sample_JSON_parse
           sample_JSON_parse_value sample_fetch sample_Date_now).
  reflexivity.
Defined.

Lemma run_v2_11_appends_to_the_callers_array_witness :
  let this := new_ChatSession "openai-gpt-4o" in
  let w := mkWorld [[user_message "Weather in Paris?"]] [] [] in
  exists more,
    heap (V2_11.run sample_JSON_parse sample_JSON_parse_value sample_fetch
            sample_Date_now this (Input_array 0%nat) w).1 !! 0%nat
    = Some ([user_message "Weather in Paris?"]
            ++ [ assistant_message_tool (Some "c1") (Some "get_weather")
                   "{}";
                 tool_message (Some "c1") (Some "get_weather")
                   (JSON_stringify
                      (JObject [("error",
                                 JString "Tool 'get_weather' not found.")])) ]
            ++ more).
Proof.
  intros this w.
  assert (exists w1 events,
            V2_11.stream sample_JSON_parse sample_fetch sample_Date_now
              this (Input_array 0%nat) true w
            = (w1, Return (events, Return ()))
            /\ collect events
               = ("", [mkToolCall (Some "c1") (Some "get_weather") "{}"]))
    as (w1 & events & Hstream & Hcollect).
  { vm_compute. eexists _, _. split; reflexivity. }
  destruct (run_v2_11_appends_to_the_callers_array sample_JSON_parse
              sample_JSON_parse_value sample_fetch sample_Date_now this
              0%nat [user_message "Weather in Paris?"] w w1 events ""
              [mkToolCall (Some "c1") (Some "get_weather") "{}"]
              eq_refl Hstream Hcollect)
    as (more & Hheap & _).
  - discriminate.
  - exists more. exact Hheap.
Defined.

Lemma step_resume_with_another_number_of_results_witness :
  let this := new_ChatSession "openai-gpt-4o" in
  let w := mkWorld [[user_message "Weather in Paris?"]] [] [] in
  let result :=
    mkResult (Some "get_weather") false JUndefined
      (given "Tool 'get_weather' not found.") in
  exists w1 calls suspended w2,
    V2_14.step sample_JSON_parse sample_fetch sample_Date_now this 0%nat
      false w
    = (w1, Return (V2_14.tool_request calls suspended))
    /\ V2_14.step_resume suspended [result; result] w1
       = (w2, Throw (TypeError
                       "Cannot read properties of undefined (reading 'id')"))
    /\ V2_14.step_resume suspended [] w1
       = (emitting w1 [tool_finish []],
          Return (V2_14.mkTextResponse
                    (V2_14.sus_assistantResponse suspended)
                    (V2_14.sus_finalMessages suspended))).
Proof.
  intros this w result.
  assert (exists w1 suspended,
            V2_14.step sample_JSON_parse sample_fetch sample_Date_now this
              0%nat false w
            = (w1, Return (V2_14.tool_request
                             [mkToolCall (Some "c1") (Some "get_weather") "{}"]
                             suspended)))
    as (w1 & suspended & Hstep).
  { vm_compute. eexists _, _. reflexivity. }
  destruct (step_resume_with_another_number_of_results sample_JSON_parse
              sample_fetch sample_Date_now this 0%nat false
              [user_message "Weather in Paris?"] w w1 _ suspended
              [result; result] eq_refl Hstep)
    as (w2 & _ & _ & _ & Hresume).
  exists w1, [mkToolCall (Some "c1") (Some "get_weather") "{}"], suspended,
    w2.
  split_and!; [exact Hstep|exact Hresume|].
  revert Hstep. vm_compute. intros [= <- <-]. reflexivity.
Defined.

Lemma task_stream_request_and_events_witness :
  Task.stream sample_task_parse sample_task_fetch "summarize:v2" JNull
  = ([Task.Ev_content (given "hello")], Return ()).
Proof.
  etrans.
  - exact (task_stream_request_and_events sample_task_parse
             sample_task_fetch "summarize" "v2" JNull eq_refl eq_refl).
  - vm_compute. reflexivity.
Defined.

Lemma validated_arguments_conform_witness :
  validatedExecute sample_in_array city_schema
    (fun data => Return data) (JObject [("city", JString "Paris")])
  = Return (JObject [("city", JString "Paris")]).
Proof.
  apply (validated_arguments_conform sample_in_array city_schema
           (fun data => Return data) [("city", JString "Paris")]).
  - reflexivity.
  - vm_compute. reflexivity.
Defined.

Lemma validation_consults_Object_prototype_witness :
  required_errors sample_in_array (JObject []) ["constructor"] [] = []
  /\ mkError "constructor"
       "Invalid type. Expected 'undefined' but got 'string'."
     ∈ validateSchema sample_in_array
         (JObject [("constructor", JString "x")]) city_schema [] [].
Proof.
  assert ("constructor" ∈ Object_prototype_names) as Hin.
  { apply (bool_decide_unpack _). vm_compute. exact I. }
  split.
  - apply (validation_consults_Object_prototype sample_in_array city_schema
             [] [] "constructor" JNull [] Hin).
  - apply (validation_consults_Object_prototype sample_in_array city_schema
             [("constructor", JString "x")] [] "constructor" (JString "x")
             [("city", mkSchema (given "string") None None None)] Hin).
    + reflexivity.
    + reflexivity.
    + reflexivity.
    + left.
Defined.

Lemma invalid_arguments_are_reported_as_a_success_witness :
  let tool :=
    createValidatedTool sample_in_array "get_weather" "Weather of a city."
      JNull city_schema (fun data => Return (JString "14")) in
  executeTools sample_JSON_parse_value
    [mkToolCall (Some "c1") (Some "get_weather") "{}"] [tool]
  = [ mkResult (Some "get_weather") true
        (validation_report
           [mkError "city" "Required key 'city' is missing."] (JObject []))
        undefined ].
Proof.
  intros tool.
  apply (invalid_arguments_are_reported_as_a_success sample_in_array
           sample_JSON_parse_value [tool] "get_weather" "Weather of a city."
           JNull city_schema (fun data => Return (JString "14"))
           (mkToolCall (Some "c1") (Some "get_weather") "{}") (JObject [])).
  - reflexivity.
  - vm_compute. reflexivity.
  - vm_compute. reflexivity.
  - vm_compute. discriminate.
Defined.

Lemma step_text_response_witness :
  let this := new_ChatSession "openai-gpt-4o" in
  let w := mkWorld [[user_message "2+2?"]] [] [] in
  exists w1 value,
    V2_14.step sample_JSON_parse sample_fetch_4 sample_Date_now this 0%nat
      false w
    = (w1, Return (V2_14.done value))
    /\ heap w1 !! V2_14.response_messages value
       = Some [user_message "2+2?";
               assistant_message_text (V2_14.response_content value)]
    /\ heap w1 !! 0%nat = Some [user_message "2+2?"].
Proof.
  intros this w.
  assert (exists w1 value,
            V2_14.step sample_JSON_parse sample_fetch_4 sample_Date_now this
              0%nat false w
            = (w1, Return (V2_14.done value)))
    as (w1 & value & Hstep).
  { vm_compute. eexists _, _. reflexivity. }
  destruct (step_text_response sample_JSON_parse sample_fetch_4
              sample_Date_now this 0%nat false [user_message "2+2?"] w w1
              value eq_refl Hstep)
    as (Hnew & _ & Hold & _).
  exists w1, value. split_and!; [exact Hstep|exact Hnew|exact Hold].
Defined.

Lemma task_stream_fails_at_a_malformed_line_witness :
  let fetch (request : Task.Request) :=
    Return [data_line "hello"; data_line "{"; data_line "hello"] in
  Task.stream sample_task_parse fetch "summarize" JNull
  = ([Task.Ev_content (given "hello")],
     Throw (SSEError
              "Failed to parse Task SSE data chunk: Unexpected token"))
  /\ Task.execute sample_task_parse fetch "summarize" JNull
     = Throw (SSEError
                "Failed to parse Task SSE data chunk: Unexpected token").
Proof.
  intros fetch.
  apply (task_stream_fails_at_a_malformed_line sample_task_parse fetch
           "summarize" JNull
           [data_line "hello"; data_line "{"; data_line "hello"]
           ["data: hello"] ["data: hello"; ""] "data: {" "Unexpected token").
  - reflexivity.
  - vm_compute. reflexivity.
  - reflexivity.
  - reflexivity.
  - reflexivity.
  - reflexivity.
Defined.

(* ================================================================== *)
(** * Constructing a client                                            *)
(* ================================================================== *)

Lemma fetchWithRetry_first_request {Body : Type}
    (fetch : list (Http.Request Body) -> Http.Request Body
             -> Throws Http.Response)
    (path : string) (options : Http.Options Body) (isRetry : bool)
    (c : Http.Client Body) :
  Http.fetched c = [] ->
  head (Http.fetched
          (InternalHttpClient._fetchWithRetry fetch path options isRetry
             c).1)
  = Some (Http.mkRequest (Http.apiBaseUrl c +:+ path) (Http.method options)
            (Http.token c) true (Http.headers options)
            (Http.body options)).
Proof.
  intros Hnone.
  assert (forall retry,
            (forall c', exists calls,
                Http.fetched (retry c').1 = Http.fetched c' ++ calls) ->
            head (Http.fetched
                    (InternalHttpClient.fetchWithRetry_body fetch
                       (Some retry) path options c).1)
            = Some (Http.mkRequest (Http.apiBaseUrl c +:+ path)
                      (Http.method options) (Http.token c) true
                      (Http.headers options) (Http.body options))
            /\ head (Http.fetched
                       (InternalHttpClient.fetchWithRetry_body fetch
                          None path options c).1)
               = Some (Http.mkRequest (Http.apiBaseUrl c +:+ path)
                         (Http.method options) (Http.token c) true
                         (Http.headers options) (Http.body options)))
    as Hbody.
  { intros retry Hretry. unfold InternalHttpClient.fetchWithRetry_body.
    cbn [Http.apiBaseUrl Http.token Http.fetched Http.emit Http.sent].
    set (request := Http.mkRequest _ _ _ _ _ _).
    assert (forall c0 : Http.Client Body,
              Http.fetched c0 = Http.fetched c ++ [request] ->
              head (Http.fetched c0) = Some request) as Hhead.
    { intros c0 ->. by rewrite Hnone. }
    assert (forall (c0 : Http.Client Body) calls,
              Http.fetched c0 = (Http.fetched c ++ [request]) ++ calls ->
              head (Http.fetched c0) = Some request) as Hmore.
    { intros c0 calls ->. by rewrite Hnone. }
    destruct (fetch _ _) as [response|e]; [|by split; apply Hhead].
    destruct (negb (Http.ok response)).
    - destruct (Z.eqb (Http.status response) 401);
        [|by split; apply Hhead].
      split; [|by apply Hhead].
      match goal with
      | |- context [InternalHttpClient._refreshToken fetch ?c0] =>
          pose proof (refreshToken_frame fetch c0) as Hr;
          destruct (InternalHttpClient._refreshToken fetch c0)
            as [c1 [newToken|e]]
      end.
      + destruct Hr as (r & Hr & _).
        match goal with
        | |- context [retry ?c2] => destruct (Hretry c2) as [calls Hc]
        end.
        cbn [Http.fetched Http.emit Http.set_token Http.sent] in Hr, Hc.
        rewrite Hr in Hc. rewrite <-app_assoc in Hc.
        by apply (Hmore _ ([r] ++ calls)).
      + destruct Hr as (r & Hr & _).
        cbn [fst Http.fetched Http.emit Http.sent] in Hr |- *.
        by apply (Hmore _ [r]).
    - destruct (Http.response_body response); by split; apply Hhead. }
  unfold InternalHttpClient._fetchWithRetry.
  destruct isRetry.
  - apply (Hbody (fun c => (c, Throw (Error "")))).
    intros c'. exists []. by rewrite app_nil_r.
  - apply Hbody. intros c'.
    pose proof (fetchWithRetry_body_once fetch path options c') as H.
    destruct (InternalHttpClient.fetchWithRetry_body fetch None path
                options c') as [c2 r].
    destruct H as ([request Hreq] & _). by exists [request].
Qed.

(** X27. The constructor of [InternalHttpClient] and the first call of the
    client it returns. The token is the first of [options.token],
    [GRAZIE_JWT_TOKEN] and [GRAZIE_USER_JWT_TOKEN] that is neither [null]
    nor [undefined], and it is not the empty string; the first request
    goes to [endpoint/authType/v5] followed by the path, with that token.
    An empty [token] option is not replaced by a token of the
    environment: the constructor throws. *)
Theorem constructed_client_first_request {Body : Type}
    (options : InternalHttpClient.ClientOptions)
    (env : InternalHttpClient.Env) :
  let absent (f : Field string) := forall s, f ≠ given s in
  let base :=
    nullish_or (InternalHttpClient.opt_endpoint options)
      "https://api.jetbrains.ai"
    +:+ "/"
    +:+ nullish_or (InternalHttpClient.opt_authType options) "user"
    +:+ "/v5" in
  (forall c : Http.Client Body,
     InternalHttpClient.new_ options env = Return c ->
     exists token,
       token ≠ ""
       /\ (InternalHttpClient.opt_token options = given token
           \/ (absent (InternalHttpClient.opt_token options)
               /\ InternalHttpClient.GRAZIE_JWT_TOKEN env = given token)
           \/ (absent (InternalHttpClient.opt_token options)
               /\ absent (InternalHttpClient.GRAZIE_JWT_TOKEN env)
               /\ InternalHttpClient.GRAZIE_USER_JWT_TOKEN env
                  = given token))
       /\ forall fetch path request_options isRetry,
            head (Http.fetched
                    (InternalHttpClient._fetchWithRetry fetch path
                       request_options isRetry c).1)
            = Some (Http.mkRequest (base +:+ path)
                      (Http.method request_options) (JString token) true
                      (Http.headers request_options)
                      (Http.body request_options)))
  /\ (InternalHttpClient.opt_token options = given "" ->
      InternalHttpClient.new_ (Body := Body) options env
      = Throw (Error "An authentication token is required. Provide it via the `token` option or the GRAZIE_JWT_TOKEN environment variable.")).
Proof.
  intros absent base. unfold InternalHttpClient.new_. split.
  - intros c Hc.
    assert (exists token,
              InternalHttpClient.nullish
                (InternalHttpClient.nullish
                   (InternalHttpClient.opt_token options)
                   (InternalHttpClient.GRAZIE_JWT_TOKEN env))
                (InternalHttpClient.GRAZIE_USER_JWT_TOKEN env)
              = given token
              /\ token ≠ ""
              /\ (InternalHttpClient.opt_token options = given token
                  \/ (absent (InternalHttpClient.opt_token options)
                      /\ InternalHttpClient.GRAZIE_JWT_TOKEN env
                         = given token)
                  \/ (absent (InternalHttpClient.opt_token options)
                      /\ absent (InternalHttpClient.GRAZIE_JWT_TOKEN env)
                      /\ InternalHttpClient.GRAZIE_USER_JWT_TOKEN env
                         = given token)))
      as (token & Hchain & Hne & Hfrom).
    { subst absent.
      destruct (InternalHttpClient.opt_token options) as [| |t],
        (InternalHttpClient.GRAZIE_JWT_TOKEN env) as [| |t'],
        (InternalHttpClient.GRAZIE_USER_JWT_TOKEN env) as [| |t''];
        cbn in Hc |- *; try discriminate Hc;
        match type of Hc with
        | context [String.eqb ?s ""] =>
            assert (s ≠ "") as Hne
              by (intros Heq; rewrite Heq in Hc; cbn in Hc; discriminate Hc);
            exists s
        end;
        (split_and!; [done|done|]); naive_solver. }
    rewrite Hchain in Hc. cbn [truthy ToString] in Hc.
    destruct (String.eqb token ""); [discriminate Hc|]. cbn [negb] in Hc.
    injection Hc as <-.
    exists token. split_and!; [done..|].
    intros fetch path request_options isRetry.
    by rewrite fetchWithRetry_first_request.
  - by intros ->.
Qed.

Example client_token_from_the_environment :
  InternalHttpClient.new_ (Body := unit)
    (InternalHttpClient.mkClientOptions (given "") undefined undefined)
    (InternalHttpClient.mkEnv (given "t1") undefined)
  = Throw (Error "An authentication token is required. Provide it via the `token` option or the GRAZIE_JWT_TOKEN environment variable.")
  /\ InternalHttpClient.new_ (Body := unit)
       (InternalHttpClient.mkClientOptions null undefined undefined)
       (InternalHttpClient.mkEnv (given "t1") undefined)
     = Return (Http.mkClient (JString "t1")
                 "https://api.jetbrains.ai/user/v5" [] []).
Proof. split; reflexivity. Qed.
